(** * A shallow embedding of [models/EncoderDecoder.py]

    The Python module defines three [nn.Module] classes, [Encoder], [Decoder]
    and [EncoderDecoder], and the factory [create_encoder_decoder_model].
    The code of the repository is embedded function by function.  The
    PyTorch layers it calls ([nn.LSTM], [nn.GRU], [nn.BatchNorm1d],
    [nn.LayerNorm], [nn.Dropout], [nn.Linear], [nn.MultiheadAttention]) are
    not code of the repository: they are parameters of the development, and
    the theorems that need something from them state it as a contract. *)

From Stdlib Require Import String ZArith QArith Lia Bool Arith List.
Import ListNotations.

Close Scope Q_scope.
Open Scope nat_scope.

Set Implicit Arguments.

(** ** Python exceptions and results *)

Inductive exn : Type :=
| AssertionError (msg : string)
| AttributeError
| TypeError
| IndexError
| ValueError
| RuntimeError.

Inductive Res (A : Type) : Type :=
| Ok (a : A)
| Raise (e : exn).

Arguments Ok {A} a.
Arguments Raise {A} e.

Definition res_bind {A B} (r : Res A) (k : A -> Res B) : Res B :=
  match r with
  | Ok a => k a
  | Raise e => Raise e
  end.

Definition res_map {A B} (f : A -> B) (r : Res A) : Res B :=
  res_bind r (fun a => Ok (f a)).

Definition is_ok {A} (r : Res A) : bool :=
  match r with Ok _ => true | Raise _ => false end.

(** ** Tensors

    A tensor is a shape and its elements in row-major order, which is what
    a contiguous [torch.Tensor] is.  [permute] returns a view in PyTorch and
    [.contiguous()] copies it into row-major order; both denote the same
    tensor value here, so [.contiguous()] is the identity of the model. *)

Section Tensors.

Variable R : Type.
Variable r0 : R.

Record Tensor : Type := mkTensor { shape : list nat; data : list R }.

Definition numel (sh : list nat) : nat := fold_right Nat.mul 1 sh.

Definition wf (t : Tensor) : Prop := length (data t) = numel (shape t).

Fixpoint offset (sh idx : list nat) : nat :=
  match sh, idx with
  | _ :: sh', i :: idx' => i * numel sh' + offset sh' idx'
  | _, _ => 0
  end.

Definition get (t : Tensor) (idx : list nat) : R :=
  nth (offset (shape t) idx) (data t) r0.

Fixpoint tabulate (sh : list nat) (f : list nat -> R) : list R :=
  match sh with
  | [] => [f []]
  | d :: sh' =>
      flat_map (fun i => tabulate sh' (fun idx => f (i :: idx))) (seq 0 d)
  end.

Definition build (sh : list nat) (f : list nat -> R) : Tensor :=
  mkTensor sh (tabulate sh f).

Definition valid_index (idx sh : list nat) : Prop := Forall2 lt idx sh.

(** [torch.zeros(shape)] for a shape that is already a [torch.Size]. *)
Definition zeros (sh : list nat) : Tensor :=
  mkTensor sh (repeat r0 (numel sh)).

(** [torch.zeros(d0, d1, ...)] on Python integers: a negative dimension
    raises.  The sizes are those PyTorch can read, the integers of 64
    bits, as the sizes of a tensor are; on a larger Python integer the
    conversion of the argument fails before [torch.zeros] looks at it,
    which is not modelled: the theorems about a size that is not read
    off a tensor are stated for sizes in [int64]. *)
Definition torch_zeros (dims : list Z) : Res Tensor :=
  if forallb (fun d => 0 <=? d)%Z dims
  then Ok (zeros (map Z.to_nat dims))
  else Raise RuntimeError.

(** [slice(start, stop).indices(len)] for step 1: the bounds Python uses
    for [a[start:stop]] on an axis of length [len]. *)
Definition clamp_bound (len : nat) (v : Z) : nat :=
  let l := Z.of_nat len in
  let v' := if (v <? 0)%Z then (v + l)%Z else v in
  Z.to_nat (Z.max 0 (Z.min v' l)).

Definition slice_indices (start stop : option Z) (len : nat) : nat * nat :=
  (match start with Some s => clamp_bound len s | None => 0 end,
   match stop with Some s => clamp_bound len s | None => len end).

(** [t[:, start:stop]] ([nsub = 2]) and [t[:, start:stop, :]]
    ([nsub = 3]): a slice of axis 1.  More subscripts than axes is an
    [IndexError]. *)
Definition getitem_axis1 (nsub : nat) (start stop : option Z) (t : Tensor)
  : Res Tensor :=
  match shape t with
  | d0 :: d1 :: rest =>
      if nsub <=? length (shape t) then
        let '(lo, hi) := slice_indices start stop d1 in
        Ok (build (d0 :: (hi - lo) :: rest)
              (fun idx =>
                 match idx with
                 | i :: j :: r => get t (i :: (lo + j) :: r)
                 | _ => r0
                 end))
      else Raise IndexError
  | _ => Raise IndexError
  end.

(** [t.permute(dims)]: axis [i] of the result is axis [dims[i]] of [t]. *)
Fixpoint index_of (k : nat) (dims : list nat) : nat :=
  match dims with
  | [] => 0
  | d :: dims' => if d =? k then 0 else S (index_of k dims')
  end.

Definition is_permutation (dims : list nat) (n : nat) : bool :=
  (length dims =? n) &&
  forallb (fun k => existsb (Nat.eqb k) dims) (seq 0 n).

Definition permute (dims : list nat) (t : Tensor) : Res Tensor :=
  let n := length (shape t) in
  if is_permutation dims n then
    Ok (build (map (fun d => nth d (shape t) 0) dims)
          (fun idx =>
             get t (map (fun k => nth (index_of k dims) idx 0) (seq 0 n))))
  else Raise RuntimeError.

(** The element of a rank-3 tensor at the index read off positions [p],
    [q] and [r] of [idx]: what a permutation of three axes reads. *)
Definition reindex (p q r : nat) (t : Tensor) (idx : list nat) : R :=
  get t [nth p idx 0; nth q idx 0; nth r idx 0].

(** [torch.cat([a, b], axis=-1)]. *)
Definition cat_last (a b : Tensor) : Res Tensor :=
  match rev (shape a), rev (shape b) with
  | la :: pa, lb :: pb =>
      if list_eq_dec Nat.eq_dec pa pb then
        Ok (build (rev pa ++ [la + lb])
              (fun idx =>
                 let k := last idx 0 in
                 if k <? la then get a idx
                 else get b (removelast idx ++ [k - la])))
      else Raise RuntimeError
  | _, _ => Raise RuntimeError
  end.

(** [t[:, start:stop, :] = v]: assignment to a slice of axis 1.  PyTorch
    drops the leading axes of length 1 of [v], then expands what is left
    to the shape of the slice: the axes are aligned on the last one, an
    axis of [v] must have the length of the axis of the slice or length
    1, and [v] may have fewer axes than the slice.  A value that cannot be
    expanded is a [RuntimeError].  The assignment is in place; the model
    returns the tensor [t] has become. *)
Fixpoint strip_ones (sh : list nat) : list nat :=
  match sh with
  | 1 :: sh' => strip_ones sh'
  | _ => sh
  end.

(** Both shapes are given last axis first. *)
Fixpoint expandable (src dst : list nat) : bool :=
  match src, dst with
  | [], _ => true
  | s :: src', d :: dst' => ((s =? d) || (s =? 1)) && expandable src' dst'
  | _ :: _, [] => false
  end.

(** The index in the value of the element that lands at [idx] in the
    slice; shape and index are given last axis first. *)
Fixpoint expand_index (src idx : list nat) : list nat :=
  match src, idx with
  | s :: src', i :: idx' =>
      (if s =? 1 then 0 else i) :: expand_index src' idx'
  | _, _ => []
  end.

Definition setitem_axis1 (nsub : nat) (start stop : option Z)
           (t v : Tensor) : Res Tensor :=
  match shape t with
  | d0 :: d1 :: rest =>
      if nsub <=? length (shape t) then
        let '(lo, hi) := slice_indices start stop d1 in
        let src := strip_ones (shape v) in
        if expandable (rev src) (rev (d0 :: (hi - lo) :: rest)) then
          Ok (build (shape t)
                (fun idx =>
                   match idx with
                   | i :: j :: r =>
                       if (lo <=? j) && (j <? hi)
                       then get (mkTensor src (data v))
                              (rev (expand_index (rev src)
                                      (rev (i :: (j - lo) :: r))))
                       else get t idx
                   | _ => r0
                   end))
        else Raise RuntimeError
      else Raise IndexError
  | _ => Raise IndexError
  end.

End Tensors.

(** ** Computations: exceptions and the global random generator

    [nn.Dropout] draws from PyTorch's global generator and the layer
    constructors draw their initial weights from it.  A computation takes
    the state of the generator and raises or returns a value and the next
    state. *)

Definition M (G A : Type) : Type := G -> Res (A * G).

Definition ret {G A} (a : A) : M G A := fun g => Ok (a, g).

Definition bind {G A B} (m : M G A) (k : A -> M G B) : M G B :=
  fun g => match m g with
           | Ok (a, g') => k a g'
           | Raise e => Raise e
           end.

Definition lift {G A} (r : Res A) : M G A :=
  fun g => match r with
           | Ok a => Ok (a, g)
           | Raise e => Raise e
           end.

Definition raise {G A} (e : exn) : M G A := fun _ => Raise e.

(** What a method call returns to its caller, without the updated object
    and the state of the generator. *)
Definition value {G S A} (r : Res ((S * A) * G)) : Res A :=
  res_map (fun x => snd (fst x)) r.

Declare Scope py_scope.
Delimit Scope py_scope with py.
Notation "x <- m ;; k" := (bind m (fun x => k))
  (at level 61, m at next level, right associativity) : py_scope.
Notation "' pat <- m ;; k" :=
  (bind m (fun x => match x with pat => k end))
  (at level 61, pat pattern, m at next level, right associativity) : py_scope.

(** [[f() for _ in range(n)]] *)
Definition range (n : Z) : list nat := seq 0 (Z.to_nat n).

Fixpoint comprehension {G A} (f : M G A) (l : list nat) : M G (list A) :=
  match l with
  | [] => ret []
  | _ :: l' =>
      (x <- f ;; xs <- comprehension f l' ;; ret (x :: xs))%py
  end.

(** [d > 0] on a dropout probability. *)
Definition Qpositive (d : Q) : bool := negb (Qle_bool d 0).

(** ** The layers of [torch.nn] the model is built from *)

Inductive RnnClass : Type := LSTM | GRU | RNN.

Inductive NormClass : Type := BatchNorm1d | LayerNorm.

Definition RnnClass_eqb (a b : RnnClass) : bool :=
  match a, b with
  | LSTM, LSTM | GRU, GRU | RNN, RNN => true
  | _, _ => false
  end.

Section Layers.

Variable R : Type.

(** A layer is its constructor arguments and its parameter tensors. *)
Record RnnModule : Type := mkRnn {
  rnn_class : RnnClass;
  input_size : Z;
  hidden_size : Z;
  rnn_parameters : list (Tensor R) }.

Record NormModule : Type := mkNorm {
  norm_class : NormClass;
  num_features : Z;
  norm_parameters : list (Tensor R) }.

Record DropoutModule : Type := mkDropout { p : Q }.

Record LinearModule : Type := mkLinear {
  in_features : Z;
  out_features : Z;
  linear_parameters : list (Tensor R) }.

Record AttnModule : Type := mkAttn {
  embed_dim : Z;
  num_heads : Z;
  attn_parameters : list (Tensor R) }.

End Layers.

Arguments mkDropout p : clear implicits.

(** *** What PyTorch provides

    [R] is the type of floats and [G] the state of the global random
    generator.  The interface gives the float [0.0], the initial parameters
    of a layer (its constructor validates the arguments and draws the
    weights), and the forward function of each layer class.  The recurrent
    layers are always built with [num_layers=1, batch_first=True];
    [gru_forward] is the forward of the classes whose state is a single
    tensor ([nn.GRU], [nn.RNN]).  [dropout_forward] is [nn.Dropout] in
    training mode, the only mode in which the model calls it.
    [norm_forward] takes the training flag of the module; the running
    statistics of [nn.BatchNorm1d] are not modelled. *)
Class Torch (R G : Type) : Type := {
  r0 : R;
  rnn_init : RnnClass -> Z -> Z -> M G (list (Tensor R));
  norm_init : NormClass -> Z -> M G (list (Tensor R));
  linear_init : Z -> Z -> M G (list (Tensor R));
  attn_init : Z -> Z -> M G (list (Tensor R));
  lstm_forward :
    RnnModule R -> Tensor R -> option (Tensor R * Tensor R) ->
    Res (Tensor R * (Tensor R * Tensor R));
  gru_forward :
    RnnModule R -> Tensor R -> option (Tensor R) ->
    Res (Tensor R * Tensor R);
  norm_forward : NormModule R -> bool -> Tensor R -> Res (Tensor R);
  dropout_forward : DropoutModule -> Tensor R -> M G (Tensor R);
  linear_forward : LinearModule R -> Tensor R -> Res (Tensor R);
  attn_forward :
    AttnModule R -> Tensor R -> Tensor R -> Tensor R ->
    Res (Tensor R * Tensor R) }.

Section Model.

Context {R G : Type} {torch : Torch R G}.

Local Abbreviation Tensor := (Tensor R).
Local Abbreviation M := (M G).
Local Abbreviation RnnModule := (RnnModule R).
Local Abbreviation NormModule := (NormModule R).
Local Abbreviation LinearModule := (LinearModule R).
Local Abbreviation AttnModule := (AttnModule R).

Local Open Scope py_scope.

(** [rnn_layer(input_size, hidden_size, num_layers=1, batch_first=True)] *)
Definition nn_rnn (cls : RnnClass) (i h : Z) : M RnnModule :=
  w <- rnn_init cls i h ;; ret (mkRnn cls i h w).

Definition nn_BatchNorm1d (n : Z) : M NormModule :=
  w <- norm_init BatchNorm1d n ;; ret (mkNorm BatchNorm1d n w).

Definition nn_LayerNorm (n : Z) : M NormModule :=
  w <- norm_init LayerNorm n ;; ret (mkNorm LayerNorm n w).

Definition nn_Linear (i o : Z) : M LinearModule :=
  w <- linear_init i o ;; ret (mkLinear i o w).

Definition nn_MultiheadAttention (e h : Z) : M AttnModule :=
  w <- attn_init e h ;; ret (mkAttn e h w).

(** [nn.Dropout(p=p)] has no parameters; it rejects a probability outside
    of [0, 1]. *)
Definition nn_Dropout (d : Q) : M DropoutModule :=
  if Qle_bool 0 d && Qle_bool d 1 then ret (mkDropout d)
  else raise ValueError.

(** Calls on attributes that may be [None]. *)
Definition method_permute (dims : list nat) (o : option Tensor)
  : Res Tensor :=
  match o with
  | Some t => permute r0 dims t
  | None => Raise AttributeError
  end.

Definition call_norm (m : option NormModule) (training : bool) (t : Tensor)
  : Res Tensor :=
  match m with
  | Some m => norm_forward m training t
  | None => Raise TypeError
  end.

(** [rnn(x, (h, c))] for an [nn.LSTM], where [h] and [c] may be [None].
    [nn.LSTM.forward] first checks that the input has two or three axes
    (a [ValueError] otherwise), then reads [h.dim()] and [c.dim()], in
    this order and only as far as needed: on an [h] that has not the
    number of axes of the input it raises a [RuntimeError] without
    reading [c], and [None.dim()] is an [AttributeError]. *)
Definition call_lstm (m : RnnModule) (x : Tensor)
           (hx : option Tensor * option Tensor)
  : Res (Tensor * (Tensor * Tensor)) :=
  match hx with
  | (Some h, Some c) => lstm_forward m x (Some (h, c))
  | (h, _) =>
      let r := length (shape x) in
      if (r =? 2) || (r =? 3) then
        match h with
        | Some h =>
            if length (shape h) =? r then Raise AttributeError
            else Raise RuntimeError
        | None => Raise AttributeError
        end
      else Raise ValueError
  end.

Definition is_BatchNorm1d (m : option NormModule) : bool :=
  match m with
  | Some m => match norm_class m with BatchNorm1d => true | _ => false end
  | None => false
  end.

Definition is_LSTM (m : RnnModule) : bool :=
  RnnClass_eqb (rnn_class m) LSTM.

Definition is_some {A} (o : option A) : bool :=
  match o with Some _ => true | None => false end.

(** ** The recurrent stack of [Encoder] and [Decoder]

    The two classes declare the same attributes for their recurrent
    stack, and their private methods [__apply_normalization] (lines
    116-132 and 220-236) and [__apply_dropout] (lines 134-140 and
    238-244), the part of [__init__] that builds the stack (lines 92-114
    and 172-193) and the loop over [self.rnns] (lines 151-159 and
    255-264) are the same text.  These attributes are the record
    [Recurrent]; [Encoder] and [Decoder] each own one. *)
Record Recurrent : Type := mkRecurrent {
  training : bool;
  hidden : option Tensor;
  cell_state : option Tensor;
  basic_rnn : RnnModule;
  rnns : list RnnModule;
  out_normalization : option NormModule;
  hidden_normalization : option NormModule;
  cell_normalization : option NormModule;
  dropouts : list DropoutModule }.

Definition set_hidden (self : Recurrent) (h : option Tensor) : Recurrent :=
  mkRecurrent (training self) h (cell_state self) (basic_rnn self)
    (rnns self) (out_normalization self) (hidden_normalization self)
    (cell_normalization self) (dropouts self).

Definition set_cell_state (self : Recurrent) (c : option Tensor)
  : Recurrent :=
  mkRecurrent (training self) (hidden self) c (basic_rnn self)
    (rnns self) (out_normalization self) (hidden_normalization self)
    (cell_normalization self) (dropouts self).

Definition set_training (self : Recurrent) (mode : bool) : Recurrent :=
  mkRecurrent mode (hidden self) (cell_state self) (basic_rnn self)
    (rnns self) (out_normalization self) (hidden_normalization self)
    (cell_normalization self) (dropouts self).

Definition set_cell_normalization (self : Recurrent)
           (m : option NormModule) : Recurrent :=
  mkRecurrent (training self) (hidden self) (cell_state self)
    (basic_rnn self) (rnns self) (out_normalization self)
    (hidden_normalization self) m (dropouts self).

(** [normalization == name] on an argument that is a string or [None]. *)
Definition normalization_is (normalization : option string) (name : string)
  : bool :=
  match normalization with
  | Some s => String.eqb s name
  | None => false
  end.

(** Lines 92-114 of [Encoder.__init__], 172-193 of [Decoder.__init__].
    A new module is in training mode. *)
Definition Recurrent_init (n_features hidden_dim : Z)
           (rnn_layer : RnnClass) (num_rnn_layers : Z) (dropout : Q)
           (normalization : option string) : M Recurrent :=
  basic_rnn <- nn_rnn rnn_layer n_features hidden_dim ;;
  rnns <- (if (1 <? num_rnn_layers)%Z
           then comprehension (nn_rnn rnn_layer hidden_dim hidden_dim)
                  (range (num_rnn_layers - 1))
           else ret []) ;;
  dropouts <- (if (1 <? num_rnn_layers)%Z && Qpositive dropout
               then comprehension (nn_Dropout dropout)
                      (range num_rnn_layers)
               else ret []) ;;
  ' (o1, h1, c1) <-
    (if normalization_is normalization "BatchNormalization"
     then
       o <- nn_BatchNorm1d hidden_dim ;;
       h <- nn_BatchNorm1d hidden_dim ;;
       (if is_LSTM basic_rnn
        then c <- nn_BatchNorm1d hidden_dim ;; ret (Some o, Some h, Some c)
        else ret (Some o, Some h, None))
     else ret (None, None, None)) ;;
  ' (o2, h2, c2) <-
    (if normalization_is normalization "LayerNormalization"
     then
       o <- nn_LayerNorm hidden_dim ;;
       h <- nn_LayerNorm hidden_dim ;;
       (if is_LSTM basic_rnn
        then c <- nn_LayerNorm hidden_dim ;; ret (Some o, Some h, Some c)
        else ret (Some o, Some h, c1))
     else ret (o1, h1, c1)) ;;
  ret (mkRecurrent true None None basic_rnn rnns o2 h2 c2 dropouts).

(** [__apply_normalization] *)
Definition apply_normalization (self : Recurrent) (tensor : Tensor)
  : M (Recurrent * Tensor) :=
  ' (self, tensor) <-
    (if is_BatchNorm1d (out_normalization self)
     then
       tensor <- lift (permute r0 [0; 2; 1] tensor) ;;
       h <- lift (method_permute [1; 2; 0] (hidden self)) ;;
       let self := set_hidden self (Some h) in
       match cell_state self with
       | Some c =>
           c <- lift (permute r0 [1; 2; 0] c) ;;
           ret (set_cell_state self (Some c), tensor)
       | None => ret (self, tensor)
       end
     else ret (self, tensor)) ;;
  output <- lift (call_norm (out_normalization self) (training self)
                    tensor) ;;
  self <- match hidden self with
          | Some h =>
              h <- lift (call_norm (hidden_normalization self)
                           (training self) h) ;;
              ret (set_hidden self (Some h))
          | None => ret self
          end ;;
  self <- match cell_state self, cell_normalization self with
          | Some c, Some _ =>
              c <- lift (call_norm (out_normalization self)
                           (training self) c) ;;
              ret (set_cell_state self (Some c))
          | _, _ => ret self
          end ;;
  if is_BatchNorm1d (out_normalization self)
  then
    output <- lift (permute r0 [0; 2; 1] output) ;;
    h <- lift (method_permute [2; 0; 1] (hidden self)) ;;
    let self := set_hidden self (Some h) in
    match cell_state self with
    | Some c =>
        c <- lift (permute r0 [2; 0; 1] c) ;;
        ret (set_cell_state self (Some c), output)
    | None => ret (self, output)
    end
  else ret (self, output).

(** [self.dropouts[index]] *)
Definition dropouts_getitem (self : Recurrent) (index : nat)
  : Res DropoutModule :=
  match nth_error (dropouts self) index with
  | Some d => Ok d
  | None => Raise IndexError
  end.

(** [__apply_dropout] *)
Definition apply_dropout (self : Recurrent) (index : nat) (tensor : Tensor)
  : M (Recurrent * Tensor) :=
  d <- lift (dropouts_getitem self index) ;;
  output <- dropout_forward d tensor ;;
  self <- match hidden self with
          | Some h =>
              d <- lift (dropouts_getitem self index) ;;
              h <- dropout_forward d h ;;
              ret (set_hidden self (Some h))
          | None => ret self
          end ;;
  self <- match cell_state self with
          | Some c =>
              d <- lift (dropouts_getitem self index) ;;
              c <- dropout_forward d c ;;
              ret (set_cell_state self (Some c))
          | None => ret self
          end ;;
  ret (self, output).

(** Lines 147-150 and 156-159 ([Encoder]), 251-254 and 261-264
    ([Decoder]): what follows each recurrent layer. *)
Definition after_layer (self : Recurrent) (index : nat) (rnn_out : Tensor)
  : M (Recurrent * Tensor) :=
  ' (self, rnn_out) <-
    (if is_some (out_normalization self)
     then apply_normalization self rnn_out
     else ret (self, rnn_out)) ;;
  if (0 <? length (dropouts self)) && training self
  then apply_dropout self index rnn_out
  else ret (self, rnn_out).

(** Lines 152-155 and 256-260, and lines 247-250 for the first layer of
    the [Decoder]: one recurrent layer on the state the object holds. *)
Definition call_rnn (rnn : RnnModule) (self : Recurrent)
           (rnn_out : Tensor) : M (Recurrent * Tensor) :=
  if is_LSTM rnn
  then
    ' (out, (h, c)) <-
      lift (call_lstm rnn rnn_out (hidden self, cell_state self)) ;;
    ret (set_cell_state (set_hidden self (Some h)) (Some c), out)
  else
    ' (out, h) <- lift (gru_forward rnn rnn_out (hidden self)) ;;
    ret (set_hidden self (Some h), out).

(** [for i, rnn in enumerate(self.rnns, start=1): ...] *)
Fixpoint stacked_layers (self : Recurrent) (i : nat)
         (layers : list RnnModule) (rnn_out : Tensor)
  : M (Recurrent * Tensor) :=
  match layers with
  | [] => ret (self, rnn_out)
  | rnn :: rest =>
      ' (self, rnn_out) <- call_rnn rnn self rnn_out ;;
      ' (self, rnn_out) <- after_layer self i rnn_out ;;
      stacked_layers self (S i) rest rnn_out
  end.

(** ** [class Encoder] *)

Record Encoder : Type := mkEncoder {
  enc_hidden_dim : Z;
  enc_n_features : Z;
  enc_dropout : Q;
  enc_stack : Recurrent }.

Definition Encoder_init (n_features hidden_dim : Z) (rnn_layer : RnnClass)
           (num_rnn_layers : Z) (dropout : Q)
           (normalization : option string) : M Encoder :=
  stack <- Recurrent_init n_features hidden_dim rnn_layer num_rnn_layers
             dropout normalization ;;
  ret (mkEncoder hidden_dim n_features dropout stack).

(** The first layer starts from PyTorch's default state: [basic_rnn(X)]
    is called without one. *)
Definition Encoder_forward (self : Encoder) (X : Tensor)
  : M (Encoder * (Tensor * option Tensor)) :=
  let s := enc_stack self in
  ' (s, rnn_out) <-
    (if is_LSTM (basic_rnn s)
     then
       ' (out, (h, c)) <- lift (lstm_forward (basic_rnn s) X None) ;;
       ret (set_cell_state (set_hidden s (Some h)) (Some c), out)
     else
       ' (out, h) <- lift (gru_forward (basic_rnn s) X None) ;;
       ret (set_hidden s (Some h), out)) ;;
  ' (s, rnn_out) <- after_layer s 0 rnn_out ;;
  ' (s, rnn_out) <- stacked_layers s 1 (rnns s) rnn_out ;;
  ret (mkEncoder (enc_hidden_dim self) (enc_n_features self)
         (enc_dropout self) s,
       (rnn_out, cell_state s)).

(** ** [class Decoder] *)

Record Decoder : Type := mkDecoder {
  dec_hidden_dim : Z;
  dec_n_features : Z;
  dec_dropout : Q;
  dec_stack : Recurrent;
  attn_keys : option Tensor;
  attn_values : option Tensor;
  attn : option AttnModule;
  (** [linear_keys] and [linear_values] are attributes only when
      attention is enabled. *)
  linear_keys : option LinearModule;
  linear_values : option LinearModule;
  regression : LinearModule }.

Definition set_dec_stack (self : Decoder) (s : Recurrent) : Decoder :=
  mkDecoder (dec_hidden_dim self) (dec_n_features self) (dec_dropout self)
    s (attn_keys self) (attn_values self) (attn self) (linear_keys self)
    (linear_values self) (regression self).

Definition set_attn_key_values (self : Decoder) (k v : option Tensor)
  : Decoder :=
  mkDecoder (dec_hidden_dim self) (dec_n_features self) (dec_dropout self)
    (dec_stack self) k v (attn self) (linear_keys self)
    (linear_values self) (regression self).

Definition Decoder_init (n_features hidden_dim : Z) (rnn_layer : RnnClass)
           (num_rnn_layers : Z) (dropout : Q)
           (normalization : option string) (narrow_attn_heads : Z)
  : M Decoder :=
  stack <- Recurrent_init n_features hidden_dim rnn_layer num_rnn_layers
             dropout normalization ;;
  ' (a, lk, lv) <-
    (if (0 <? narrow_attn_heads)%Z
     then
       a <- nn_MultiheadAttention hidden_dim narrow_attn_heads ;;
       lk <- nn_Linear hidden_dim hidden_dim ;;
       lv <- nn_Linear hidden_dim hidden_dim ;;
       ret (Some a, Some lk, Some lv)
     else ret (None, None, None)) ;;
  regression <- nn_Linear (if (0 <? narrow_attn_heads)%Z
                           then hidden_dim * 2 else hidden_dim)%Z
                  n_features ;;
  ret (mkDecoder hidden_dim n_features dropout stack None None a lk lv
         regression).

Definition call_linear (m : option LinearModule) (t : Tensor)
  : Res Tensor :=
  match m with
  | Some m => linear_forward m t
  | None => Raise AttributeError
  end.

(** [__init_attn_key_values] *)
Definition Decoder_init_attn_key_values (self : Decoder)
           (hidden_seq : Tensor) : M Decoder :=
  k <- lift (call_linear (linear_keys self) hidden_seq) ;;
  let self := set_attn_key_values self (Some k) (attn_values self) in
  v <- lift (call_linear (linear_values self) hidden_seq) ;;
  ret (set_attn_key_values self (attn_keys self) (Some v)).

(** [init_hidden].  [next(self.parameters()).device] and [.to(device)]
    place the tensor and do not change its value. *)
Definition Decoder_init_hidden (self : Decoder) (hidden_seq : Tensor)
           (cell_state : option Tensor) : M Decoder :=
  self <- (if is_some (attn self)
           then Decoder_init_attn_key_values self hidden_seq
           else ret self) ;;
  hidden_final <- lift (getitem_axis1 r0 2 (Some (-1)%Z) None hidden_seq) ;;
  h <- lift (permute r0 [1; 0; 2] hidden_final) ;;
  let self := set_dec_stack self (set_hidden (dec_stack self) (Some h)) in
  let cell_state_final :=
    match cell_state with
    | None => zeros r0 (shape h)
    | Some c => c
    end in
  ret (set_dec_stack self
         (set_cell_state (dec_stack self) (Some cell_state_final))).

(** [self.attn(query, self.attn_keys, self.attn_values)] *)
Definition call_attn (m : AttnModule) (q : Tensor)
           (k v : option Tensor) : Res (Tensor * Tensor) :=
  match k, v with
  | Some k, Some v => attn_forward m q k v
  | _, _ => Raise AttributeError
  end.

(** The first layer of the [Decoder] is called on the state [init_hidden]
    left (lines 247-250). *)
Definition Decoder_forward (self : Decoder) (X : Tensor)
  : M (Decoder * Tensor) :=
  let s := dec_stack self in
  ' (s, batch_first_output) <- call_rnn (basic_rnn s) s X ;;
  ' (s, batch_first_output) <- after_layer s 0 batch_first_output ;;
  ' (s, batch_first_output) <-
    stacked_layers s 1 (rnns s) batch_first_output ;;
  let self := set_dec_stack self s in
  batch_first_output <-
    match attn self with
    | Some a =>
        ' (attn_output, attn_output_weights) <-
          lift (call_attn a batch_first_output (attn_keys self)
                  (attn_values self)) ;;
        lift (cat_last r0 attn_output batch_first_output)
    | None => ret batch_first_output
    end ;;
  out <- lift (linear_forward (regression self) batch_first_output) ;;
  ret (self, out).

(** ** [class EncoderDecoder] *)

Record EncoderDecoder : Type := mkEncoderDecoder {
  encoder : Encoder;
  decoder : Decoder;
  input_len : Z;
  target_len : Z;
  teacher_forcing_prob : Q;
  outputs : option Tensor }.

Definition EncoderDecoder_init (encoder : Encoder) (decoder : Decoder)
           (input_len target_len : Z) (teacher_forcing_prob : Q)
  : EncoderDecoder :=
  mkEncoderDecoder encoder decoder input_len target_len
    teacher_forcing_prob None.

Definition set_outputs (self : EncoderDecoder) (o : option Tensor)
  : EncoderDecoder :=
  mkEncoderDecoder (encoder self) (decoder self) (input_len self)
    (target_len self) (teacher_forcing_prob self) o.

Definition set_encoder (self : EncoderDecoder) (e : Encoder)
  : EncoderDecoder :=
  mkEncoderDecoder e (decoder self) (input_len self) (target_len self)
    (teacher_forcing_prob self) (outputs self).

Definition set_decoder (self : EncoderDecoder) (d : Decoder)
  : EncoderDecoder :=
  mkEncoderDecoder (encoder self) d (input_len self) (target_len self)
    (teacher_forcing_prob self) (outputs self).

(** [init_outputs] *)
Definition init_outputs (self : EncoderDecoder) (batch_size : nat)
  : M EncoderDecoder :=
  o <- lift (torch_zeros r0 [Z.of_nat batch_size; target_len self;
                             enc_n_features (encoder self)]) ;;
  ret (set_outputs self (Some o)).

(** [store_output]: item assignment on [None] is a [TypeError]. *)
Definition store_output (self : EncoderDecoder) (i : Z) (out : Tensor)
  : M EncoderDecoder :=
  match outputs self with
  | Some o =>
      o <- lift (setitem_axis1 r0 3 (Some i) (Some (i + 1)%Z) o out) ;;
      ret (set_outputs self (Some o))
  | None => raise TypeError
  end.

(** [X.shape[0]] *)
Definition shape0 (X : Tensor) : Res nat :=
  match shape X with
  | d :: _ => Ok d
  | [] => Raise IndexError
  end.

(** [forward]: the loop over the target steps is commented out in the
    source, [store_output] is never called, and [target_seq] and
    [teacher_forcing_prob] are not read after they are set. *)
Definition EncoderDecoder_forward (self : EncoderDecoder) (X : Tensor)
  : M (EncoderDecoder * Tensor) :=
  source_seq <-
    lift (getitem_axis1 r0 3 None (Some (input_len self)) X) ;;
  target_seq <-
    lift (getitem_axis1 r0 3 (Some (input_len self)) None X) ;;
  batch_size <- lift (shape0 X) ;;
  self <- init_outputs self batch_size ;;
  ' (enc, (hidden_seq, cell_state)) <-
    Encoder_forward (encoder self) source_seq ;;
  let self := set_encoder self enc in
  dec <- Decoder_init_hidden (decoder self) hidden_seq cell_state ;;
  let self := set_decoder self dec in
  ' (dec, output) <- Decoder_forward (decoder self) source_seq ;;
  let self := set_decoder self dec in
  ret (self, output).

(** The message of the assertion in [create_encoder_decoder_model]. *)
Definition heads_message : string :=
  "the number of narrow attention heads must be a multiple of the model's hidden dimensions".

Definition create_encoder_decoder_model (n_features hidden_dim : Z)
           (rnn_layer_module : RnnClass) (rnn_layers seq_len : Z)
           (teacher_forcing dropout : Q) (normalization : option string)
           (narrow_attn_heads : Z) : M EncoderDecoder :=
  _ <- (if (0 <? narrow_attn_heads)%Z
        then
          if (hidden_dim mod narrow_attn_heads =? 0)%Z then ret tt
          else raise (AssertionError heads_message)
        else ret tt) ;;
  encoder <- Encoder_init n_features hidden_dim rnn_layer_module rnn_layers
               dropout normalization ;;
  decoder <- Decoder_init n_features hidden_dim rnn_layer_module rnn_layers
               dropout normalization narrow_attn_heads ;;
  ret (EncoderDecoder_init encoder decoder seq_len seq_len
         teacher_forcing).

(** [model.train(mode)]: [nn.Module.train] sets the flag of the module
    and of every registered sub-module. *)
Definition train (mode : bool) (self : EncoderDecoder) : EncoderDecoder :=
  let e := encoder self in
  let d := decoder self in
  set_decoder
    (set_encoder self
       (mkEncoder (enc_hidden_dim e) (enc_n_features e) (enc_dropout e)
          (set_training (enc_stack e) mode)))
    (set_dec_stack d (set_training (dec_stack d) mode)).

End Model.

Arguments Recurrent R : clear implicits.
Arguments Encoder R : clear implicits.
Arguments Decoder R : clear implicits.
Arguments EncoderDecoder R : clear implicits.

Unset Implicit Arguments.

(** * Specifications *)

Section Invariants.

Context {R G : Type} {torch : Torch R G}.

Definition norm_accepts (m : NormModule R) (training : bool)
           (sh : list nat) : Prop :=
  exists N L, 0 < N /\ 0 < L /\ (0 < num_features m)%Z /\
    match norm_class m with
    | BatchNorm1d =>
        sh = [N; Z.to_nat (num_features m); L] /\
        (training = true -> 1 < N * L)
    | LayerNorm => sh = [N; L; Z.to_nat (num_features m)]
    end.

Definition rnn_accepts (m : RnnModule R) (N L : nat) (x : Tensor R)
           (state : list (Tensor R)) : Prop :=
  (0 < input_size m)%Z /\ (0 < hidden_size m)%Z /\ 0 < N /\ 0 < L /\
  shape x = [N; L; Z.to_nat (input_size m)] /\
  Forall (fun t => shape t = [1; N; Z.to_nat (hidden_size m)]) state.

Record TorchShapes : Prop := {
  lstm_shapes : forall m x st N L,
    rnn_class m = LSTM ->
    rnn_accepts m N L x
      (match st with Some (h, c) => [h; c] | None => [] end) ->
    exists out h c,
      lstm_forward m x st = Ok (out, (h, c)) /\
      shape out = [N; L; Z.to_nat (hidden_size m)] /\
      shape h = [1; N; Z.to_nat (hidden_size m)] /\
      shape c = [1; N; Z.to_nat (hidden_size m)];
  gru_shapes : forall m x st N L,
    rnn_class m <> LSTM ->
    rnn_accepts m N L x (match st with Some h => [h] | None => [] end) ->
    exists out h,
      gru_forward m x st = Ok (out, h) /\
      shape out = [N; L; Z.to_nat (hidden_size m)] /\
      shape h = [1; N; Z.to_nat (hidden_size m)];
  norm_shapes : forall m training t,
    norm_accepts m training (shape t) ->
    exists t', norm_forward m training t = Ok t' /\ shape t' = shape t;
  dropout_shapes : forall d t g,
    exists t' g', dropout_forward d t g = Ok (t', g') /\ shape t' = shape t;
  linear_shapes : forall m t N L,
    (0 < in_features m)%Z -> (0 < out_features m)%Z -> 0 < N -> 0 < L ->
    shape t = [N; L; Z.to_nat (in_features m)] ->
    exists t', linear_forward m t = Ok t' /\
               shape t' = [N; L; Z.to_nat (out_features m)];
  attn_shapes : forall m q k v N L S,
    (0 < embed_dim m)%Z -> (0 < num_heads m)%Z ->
    (embed_dim m mod num_heads m = 0)%Z -> 0 < N -> 0 < L -> 0 < S ->
    shape q = [N; L; Z.to_nat (embed_dim m)] ->
    shape k = [N; S; Z.to_nat (embed_dim m)] ->
    shape v = [N; S; Z.to_nat (embed_dim m)] ->
    exists o w, attn_forward m q k v = Ok (o, w) /\
                shape o = [N; L; Z.to_nat (embed_dim m)] }.

Definition layer_ok (cls : RnnClass) (i h : Z) (m : RnnModule R) : Prop :=
  rnn_class m = cls /\ input_size m = i /\ hidden_size m = h.

Definition norms_ok (h : Z) (s : Recurrent R) : Prop :=
  match out_normalization s with
  | None => True
  | Some o =>
      num_features o = h /\
      exists hn, hidden_normalization s = Some hn /\
                 norm_class hn = norm_class o /\ num_features hn = h
  end.

Definition stack_ok (cls : RnnClass) (f h : Z) (s : Recurrent R) : Prop :=
  (0 < f)%Z /\ (0 < h)%Z /\
  layer_ok cls f h (basic_rnn s) /\
  Forall (layer_ok cls h h) (rnns s) /\
  norms_ok h s /\
  (dropouts s = [] \/ length (rnns s) < length (dropouts s)).

Definition state_shapes (N : nat) (h : Z) (s : Recurrent R) : Prop :=
  (exists t, hidden s = Some t /\ shape t = [1; N; Z.to_nat h]) /\
  (forall c, cell_state s = Some c -> shape c = [1; N; Z.to_nat h]).

Definition batch_ok (s : Recurrent R) (N : nat) : Prop :=
  0 < N /\
  (is_BatchNorm1d (out_normalization s) = true -> training s = true -> 1 < N).

(** The attributes of a stack a forward pass does not assign. *)
Definition modules (s : Recurrent R) : Recurrent R :=
  set_cell_state (set_hidden s None) None.

Definition cell_rule (cls : RnnClass) (s s' : Recurrent R) : Prop :=
  (cls = LSTM -> is_some (cell_state s') = true) /\
  (cls <> LSTM -> cell_state s' = cell_state s).

(** What one forward pass through a stack keeps: its modules and, by the
    class of its layers, the nullness of the cell state. *)
Definition stack_post (cls : RnnClass) (N L : nat) (h : Z)
           (s s' : Recurrent R) (out : Tensor R) : Prop :=
  shape out = [N; L; Z.to_nat h] /\
  state_shapes N h s' /\
  modules s' = modules s /\
  (cls = LSTM -> is_some (cell_state s') = true) /\
  (cls <> LSTM -> is_some (cell_state s') = is_some (cell_state s)).

Definition encoder_ok (cls : RnnClass) (f h : Z) (e : Encoder R) : Prop :=
  stack_ok cls f h (enc_stack e) /\ enc_n_features e = f /\
  (cls <> LSTM -> cell_state (enc_stack e) = None).

Definition linear_ok (i o : Z) (m : option (LinearModule R)) : Prop :=
  exists l, m = Some l /\ in_features l = i /\ out_features l = o.

Definition attn_ok (f h : Z) (d : Decoder R) : Prop :=
  out_features (regression d) = f /\
  match attn d with
  | None => in_features (regression d) = h
  | Some a =>
      embed_dim a = h /\ (0 < num_heads a)%Z /\
      (h mod num_heads a = 0)%Z /\
      linear_ok h h (linear_keys d) /\ linear_ok h h (linear_values d) /\
      in_features (regression d) = (h * 2)%Z
  end.

Definition decoder_ok (cls : RnnClass) (f h : Z) (d : Decoder R) : Prop :=
  stack_ok cls f h (dec_stack d) /\ attn_ok f h d.

Definition set_enc_stack (e : Encoder R) (s : Recurrent R) : Encoder R :=
  mkEncoder (enc_hidden_dim e) (enc_n_features e) (enc_dropout e) s.

(** [hidden_seq[:, -1:].permute(1, 0, 2)] on a sequence of [L] steps. *)
Definition last_hidden (hidden_seq : Tensor R) (N L H : nat) : Tensor R :=
  build [1; N; H]
    (reindex r0 1 0 2
       (build [N; 1; H]
          (fun idx =>
             match idx with
             | i :: j :: r => get r0 hidden_seq (i :: (L - 1 + j) :: r)
             | _ => r0
             end))).

Definition dec_with (d : Decoder R) (s : Recurrent R)
           (k v : option (Tensor R)) : Decoder R :=
  mkDecoder (dec_hidden_dim d) (dec_n_features d) (dec_dropout d) s k v
    (attn d) (linear_keys d) (linear_values d) (regression d).

Definition keys_ok (d : Decoder R) (N S : nat) (h : Z) : Prop :=
  match attn d with
  | Some _ =>
      exists k v, attn_keys d = Some k /\ attn_values d = Some v /\
                  shape k = [N; S; Z.to_nat h] /\
                  shape v = [N; S; Z.to_nat h]
  | None => True
  end.

Definition model_ok (cls : RnnClass) (f h L : Z) (m : EncoderDecoder R)
  : Prop :=
  encoder_ok cls f h (encoder m) /\ decoder_ok cls f h (decoder m) /\
  input_len m = L /\ target_len m = L.


Definition norm_is (c : NormClass) (h : Z) (m : option (NormModule R))
  : Prop :=
  exists n, m = Some n /\ norm_class n = c /\ num_features n = h.

(** What [__init__] leaves in the attributes of the stack. *)
Record init_post (f h : Z) (cls : RnnClass) (n : Z) (d : Q)
       (normalization : option string) (s : Recurrent R) : Prop := {
  init_basic : layer_ok cls f h (basic_rnn s);
  init_rnns : Forall (layer_ok cls h h) (rnns s);
  init_rnns_length :
    length (rnns s) = if (1 <? n)%Z then Z.to_nat (n - 1) else 0;
  init_dropouts_length :
    length (dropouts s) =
      if (1 <? n)%Z && Qpositive d then Z.to_nat n else 0;
  init_dropouts : Forall (fun m => p m = d) (dropouts s);
  init_norms :
    if normalization_is normalization "LayerNormalization"
    then norm_is LayerNorm h (out_normalization s) /\
         norm_is LayerNorm h (hidden_normalization s)
    else if normalization_is normalization "BatchNormalization"
    then norm_is BatchNorm1d h (out_normalization s) /\
         norm_is BatchNorm1d h (hidden_normalization s)
    else out_normalization s = None /\ hidden_normalization s = None;
  init_cell_norm :
    is_some (cell_normalization s) =
      (normalization_is normalization "LayerNormalization" ||
       normalization_is normalization "BatchNormalization") &&
      RnnClass_eqb cls LSTM;
  init_hidden_none : hidden s = None;
  init_cell_none : cell_state s = None;
  init_training : training s = true }.

(** The constructors of the layers accept positive sizes, and
    [nn.MultiheadAttention] a number of heads that divides the embedding
    dimension. *)
Record TorchConstructs : Prop := {
  rnn_init_ok : forall cls i h g,
    (0 < i)%Z -> (0 < h)%Z -> exists w g', rnn_init cls i h g = Ok (w, g');
  norm_init_ok : forall c n g,
    (0 < n)%Z -> exists w g', norm_init c n g = Ok (w, g');
  linear_init_ok : forall i o g,
    (0 < i)%Z -> (0 < o)%Z -> exists w g', linear_init i o g = Ok (w, g');
  attn_init_ok : forall e h g,
    (0 < e)%Z -> (0 < h)%Z -> (e mod h = 0)%Z ->
    exists w g', attn_init e h g = Ok (w, g') }.

(** A dropout probability [nn.Dropout] accepts, where one is built. *)
Definition dropout_valid (d : Q) : Prop :=
  Qle_bool 0 d && Qle_bool d 1 = true.

(** The attribute [self.dropout], and [module.train(mode)] on an encoder
    and on a decoder. *)
Definition set_enc_dropout (e : Encoder R) (d : Q) : Encoder R :=
  mkEncoder (enc_hidden_dim e) (enc_n_features e) d (enc_stack e).

Definition set_dec_dropout (dec : Decoder R) (d : Q) : Decoder R :=
  mkDecoder (dec_hidden_dim dec) (dec_n_features dec) d (dec_stack dec)
    (attn_keys dec) (attn_values dec) (attn dec) (linear_keys dec)
    (linear_values dec) (regression dec).

Definition Encoder_train (mode : bool) (e : Encoder R) : Encoder R :=
  set_enc_stack e (set_training (enc_stack e) mode).

Definition Decoder_train (mode : bool) (dec : Decoder R) : Decoder R :=
  set_dec_stack dec (set_training (dec_stack dec) mode).

(** The stack with the parameters of its [cell_normalization] module, if
    it has one, replaced by those of [m]. *)
Definition replace_cell_normalization (m : NormModule R) (s : Recurrent R)
  : Recurrent R :=
  match cell_normalization s with
  | Some _ => set_cell_normalization s (Some m)
  | None => s
  end.

Definition replace_cell_normalizations (me md : NormModule R)
           (m : EncoderDecoder R) : EncoderDecoder R :=
  mkEncoderDecoder
    (set_enc_stack (encoder m)
       (replace_cell_normalization me (enc_stack (encoder m))))
    (set_dec_stack (decoder m)
       (replace_cell_normalization md (dec_stack (decoder m))))
    (input_len m) (target_len m) (teacher_forcing_prob m) (outputs m).

(** A cell state as the module [on] normalizes it, between the two
    permutations when [on] is a batch normalization. *)
Definition normalized_cell (on : NormModule R) (training : bool)
           (c : Tensor R) : Res (Tensor R) :=
  match norm_class on with
  | BatchNorm1d =>
      res_bind (res_bind (permute r0 [1; 2; 0] c) (norm_forward on training))
        (permute r0 [2; 0; 1])
  | LayerNorm => norm_forward on training c
  end.

(** A result with the object it returns transformed. *)
Definition map_self {S S' A : Type} (F : S -> S') (r : Res ((S * A) * G))
  : Res ((S' * A) * G) :=
  match r with
  | Ok ((s, a), g) => Ok ((F s, a), g)
  | Raise e => Raise e
  end.

(** Two results that raise the same exception, or return values related
    by [P] and generator states related by [RG]. *)
Definition sim {A A' : Type} (RG : G -> G -> Prop) (P : A -> A' -> Prop)
           (r : Res (A * G)) (r' : Res (A' * G)) : Prop :=
  match r, r' with
  | Ok (a, g), Ok (a', g') => P a a' /\ RG g g'
  | Raise e, Raise e' => e = e'
  | _, _ => False
  end.

(** Two states of a stack, and of a model, with the same layers: all the
    attributes a forward pass does not assign, the training flag apart. *)
Definition same_stack_weights (s s' : Recurrent R) : Prop :=
  basic_rnn s' = basic_rnn s /\ rnns s' = rnns s /\
  out_normalization s' = out_normalization s /\
  hidden_normalization s' = hidden_normalization s /\
  cell_normalization s' = cell_normalization s /\
  dropouts s' = dropouts s.

Definition same_weights (m m' : EncoderDecoder R) : Prop :=
  same_stack_weights (enc_stack (encoder m)) (enc_stack (encoder m')) /\
  same_stack_weights (dec_stack (decoder m)) (dec_stack (decoder m')) /\
  enc_n_features (encoder m') = enc_n_features (encoder m) /\
  attn (decoder m') = attn (decoder m) /\
  linear_keys (decoder m') = linear_keys (decoder m) /\
  linear_values (decoder m') = linear_values (decoder m) /\
  regression (decoder m') = regression (decoder m) /\
  input_len m' = input_len m /\ target_len m' = target_len m.

(** Two states of a stack of layers of class [cls], without normalization
    and dropout, that a forward pass cannot tell apart: the same layers
    and hidden state, and the same cell state if the layers read it. *)
Definition same_run (cls : RnnClass) (s s' : Recurrent R) : Prop :=
  same_stack_weights s s' /\
  Forall (fun m => rnn_class m = cls) (basic_rnn s :: rnns s) /\
  out_normalization s = None /\ dropouts s = [] /\
  hidden s' = hidden s /\
  (cls = LSTM -> cell_state s' = cell_state s).

(** A stack of layers of class [cls] without normalization and dropout. *)
Definition plain_stack (cls : RnnClass) (s : Recurrent R) : Prop :=
  Forall (fun m => rnn_class m = cls) (basic_rnn s :: rnns s) /\
  out_normalization s = None /\ dropouts s = [].

Definition plain_model (cls : RnnClass) (m : EncoderDecoder R) : Prop :=
  plain_stack cls (enc_stack (encoder m)) /\
  plain_stack cls (dec_stack (decoder m)) /\
  attn (decoder m) = None.

Definition any_generator (g g' : G) : Prop := True.

(** The Python integers PyTorch reads as a size: those of 64 bits. *)
Definition int64 (z : Z) : Prop := (- 2 ^ 63 <= z < 2 ^ 63)%Z.

(** The model without what [forward] assigns: the attributes [hidden] and
    [cell_state] of the two stacks, [attn_keys] and [attn_values] of the
    decoder, and [outputs]. *)
Definition erase_state (m : EncoderDecoder R) : EncoderDecoder R :=
  mkEncoderDecoder
    (set_enc_stack (encoder m) (modules (enc_stack (encoder m))))
    (dec_with (decoder m) (modules (dec_stack (decoder m))) None None)
    (input_len m) (target_len m) (teacher_forcing_prob m) None.

(** The model without the attributes [forward] assigns before it reads
    them.  The cell state of the encoder is assigned by an LSTM first
    layer only, and the keys and values of the attention only when the
    decoder has an attention module. *)
Definition forget (m : EncoderDecoder R) : EncoderDecoder R :=
  let se := enc_stack (encoder m) in
  let d := decoder m in
  mkEncoderDecoder
    (set_enc_stack (encoder m)
       (set_hidden
          (if is_LSTM (basic_rnn se) then set_cell_state se None else se)
          None))
    (dec_with d (modules (dec_stack d))
       (if is_some (attn d) then None else attn_keys d)
       (if is_some (attn d) then None else attn_values d))
    (input_len m) (target_len m) (teacher_forcing_prob m) None.

(** A result moved to another state of the generator, and the
    computations that neither read the generator nor advance it. *)
Definition regen {A} (g' : G) (r : Res (A * G)) : Res (A * G) :=
  match r with
  | Ok (a, _) => Ok (a, g')
  | Raise e => Raise e
  end.

Definition ignores_generator {A} (m : M G A) : Prop :=
  forall g g', m g' = regen g' (m g).

(** A stack in evaluation mode or without dropout modules. *)
Definition no_dropout (s : Recurrent R) : Prop :=
  training s = false \/ dropouts s = [].

End Invariants.

Arguments TorchShapes {R G} torch.
Arguments TorchConstructs {R G} torch.

(** ** A small instance of the interface

    Floats are integers, the generator is a counter, and every layer
    checks the shapes of its arguments as PyTorch does and returns
    zero-filled tensors of the shapes PyTorch returns (a normalization
    layer and dropout return their input).  It is the instance on which the
    theorems are run on concrete inputs. *)
Module Toy.

Fixpoint shape_eqb (a b : list nat) : bool :=
  match a, b with
  | [], [] => true
  | x :: a', y :: b' => (x =? y) && shape_eqb a' b'
  | _, _ => false
  end.

Definition positive_sizes (i h : Z) : bool := ((0 <? i) && (0 <? h))%Z.

Definition init (ok : bool) (e : exn) : M nat (list (Tensor Z)) :=
  if ok then fun g => Ok ([], S g) else raise e.

Definition state_ok (N : nat) (h : Z) (st : list (Tensor Z)) : bool :=
  forallb (fun t => shape_eqb (shape t) [1; N; Z.to_nat h]) st.

Definition rnn_check (m : RnnModule Z) (x : Tensor Z)
           (st : list (Tensor Z)) : option (nat * nat) :=
  match shape x with
  | [N; L; i] =>
      if positive_sizes (input_size m) (hidden_size m) && (0 <? N)
         && (0 <? L) && (i =? Z.to_nat (input_size m))
         && state_ok N (hidden_size m) st
      then Some (N, L) else None
  | _ => None
  end.

Definition lstm (m : RnnModule Z) (x : Tensor Z)
           (st : option (Tensor Z * Tensor Z))
  : Res (Tensor Z * (Tensor Z * Tensor Z)) :=
  match rnn_check m x (match st with Some (h, c) => [h; c] | None => [] end)
  with
  | Some (N, L) =>
      let H := Z.to_nat (hidden_size m) in
      Ok (zeros 0%Z [N; L; H], (zeros 0%Z [1; N; H], zeros 0%Z [1; N; H]))
  | None => Raise RuntimeError
  end.

Definition gru (m : RnnModule Z) (x : Tensor Z) (st : option (Tensor Z))
  : Res (Tensor Z * Tensor Z) :=
  match rnn_check m x (match st with Some h => [h] | None => [] end) with
  | Some (N, L) =>
      let H := Z.to_nat (hidden_size m) in
      Ok (zeros 0%Z [N; L; H], zeros 0%Z [1; N; H])
  | None => Raise RuntimeError
  end.

(** [nn.BatchNorm1d] in training mode refuses a batch with one value per
    channel. *)
Definition norm (m : NormModule Z) (training : bool) (t : Tensor Z)
  : Res (Tensor Z) :=
  let C := Z.to_nat (num_features m) in
  match norm_class m, shape t with
  | BatchNorm1d, [N; C'; L] =>
      if negb (C' =? C) then Raise RuntimeError
      else if training && (N * L <=? 1) then Raise ValueError
      else Ok t
  | LayerNorm, [N; L; C'] =>
      if C' =? C then Ok t else Raise RuntimeError
  | _, _ => Raise RuntimeError
  end.

Definition dropout (d : DropoutModule) (t : Tensor Z) : M nat (Tensor Z) :=
  fun g => Ok (t, S g).

Definition linear (m : LinearModule Z) (t : Tensor Z) : Res (Tensor Z) :=
  match shape t with
  | [N; L; i] =>
      if i =? Z.to_nat (in_features m)
      then Ok (zeros 0%Z [N; L; Z.to_nat (out_features m)])
      else Raise RuntimeError
  | _ => Raise RuntimeError
  end.

Definition attention (m : AttnModule Z) (q k v : Tensor Z)
  : Res (Tensor Z * Tensor Z) :=
  let E := Z.to_nat (embed_dim m) in
  match shape q, shape k with
  | [N; L; Eq'], [Nk; Ls; Ek] =>
      if (Eq' =? E) && (Ek =? E) && (Nk =? N)
         && shape_eqb (shape v) (shape k)
      then Ok (zeros 0%Z [N; L; E], zeros 0%Z [N; L; Ls])
      else Raise RuntimeError
  | _, _ => Raise RuntimeError
  end.

#[export] Instance torch : Torch Z nat := {|
  r0 := 0%Z;
  rnn_init := fun _ i h => init (positive_sizes i h) ValueError;
  norm_init := fun _ n => init (0 <? n)%Z ValueError;
  linear_init := fun i o => init (positive_sizes i o) ValueError;
  attn_init := fun e h =>
    init (positive_sizes e h && (e mod h =? 0)%Z)
      (AssertionError "embed_dim must be divisible by num_heads");
  lstm_forward := lstm;
  gru_forward := gru;
  norm_forward := norm;
  dropout_forward := dropout;
  linear_forward := linear;
  attn_forward := attention |}.

(** An input of shape [(2, 6, 1)]: two series of six steps of one
    feature. *)
Definition X : Tensor Z :=
  mkTensor [2; 6; 1] [1; 2; 3; 4; 5; 6; 7; 8; 9; 10; 11; 12]%Z.

(** A hidden sequence of shape [(2, 3, 2)]. *)
Definition hidden_seq : Tensor Z :=
  mkTensor [2; 3; 2] [1; 2; 3; 4; 5; 6; 7; 8; 9; 10; 11; 12]%Z.

(** The model [create_encoder_decoder_model(1, 2, nn.GRU, 1, 3, 0)]
    returns: one GRU layer, no normalization, dropout or attention. *)
Definition gru_stack : Recurrent Z :=
  mkRecurrent true None None (mkRnn GRU 1 2 []) [] None None None [].

Definition gru_encoder : Encoder Z := mkEncoder 2 1 0%Q gru_stack.

Definition gru_decoder : Decoder Z :=
  mkDecoder 2 1 0%Q gru_stack None None None None None (mkLinear 2 1 []).

Definition gru_model : EncoderDecoder Z :=
  mkEncoderDecoder gru_encoder gru_decoder 3 3 0%Q None.

(** A GRU stack with batch normalization in the middle of a forward pass
    of a decoder: a hidden state and a cell state of shape [(1, 2, 2)]. *)
Definition cell : Tensor Z := mkTensor [1; 2; 2] [1; 2; 3; 4]%Z.

Definition bn_stack : Recurrent Z :=
  mkRecurrent true (Some (zeros 0%Z [1; 2; 2])) (Some cell)
    (mkRnn GRU 1 2 []) []
    (Some (mkNorm BatchNorm1d 2 [])) (Some (mkNorm BatchNorm1d 2 [])) None
    [].


(** Inputs of other shapes: two steps only, four steps, two axes only, an
    empty hidden sequence, and the prediction of one step. *)
Definition short_X : Tensor Z := mkTensor [2; 2; 1] [1; 2; 3; 4]%Z.

Definition long_X : Tensor Z :=
  mkTensor [2; 4; 1] [1; 2; 3; 4; 5; 6; 7; 8]%Z.

Definition flat_X : Tensor Z := mkTensor [2; 3] [1; 2; 3; 4; 5; 6]%Z.

Definition empty_seq : Tensor Z := mkTensor [2; 0; 2] [].

Definition step : Tensor Z := mkTensor [2; 1; 1] [7; 8]%Z.

(** [gru_model] after [init_outputs(2)], with a buffer that is not zero. *)
Definition buffer : Tensor Z := mkTensor [2; 3; 1] [1; 2; 3; 4; 5; 6]%Z.

Definition buffer_model : EncoderDecoder Z :=
  mkEncoderDecoder gru_encoder gru_decoder 3 3 0%Q (Some buffer).

End Toy.

(** * Properties *)

Arguments permute : simpl never.
Arguments build : simpl never.
Arguments get : simpl never.
Arguments getitem_axis1 : simpl never.
Arguments cat_last : simpl never.
Arguments zeros : simpl never.

Section TensorFacts.

Variable R : Type.
Variable r0 : R.

(** *** Facts about the row-major layout *)

Lemma tabulate_length sh (f : list nat -> R) : length (tabulate sh f) = numel sh.
Proof.
revert f; induction sh as [|d sh IH]; intros f; simpl; [reflexivity|].
generalize 0 as s.
induction d as [|d IHd]; intros s; simpl; [reflexivity|].
rewrite length_app, IH, IHd. reflexivity.
Qed.

Lemma build_wf sh (f : list nat -> R) : wf (build sh f).
Proof. apply tabulate_length. Qed.

Lemma zeros_wf sh : wf (zeros r0 sh).
Proof. unfold wf, zeros; simpl. apply repeat_length. Qed.

Lemma tabulate_ext sh (f g : list nat -> R) :
(forall idx, valid_index idx sh -> f idx = g idx) ->
tabulate sh f = tabulate sh g.
Proof.
revert f g; induction sh as [|d sh IH]; intros f g H; simpl.
- rewrite (H []); [reflexivity | constructor].
- assert (E : forall l, (forall i, In i l -> i < d) ->
            flat_map (fun i => tabulate sh (fun idx => f (i :: idx))) l =
            flat_map (fun i => tabulate sh (fun idx => g (i :: idx))) l).
  { induction l as [|i l IHl]; intros Hl; simpl; [reflexivity|].
    rewrite IHl by (intros; apply Hl; now right).
    f_equal. apply IH. intros idx Hidx. apply H.
    constructor; [apply Hl; now left | exact Hidx]. }
  apply E. intros i Hi. apply in_seq in Hi. lia.
Qed.

Lemma offset_lt idx sh : valid_index idx sh -> offset sh idx < numel sh.
Proof.
unfold valid_index. intros H. revert H.
revert idx; induction sh as [|d sh IH]; intros idx H; inversion H; subst.
- simpl. lia.
- simpl. specialize (IH _ H4). nia.
Qed.

(** The [i]-th chunk of a concatenation of chunks of equal length. *)
Lemma nth_flat_map_chunks (g : nat -> list R) (n : nat) :
(forall k, length (g k) = n) ->
forall d s i o, i < d -> o < n ->
  nth (i * n + o) (flat_map g (seq s d)) r0 = nth o (g (s + i)) r0.
Proof.
intros Hg. induction d as [|d IH]; intros s i o Hi Ho; [lia|].
simpl. destruct i as [|i].
- rewrite app_nth1 by (rewrite Hg; lia).
  simpl. now rewrite Nat.add_0_r.
- rewrite app_nth2 by (rewrite Hg; simpl; lia).
  rewrite Hg. replace (S i * n + o - n) with (i * n + o) by (simpl; lia).
  rewrite IH by lia. f_equal. f_equal. lia.
Qed.

Lemma get_build sh (f : list nat -> R) idx :
valid_index idx sh -> get r0 (build sh f) idx = f idx.
Proof.
unfold get, build; simpl. revert f idx.
induction sh as [|d sh IH]; intros f idx H; inversion H; subst.
- reflexivity.
- simpl.
  rewrite (@nth_flat_map_chunks
             (fun i => tabulate sh (fun idx => f (i :: idx)))
             (numel sh)).
  + simpl. now rewrite IH.
  + intros k. apply tabulate_length.
  + assumption.
  + now apply offset_lt.
Qed.

Lemma flat_map_chunks (l : list R) (n d : nat) :
length l = d * n ->
flat_map (fun i => firstn n (skipn (i * n) l)) (seq 0 d) = l.
Proof.
intros Hl.
assert (E : forall d s l', length l' = d * n ->
          l' = skipn (s * n) l ->
          flat_map (fun i => firstn n (skipn (i * n) l)) (seq s d) = l').
{ clear d Hl. induction d as [|d IH]; intros s l' Hlen Hl'; simpl.
  - destruct l'; [reflexivity | discriminate].
  - rewrite (IH (S s) (skipn n l')).
    + rewrite <- Hl'. apply firstn_skipn.
    + rewrite length_skipn. simpl in Hlen. lia.
    + rewrite Hl', skipn_skipn. reflexivity. }
apply E; [assumption | reflexivity].
Qed.

Lemma tabulate_nth sh : forall l,
length l = numel sh ->
tabulate sh (fun idx => nth (offset sh idx) l r0) = l.
Proof.
induction sh as [|d sh IH]; intros l Hl; simpl in *.
- destruct l as [|x [|y l]]; try discriminate. reflexivity.
- transitivity (flat_map (fun i => firstn (numel sh)
                                     (skipn (i * numel sh) l)) (seq 0 d));
    [| now apply flat_map_chunks].
  rewrite !flat_map_concat_map. f_equal.
  apply map_ext_in. intros i Hi. apply in_seq in Hi.
  assert (Hc : length (firstn (numel sh) (skipn (i * numel sh) l))
               = numel sh).
  { rewrite length_firstn, length_skipn. nia. }
  rewrite <- (IH _ Hc).
  apply tabulate_ext. intros idx Hidx.
  apply offset_lt in Hidx.
  rewrite nth_firstn.
  destruct (Nat.ltb_spec (offset sh idx) (numel sh)); [|lia].
  rewrite nth_skipn. reflexivity.
Qed.

Lemma build_get (t : Tensor R) : wf t -> build (shape t) (get r0 t) = t.
Proof.
intros H. destruct t as [sh l]. unfold build, get; simpl in *.
f_equal. now apply tabulate_nth.
Qed.

(** *** Permutations of the axes of a rank-3 tensor *)

Lemma permute_021 (t : Tensor R) a b c :
  shape t = [a; b; c] ->
  permute r0 [0; 2; 1] t = Ok (build [a; c; b] (reindex r0 0 2 1 t)).
Proof. intros H. unfold permute. rewrite H. reflexivity. Qed.

Lemma permute_120 (t : Tensor R) a b c :
  shape t = [a; b; c] ->
  permute r0 [1; 2; 0] t = Ok (build [b; c; a] (reindex r0 2 0 1 t)).
Proof. intros H. unfold permute. rewrite H. reflexivity. Qed.

Lemma permute_201 (t : Tensor R) a b c :
  shape t = [a; b; c] ->
  permute r0 [2; 0; 1] t = Ok (build [c; a; b] (reindex r0 1 2 0 t)).
Proof. intros H. unfold permute. rewrite H. reflexivity. Qed.

Lemma permute_102 (t : Tensor R) a b c :
  shape t = [a; b; c] ->
  permute r0 [1; 0; 2] t = Ok (build [b; a; c] (reindex r0 1 0 2 t)).
Proof. intros H. unfold permute. rewrite H. reflexivity. Qed.

Lemma valid_index3 idx a b c :
  valid_index idx [a; b; c] ->
  exists i j k, idx = [i; j; k] /\ i < a /\ j < b /\ k < c.
Proof.
  intros H. inversion H as [|i ? l1 ? Hi H1]; subst.
  inversion H1 as [|j ? l2 ? Hj H2]; subst.
  inversion H2 as [|k ? l3 ? Hk H3]; subst.
  inversion H3; subst. now exists i, j, k.
Qed.

Lemma valid_index3_intro i j k a b c :
  i < a -> j < b -> k < c -> valid_index [i; j; k] [a; b; c].
Proof. intros; repeat constructor; assumption. Qed.

Lemma build_ext sh (f g : list nat -> R) :
  (forall idx, valid_index idx sh -> f idx = g idx) -> build sh f = build sh g.
Proof. intros H. unfold build. f_equal. now apply tabulate_ext. Qed.

(** A rank-3 tensor rebuilt from a re-indexing of a re-indexing that
    composes to the identity is the tensor itself. *)
Lemma build_reindex_inverse (t : Tensor R) a b c a' b' c' p q r p' q' r' :
  wf t -> shape t = [a; b; c] ->
  (forall i j k, i < a -> j < b -> k < c ->
     valid_index [nth p' [i; j; k] 0; nth q' [i; j; k] 0; nth r' [i; j; k] 0]
       [a'; b'; c'] /\
     (let idx' := [nth p' [i; j; k] 0; nth q' [i; j; k] 0;
                   nth r' [i; j; k] 0] in
      [nth p idx' 0; nth q idx' 0; nth r idx' 0] = [i; j; k])) ->
  build [a; b; c]
    (reindex r0 p' q' r' (build [a'; b'; c'] (reindex r0 p q r t))) = t.
Proof.
  intros Hwf Hsh Hinv.
  rewrite <- (build_get t Hwf) at 2. rewrite Hsh.
  apply build_ext. intros idx Hidx.
  apply valid_index3 in Hidx. destruct Hidx as (i & j & k & -> & Hi & Hj & Hk).
  destruct (Hinv i j k Hi Hj Hk) as [Hv He].
  unfold reindex at 1.
  rewrite get_build by exact Hv.
  unfold reindex. cbv zeta in He. rewrite He. reflexivity.
Qed.

Lemma permute_021_involutive (t : Tensor R) a b c :
  wf t -> shape t = [a; b; c] ->
  res_bind (permute r0 [0; 2; 1] t) (permute r0 [0; 2; 1]) = Ok t.
Proof.
  intros Hwf Hsh. rewrite (permute_021 t a b c Hsh). simpl.
  rewrite (permute_021 _ a c b) by reflexivity.
  f_equal. apply build_reindex_inverse; try assumption.
  intros i j k Hi Hj Hk. simpl. split; [|reflexivity].
  now apply valid_index3_intro.
Qed.

Lemma permute_120_201 (t : Tensor R) a b c :
  wf t -> shape t = [a; b; c] ->
  res_bind (permute r0 [1; 2; 0] t) (permute r0 [2; 0; 1]) = Ok t.
Proof.
  intros Hwf Hsh. rewrite (permute_120 t a b c Hsh). simpl.
  rewrite (permute_201 _ b c a) by reflexivity.
  f_equal. apply build_reindex_inverse; try assumption.
  intros i j k Hi Hj Hk. simpl. split; [|reflexivity].
  now apply valid_index3_intro.
Qed.

(** *** Slices of axis 1 *)

Lemma clamp_bound_nonneg len (n : Z) :
  (0 <= n)%Z -> clamp_bound len n = Nat.min (Z.to_nat n) len.
Proof.
  intros H. unfold clamp_bound.
  destruct (Z.ltb_spec n 0); lia.
Qed.

Lemma clamp_bound_minus1 len : clamp_bound len (-1) = len - 1.
Proof.
  unfold clamp_bound. cbv zeta.
  change (-1 <? 0)%Z with true. cbv iota. lia.
Qed.

Lemma getitem_prefix (X : Tensor R) B T F (n : Z) :
  shape X = [B; T; F] -> (0 <= n)%Z ->
  exists s, getitem_axis1 r0 3 None (Some n) X = Ok s /\
            shape s = [B; Nat.min (Z.to_nat n) T; F].
Proof.
  intros H Hn. unfold getitem_axis1. rewrite H. simpl.
  rewrite clamp_bound_nonneg by assumption.
  eexists; split; [reflexivity|]. simpl. now rewrite Nat.sub_0_r.
Qed.

Lemma getitem_suffix (X : Tensor R) B T F (n : Z) :
  shape X = [B; T; F] ->
  exists s, getitem_axis1 r0 3 (Some n) None X = Ok s.
Proof.
  intros H. unfold getitem_axis1. rewrite H. simpl.
  eexists; reflexivity.
Qed.

Lemma getitem_last (hs : Tensor R) N L H :
  shape hs = [N; L; H] -> 0 < L ->
  getitem_axis1 r0 2 (Some (-1)%Z) None hs =
  Ok (build [N; 1; H]
        (fun idx => match idx with
                    | i :: j :: r => get r0 hs (i :: (L - 1 + j) :: r)
                    | _ => r0
                    end)).
Proof.
  intros Hs HL. unfold getitem_axis1. rewrite Hs.
  cbn [length Nat.leb slice_indices].
  rewrite clamp_bound_minus1.
  replace (L - (L - 1)) with 1 by lia. reflexivity.
Qed.

End TensorFacts.

Section Runs.

Context {R G : Type} {torch : Torch R G}.

(** ** The monad *)

Lemma bind_ok {A B} (m : M G A) (k : A -> M G B) g a g' :
  m g = Ok (a, g') -> bind m k g = k a g'.
Proof. intros E. unfold bind. now rewrite E. Qed.

Lemma bind_lift_ok {A B} (r : Res A) (k : A -> M G B) g a :
  r = Ok a -> bind (lift r) k g = k a g.
Proof. intros ->. reflexivity. Qed.

Lemma bind_ret {A B} (a : A) (k : A -> M G B) g :
  bind (ret a) k g = k a g.
Proof. reflexivity. Qed.

Lemma bind_inv {A B} (m : M G A) (k : A -> M G B) g r :
  bind m k g = Ok r ->
  exists a g', m g = Ok (a, g') /\ k a g' = Ok r.
Proof.
  unfold bind. destruct (m g) as [[a g']|e]; [|discriminate].
  intros E. now exists a, g'.
Qed.

Lemma lift_inv {A} (r : Res A) (g : G) a g' :
  lift r g = Ok (a, g') -> r = Ok a /\ g' = g.
Proof.
  unfold lift. destruct r; [|discriminate].
  intros E. injection E as -> ->. now split.
Qed.

(** ** Invariants of a recurrent stack *)

Hypothesis shapes : TorchShapes torch.
Hypothesis constructs : TorchConstructs torch.

Lemma shape_build sh (f : list nat -> R) : shape (build sh f) = sh.
Proof. reflexivity. Qed.

Lemma accepts_batch (m : NormModule R) b N L h :
  norm_class m = BatchNorm1d -> num_features m = h -> (0 < h)%Z ->
  0 < N -> 0 < L -> (b = true -> 1 < N * L) ->
  norm_accepts m b [N; Z.to_nat h; L].
Proof.
  intros Hc Hf Hh HN HL Hb. exists N, L. rewrite Hc, Hf. auto 10.
Qed.

Lemma accepts_layer (m : NormModule R) b N L h :
  norm_class m = LayerNorm -> num_features m = h -> (0 < h)%Z ->
  0 < N -> 0 < L ->
  norm_accepts m b [N; L; Z.to_nat h].
Proof.
  intros Hc Hf Hh HN HL. exists N, L. rewrite Hc, Hf. auto 10.
Qed.

(** Symbolic execution of the model: one step per call of a layer. *)
Ltac simp :=
  unfold bind, lift, ret;
  cbn [out_normalization hidden cell_state is_BatchNorm1d
       norm_class set_hidden set_cell_state training basic_rnn rnns
       hidden_normalization cell_normalization dropouts method_permute
       call_norm is_some fst snd].

Ltac shape_of x k :=
  lazymatch x with
  | build ?sh _ => k sh (shape_build sh)
  | _ => match goal with H : shape x = ?sh |- _ => k sh H end
  end.

Ltac permute_step :=
  match goal with
  | |- context [permute _ [0; 2; 1] ?x] =>
      shape_of x ltac:(fun sh H =>
        lazymatch sh with
        | [?a; ?b; ?c] => rewrite (permute_021 _ _ x a b c)
        end)
  | |- context [permute _ [1; 2; 0] ?x] =>
      shape_of x ltac:(fun sh H =>
        lazymatch sh with
        | [?a; ?b; ?c] => rewrite (permute_120 _ _ x a b c)
        end)
  | |- context [permute _ [2; 0; 1] ?x] =>
      shape_of x ltac:(fun sh H =>
        lazymatch sh with
        | [?a; ?b; ?c] => rewrite (permute_201 _ _ x a b c)
        end)
  | |- context [permute _ [1; 0; 2] ?x] =>
      shape_of x ltac:(fun sh H =>
        lazymatch sh with
        | [?a; ?b; ?c] => rewrite (permute_102 _ _ x a b c)
        end)
  end; [ | first [ assumption | reflexivity ] ].

Ltac solve_accepts :=
  match goal with
  | |- norm_accepts _ _ (shape ?x) =>
      shape_of x ltac:(fun sh H => rewrite H);
      first [ apply accepts_batch | apply accepts_layer ];
      auto; try lia;
      try (let Htr := fresh in
           intros Htr;
           repeat match goal with
                  | Hb : _ = true -> _ |- _ => specialize (Hb Htr)
                  end; nia)
  end.

Ltac norm_step shapes :=
  match goal with
  | |- context [norm_forward ?m ?b ?x] =>
      let nt := fresh "nt" in
      let En := fresh "En" in
      let Sn := fresh "Sn" in
      destruct (norm_shapes shapes m b x) as (nt & En & Sn);
      [ solve_accepts
      | rewrite En;
        shape_of x ltac:(fun sh H => rewrite H in Sn) ]
  end.

Ltac solve_post :=
  try unfold state_shapes; try unfold modules; simp;
  repeat match goal with
         | |- _ /\ _ => split
         | |- exists t, Some _ = Some t /\ _ => eexists; split; [reflexivity|]
         | |- forall c, Some _ = Some c -> _ =>
             let c := fresh in let E := fresh in
             intros c E; injection E as <-
         | |- forall c, None = Some c -> _ => intros ? ?; discriminate
         | |- shape (build _ _) = _ => apply shape_build
         | |- _ => first [ assumption | reflexivity ]
         end.

Lemma apply_normalization_run (s : Recurrent R) (t : Tensor R) N L h g :
  (0 < h)%Z -> 0 < L ->
  norms_ok h s -> is_some (out_normalization s) = true ->
  state_shapes N h s -> batch_ok s N ->
  shape t = [N; L; Z.to_nat h] ->
  exists s' out,
    apply_normalization s t g = Ok ((s', out), g) /\
    shape out = [N; L; Z.to_nat h] /\
    state_shapes N h s' /\
    modules s' = modules s /\
    is_some (cell_state s') = is_some (cell_state s).
Proof.
  intros Hh HL Hn Ho [(hd & Ehd & Shd) Hc] [HN Hb] St.
  unfold norms_ok in Hn.
  destruct s as [tr hid cs br rs on hn cn ds]; simpl in *. subst hid.
  destruct on as [[ocl ofe ow]|]; [|discriminate].
  destruct Hn as (Eo & [hcl hfe hw] & -> & Ecl & Ehn). simpl in *.
  subst hcl ofe hfe.
  assert (Sc : forall c, cs = Some c -> shape c = [1; N; Z.to_nat h])
    by exact Hc.
  unfold apply_normalization, modules, state_shapes.
  destruct ocl; [specialize (Hb eq_refl)|];
    (destruct cs as [c|]; [specialize (Hc c eq_refl)|]);
    destruct cn as [cn|]; simp;
    repeat first [ permute_step; simp | norm_step shapes; simp ];
    (eexists; eexists; split; [reflexivity|]); simp; solve_post.
Qed.

Lemma modules_fields (s s' : Recurrent R) :
  modules s' = modules s ->
  training s' = training s /\ basic_rnn s' = basic_rnn s /\
  rnns s' = rnns s /\ out_normalization s' = out_normalization s /\
  hidden_normalization s' = hidden_normalization s /\
  cell_normalization s' = cell_normalization s /\
  dropouts s' = dropouts s.
Proof.
  destruct s, s'. unfold modules. simpl. intros E.
  injection E as -> -> -> -> -> -> ->. repeat split.
Qed.

Lemma modules_trans (s1 s2 s3 : Recurrent R) :
  modules s2 = modules s1 -> modules s3 = modules s2 ->
  modules s3 = modules s1.
Proof. congruence. Qed.

Ltac dropout_step shapes :=
  match goal with
  | |- context [dropout_forward ?d ?x ?g] =>
      let dt := fresh "dt" in
      let dg := fresh "dg" in
      let Ed := fresh "Ed" in
      let Sd := fresh "Sd" in
      destruct (dropout_shapes shapes d x g) as (dt & dg & Ed & Sd);
      rewrite Ed
  end.

Lemma apply_dropout_run (s : Recurrent R) (t : Tensor R) i N h sh g :
  i < length (dropouts s) ->
  state_shapes N h s -> shape t = sh ->
  exists s' out g',
    apply_dropout s i t g = Ok ((s', out), g') /\
    shape out = sh /\
    state_shapes N h s' /\
    modules s' = modules s /\
    is_some (cell_state s') = is_some (cell_state s).
Proof.
  intros Hi [(hd & Ehd & Shd) Hc] St.
  destruct s as [tr hid cs br rs on hn cn ds]; simpl in *. subst hid.
  unfold apply_dropout, dropouts_getitem, modules, state_shapes. simp.
  destruct (nth_error ds i) as [d|] eqn:Ed0;
    [|apply nth_error_None in Ed0; lia].
  destruct cs as [c|]; [specialize (Hc c eq_refl)|]; simp;
    repeat (first [rewrite Ed0 | dropout_step shapes]; simp);
    (eexists; eexists; eexists; split; [reflexivity|]); simp; solve_post;
    congruence.
Qed.

Lemma after_layer_run (s : Recurrent R) (t : Tensor R) i N L h g :
  (0 < h)%Z -> 0 < L -> norms_ok h s -> batch_ok s N ->
  (dropouts s = [] \/ i < length (dropouts s)) ->
  state_shapes N h s -> shape t = [N; L; Z.to_nat h] ->
  exists s' out g',
    after_layer s i t g = Ok ((s', out), g') /\
    shape out = [N; L; Z.to_nat h] /\
    state_shapes N h s' /\
    modules s' = modules s /\
    is_some (cell_state s') = is_some (cell_state s).
Proof.
  intros Hh HL Hn Hb Hd Hs St. unfold after_layer.
  assert (E1 : exists s1 t1,
             (if is_some (out_normalization s)
              then apply_normalization s t
              else ret (s, t)) g = Ok ((s1, t1), g) /\
             shape t1 = [N; L; Z.to_nat h] /\ state_shapes N h s1 /\
             modules s1 = modules s /\
             is_some (cell_state s1) = is_some (cell_state s)).
  { destruct (is_some (out_normalization s)) eqn:Eo.
    - now apply apply_normalization_run.
    - exists s, t. repeat split; try assumption; apply Hs. }
  destruct E1 as (s1 & t1 & E1 & St1 & Hs1 & Hm1 & Hc1).
  rewrite (bind_ok _ _ _ _ _ E1). cbn beta iota.
  destruct (modules_fields _ _ Hm1) as (Htr & _ & _ & _ & _ & _ & Hds).
  destruct ((0 <? length (dropouts s1)) && training s1) eqn:Ed.
  - apply andb_prop in Ed. destruct Ed as [Ed _].
    apply Nat.ltb_lt in Ed.
    destruct (apply_dropout_run s1 t1 i N h [N; L; Z.to_nat h] g) as
      (s2 & t2 & g2 & E2 & St2 & Hs2 & Hm2 & Hc2); try assumption.
    { rewrite Hds in *. destruct Hd as [Hd|Hd]; [|exact Hd].
      rewrite Hd in Ed. simpl in Ed. lia. }
    exists s2, t2, g2. repeat split; try assumption; try apply Hs2;
      congruence.
  - exists s1, t1, g. repeat split; try assumption; apply Hs1.
Qed.

Lemma rnn_accepts_intro (m : RnnModule R) cls i h N L x st :
  layer_ok cls i h m -> (0 < i)%Z -> (0 < h)%Z -> 0 < N -> 0 < L ->
  shape x = [N; L; Z.to_nat i] ->
  Forall (fun t => shape t = [1; N; Z.to_nat h]) st ->
  rnn_accepts m N L x st.
Proof.
  intros (_ & E1 & E2) Hi Hh HN HL Hx Hst. unfold rnn_accepts.
  rewrite E1, E2. auto 10.
Qed.

Lemma is_LSTM_class (m : RnnModule R) cls i h :
  layer_ok cls i h m -> is_LSTM m = RnnClass_eqb cls LSTM.
Proof. intros (E & _). unfold is_LSTM. now rewrite E. Qed.

Lemma call_rnn_run (m : RnnModule R) (s : Recurrent R) (x : Tensor R)
      cls i h N L g :
  layer_ok cls i h m -> (0 < i)%Z -> (0 < h)%Z -> 0 < N -> 0 < L ->
  state_shapes N h s ->
  (cls = LSTM -> is_some (cell_state s) = true) ->
  shape x = [N; L; Z.to_nat i] ->
  exists s' out,
    call_rnn m s x g = Ok ((s', out), g) /\
    shape out = [N; L; Z.to_nat h] /\
    state_shapes N h s' /\
    modules s' = modules s /\
    cell_rule cls s s'.
Proof.
  intros Hm Hi Hh HN HL [(hd & Ehd & Shd) Hc] Hcell Sx.
  unfold call_rnn, cell_rule. rewrite (is_LSTM_class _ _ _ _ Hm).
  destruct s as [tr hid cs br rs on hn cn ds]; simpl in *. subst hid.
  assert (Hsz : hidden_size m = h) by apply Hm.
  destruct cls; cbn [RnnClass_eqb].
  - (* LSTM *)
    destruct cs as [c|]; [|specialize (Hcell eq_refl); discriminate].
    destruct (lstm_shapes shapes m x (Some (hd, c)) N L)
      as (out & h' & c' & E & So & Sh' & Sc'); [apply Hm| |].
    { eapply rnn_accepts_intro; eauto. }
    unfold call_lstm. simp. rewrite E, Hsz in *.
    eexists; eexists; split; [reflexivity|]. simp. solve_post.
    all: intros; congruence.
  - destruct (gru_shapes shapes m x (Some hd) N L)
      as (out & h' & E & So & Sh').
    { destruct Hm as (-> & _); discriminate. }
    { eapply rnn_accepts_intro; eauto. }
    simp. rewrite E, Hsz in *.
    eexists; eexists; split; [reflexivity|]. simp. solve_post.
    all: intros; discriminate.
  - destruct (gru_shapes shapes m x (Some hd) N L)
      as (out & h' & E & So & Sh').
    { destruct Hm as (-> & _); discriminate. }
    { eapply rnn_accepts_intro; eauto. }
    simp. rewrite E, Hsz in *.
    eexists; eexists; split; [reflexivity|]. simp. solve_post.
    all: intros; discriminate.
Qed.

Lemma norms_ok_modules (s s' : Recurrent R) h :
  modules s' = modules s -> norms_ok h s -> norms_ok h s'.
Proof.
  intros Hm. destruct (modules_fields _ _ Hm) as (_ & _ & _ & Ho & Hh & _).
  unfold norms_ok. now rewrite Ho, Hh.
Qed.

Lemma batch_ok_modules (s s' : Recurrent R) N :
  modules s' = modules s -> batch_ok s N -> batch_ok s' N.
Proof.
  intros Hm. destruct (modules_fields _ _ Hm) as (Ht & _ & _ & Ho & _).
  unfold batch_ok. now rewrite Ho, Ht.
Qed.

Lemma stacked_layers_run cls h N L (layers : list (RnnModule R)) :
  (0 < h)%Z -> 0 < N -> 0 < L ->
  Forall (layer_ok cls h h) layers ->
  forall (s : Recurrent R) (x : Tensor R) i g,
    norms_ok h s -> batch_ok s N ->
    (dropouts s = [] \/ i + length layers <= length (dropouts s)) ->
    state_shapes N h s ->
    (cls = LSTM -> is_some (cell_state s) = true) ->
    shape x = [N; L; Z.to_nat h] ->
    exists s' out g',
      stacked_layers s i layers x g = Ok ((s', out), g') /\
      stack_post cls N L h s s' out.
Proof.
  intros Hh HN HL Hl.
  induction Hl as [|m layers Hm Hl IH]; intros s x i g Hn Hb Hd Hs Hc Sx.
  - exists s, x, g. split; [reflexivity|]. unfold stack_post. auto 10.
  - cbn [stacked_layers].
    destruct (call_rnn_run m s x cls h h N L g)
      as (s1 & x1 & E1 & Sx1 & Hs1 & Hm1 & Hc1 & Hc1'); try assumption.
    rewrite (bind_ok _ _ _ _ _ E1). cbn beta iota.
    pose proof (modules_fields _ _ Hm1) as (_ & _ & _ & _ & _ & _ & Hds1).
    destruct (after_layer_run s1 x1 i N L h g)
      as (s2 & x2 & g2 & E2 & Sx2 & Hs2 & Hm2 & Hc2); try assumption.
    { eapply norms_ok_modules; eauto. }
    { eapply batch_ok_modules; eauto. }
    { rewrite Hds1. cbn [length] in Hd. destruct Hd; [now left | right; lia]. }
    rewrite (bind_ok _ _ _ _ _ E2). cbn beta iota.
    pose proof (modules_trans _ _ _ Hm1 Hm2) as Hm12.
    pose proof (modules_fields _ _ Hm12) as (_ & _ & _ & _ & _ & _ & Hds2).
    destruct (IH s2 x2 (S i) g2)
      as (s3 & x3 & g3 & E3 & Sx3 & Hs3 & Hm3 & Hc3 & Hc3'); try assumption.
    { eapply norms_ok_modules; eauto. }
    { eapply batch_ok_modules; eauto. }
    { rewrite Hds2. cbn [length] in Hd. destruct Hd; [now left | right; lia]. }
    { intros Hcls. rewrite Hc2. auto. }
    exists s3, x3, g3. split; [exact E3|]. unfold stack_post.
    repeat split; try assumption; try apply Hs3.
    + congruence.
    + intros Hne. rewrite (Hc3' Hne), Hc2, (Hc1' Hne). reflexivity.
Qed.

Lemma cat_last_shape (a b : Tensor R) N L p q :
  shape a = [N; L; p] -> shape b = [N; L; q] ->
  exists t, cat_last r0 a b = Ok t /\ shape t = [N; L; p + q].
Proof.
  intros Ha Hb. unfold cat_last. rewrite Ha, Hb. cbn [rev app].
  destruct (list_eq_dec Nat.eq_dec [L; N] [L; N]) as [_|Hne];
    [|now elim Hne].
  eexists; split; reflexivity.
Qed.

(** ** Invariants of the three classes *)

Lemma Encoder_forward_run cls f h (e : Encoder R) (X : Tensor R) N L g :
  encoder_ok cls f h e -> 0 < N -> 0 < L ->
  batch_ok (enc_stack e) N ->
  shape X = [N; L; Z.to_nat f] ->
  exists s' hs g',
    Encoder_forward e X g =
      Ok ((set_enc_stack e s', (hs, cell_state s')), g') /\
    stack_post cls N L h (enc_stack e) s' hs /\
    (cls <> LSTM -> cell_state s' = None).
Proof.
  intros ((Hf & Hh & Hb & Hr & Hn & Hd) & _ & Hc0) HN HL Hbo SX.
  unfold Encoder_forward. destruct e as [ehd enf edr s]; simpl in *.
  assert (Hfirst : exists s1 x1,
             (if is_LSTM (basic_rnn s)
              then
                (' (out, (h, c)) <- lift (lstm_forward (basic_rnn s) X None) ;;
                 ret (set_cell_state (set_hidden s (Some h)) (Some c), out))%py
              else
                (' (out, h) <- lift (gru_forward (basic_rnn s) X None) ;;
                 ret (set_hidden s (Some h), out))%py) g = Ok ((s1, x1), g) /\
             shape x1 = [N; L; Z.to_nat h] /\ state_shapes N h s1 /\
             modules s1 = modules s /\
             (cls = LSTM -> is_some (cell_state s1) = true) /\
             (cls <> LSTM -> cell_state s1 = None)).
  { rewrite (is_LSTM_class _ _ _ _ Hb).
    assert (Hsz : hidden_size (basic_rnn s) = h) by apply Hb.
    assert (Hcl : rnn_class (basic_rnn s) = cls) by apply Hb.
    destruct cls; cbn [RnnClass_eqb].
    - destruct (lstm_shapes shapes (basic_rnn s) X None N L)
        as (out & h' & c' & E & So & Sh' & Sc'); [assumption| |].
      { eapply rnn_accepts_intro; eauto. }
      simp. rewrite E, Hsz in *.
      eexists; eexists; split; [reflexivity|].
      destruct s; solve_post. all: intros; congruence.
    - destruct (gru_shapes shapes (basic_rnn s) X None N L)
        as (out & h' & E & So & Sh'); [congruence| |].
      { eapply rnn_accepts_intro; eauto. }
      simp. rewrite E, Hsz in *.
      eexists; eexists; split; [reflexivity|].
      pose proof (Hc0 ltac:(discriminate)) as Hc00.
      destruct s; simpl in *; subst; solve_post. all: intros; discriminate.
    - destruct (gru_shapes shapes (basic_rnn s) X None N L)
        as (out & h' & E & So & Sh'); [congruence| |].
      { eapply rnn_accepts_intro; eauto. }
      simp. rewrite E, Hsz in *.
      eexists; eexists; split; [reflexivity|].
      pose proof (Hc0 ltac:(discriminate)) as Hc00.
      destruct s; simpl in *; subst; solve_post. all: intros; discriminate. }
  destruct Hfirst as (s1 & x1 & E1 & Sx1 & Hs1 & Hm1 & Hc1 & Hc1').
  rewrite (bind_ok _ _ _ _ _ E1). cbn beta iota.
  pose proof (modules_fields _ _ Hm1) as (_ & _ & Hrs1 & _ & _ & _ & Hds1).
  destruct (after_layer_run s1 x1 0 N L h g)
    as (s2 & x2 & g2 & E2 & Sx2 & Hs2 & Hm2 & Hc2); try assumption.
  { eapply norms_ok_modules; eauto. }
  { eapply batch_ok_modules; eauto. }
  { rewrite Hds1. destruct Hd; [now left | right; lia]. }
  rewrite (bind_ok _ _ _ _ _ E2). cbn beta iota.
  pose proof (modules_trans _ _ _ Hm1 Hm2) as Hm12.
  pose proof (modules_fields _ _ Hm12) as (_ & _ & Hrs2 & _ & _ & _ & Hds2).
  destruct (stacked_layers_run cls h N L (rnns s2) Hh HN HL
              ltac:(rewrite Hrs2; exact Hr) s2 x2 1 g2)
    as (s3 & x3 & g3 & E3 & Sx3 & Hs3 & Hm3 & Hc3 & Hc3'); try assumption.
  { eapply norms_ok_modules; eauto. }
  { eapply batch_ok_modules; eauto. }
  { rewrite Hds2, Hrs2. destruct Hd; [now left | right; lia]. }
  { intros Hcls. rewrite Hc2. auto. }
  rewrite (bind_ok _ _ _ _ _ E3). cbn beta iota.
  exists s3, x3, g3. split; [reflexivity|]. unfold stack_post.
  repeat split; try assumption; try apply Hs3.
  - congruence.
  - intros Hne. rewrite (Hc3' Hne), Hc2, (Hc1' Hne), (Hc0 Hne). reflexivity.
  - intros Hne. specialize (Hc3' Hne). rewrite Hc2, (Hc1' Hne) in Hc3'.
    destruct (cell_state s3); [discriminate | reflexivity].
Qed.

Lemma last_hidden_get (hidden_seq : Tensor R) N L H n k :
  n < N -> k < H ->
  get r0 (last_hidden hidden_seq N L H) [0; n; k] =
  get r0 hidden_seq [n; L - 1; k].
Proof.
  intros Hn Hk. unfold last_hidden.
  rewrite get_build by (apply valid_index3_intro; lia).
  unfold reindex. cbn [nth].
  rewrite get_build by (apply valid_index3_intro; lia).
  now rewrite Nat.add_0_r.
Qed.

Ltac linear_step shapes N L :=
  match goal with
  | |- context [linear_forward ?m ?x] =>
      let lt := fresh "lt" in
      let El := fresh "El" in
      let Sl := fresh "Sl" in
      destruct (linear_shapes shapes m x N L) as (lt & El & Sl);
      [ .. | rewrite El ]
  end.

Lemma Decoder_init_hidden_run f h (d : Decoder R) (hs : Tensor R)
      (cs : option (Tensor R)) N L g :
  attn_ok f h d -> (0 < h)%Z -> 0 < N -> 0 < L ->
  shape hs = [N; L; Z.to_nat h] ->
  exists k v,
    Decoder_init_hidden d hs cs g =
      Ok (dec_with d
            (set_cell_state
               (set_hidden (dec_stack d)
                  (Some (last_hidden hs N L (Z.to_nat h))))
               (Some (match cs with
                      | None => zeros r0 [1; N; Z.to_nat h]
                      | Some c => c
                      end)))
            k v, g) /\
    keys_ok (dec_with d (dec_stack d) k v) N L h.
Proof.
  intros [Hro Ha] Hh HN HL Shs.
  unfold Decoder_init_hidden, Decoder_init_attn_key_values, keys_ok.
  destruct d as [dhd dnf ddr s ak av a lk lv rg]; simpl in Ha, Hro.
  cbn [attn].
  destruct a as [a|].
  - destruct Ha as (_ & _ & _ & (lk' & -> & Hki & Hko) &
                    (lv' & -> & Hvi & Hvo) & _).
    cbn [is_some linear_keys linear_values set_attn_key_values
         attn_keys attn_values call_linear dec_stack attn dec_hidden_dim
         dec_n_features dec_dropout regression].
    unfold bind, lift, ret.
    linear_step shapes N L; try lia; [congruence|].
    rewrite Hko in Sl.
    linear_step shapes N L; try lia; [congruence|].
    rewrite Hvo in Sl0.
    rewrite (getitem_last _ _ hs N L (Z.to_nat h) Shs HL).
    rewrite (permute_102 _ _ _ N 1 (Z.to_nat h) (shape_build _ _)).
    eexists; eexists; split; [reflexivity|].
    simpl. eauto 10.
  - cbn [is_some]. unfold bind, lift, ret.
    rewrite (getitem_last _ _ hs N L (Z.to_nat h) Shs HL).
    rewrite (permute_102 _ _ _ N 1 (Z.to_nat h) (shape_build _ _)).
    eexists; eexists; split; [reflexivity|].
    cbn [dec_with attn]. exact I.
Qed.

Lemma Decoder_forward_run cls f h (d : Decoder R) (X : Tensor R) N L S g :
  decoder_ok cls f h d -> 0 < N -> 0 < L -> 0 < S ->
  batch_ok (dec_stack d) N -> state_shapes N h (dec_stack d) ->
  is_some (cell_state (dec_stack d)) = true ->
  keys_ok d N S h ->
  shape X = [N; L; Z.to_nat f] ->
  exists s' out g',
    Decoder_forward d X g = Ok ((set_dec_stack d s', out), g') /\
    shape out = [N; L; Z.to_nat f] /\
    state_shapes N h s' /\
    modules s' = modules (dec_stack d) /\
    is_some (cell_state s') = true.
Proof.
  intros ((Hf & Hh & Hb & Hr & Hn & Hd) & Hro & Ha) HN HL HS Hbo Hs Hc Hk SX.
  unfold Decoder_forward.
  destruct (call_rnn_run (basic_rnn (dec_stack d)) (dec_stack d) X
              cls f h N L g)
    as (s1 & x1 & E1 & Sx1 & Hs1 & Hm1 & Hc1 & Hc1'); auto.
  rewrite (bind_ok _ _ _ _ _ E1). cbn beta iota.
  pose proof (modules_fields _ _ Hm1) as (_ & _ & Hrs1 & _ & _ & _ & Hds1).
  assert (Hcs1 : is_some (cell_state s1) = true).
  { destruct (RnnClass_eqb cls LSTM) eqn:Ecl.
    - apply Hc1. now destruct cls.
    - rewrite Hc1'; [assumption|]. intros ->. discriminate. }
  destruct (after_layer_run s1 x1 0 N L h g)
    as (s2 & x2 & g2 & E2 & Sx2 & Hs2 & Hm2 & Hc2); try assumption.
  { eapply norms_ok_modules; eauto. }
  { eapply batch_ok_modules; eauto. }
  { rewrite Hds1. destruct Hd; [now left | right; lia]. }
  rewrite (bind_ok _ _ _ _ _ E2). cbn beta iota.
  pose proof (modules_trans _ _ _ Hm1 Hm2) as Hm12.
  pose proof (modules_fields _ _ Hm12) as (_ & _ & Hrs2 & _ & _ & _ & Hds2).
  destruct (stacked_layers_run cls h N L (rnns s2) Hh HN HL
              ltac:(rewrite Hrs2; exact Hr) s2 x2 1 g2)
    as (s3 & x3 & g3 & E3 & Sx3 & Hs3 & Hm3 & Hc3 & Hc3'); try assumption.
  { eapply norms_ok_modules; eauto. }
  { eapply batch_ok_modules; eauto. }
  { rewrite Hds2, Hrs2. destruct Hd; [now left | right; lia]. }
  { intros _. congruence. }
  rewrite (bind_ok _ _ _ _ _ E3). cbn beta iota.
  assert (Hcs3 : is_some (cell_state s3) = true).
  { destruct (RnnClass_eqb cls LSTM) eqn:Ecl.
    - apply Hc3. now destruct cls.
    - rewrite Hc3'; [congruence|]. intros ->. discriminate. }
  assert (Hpost : state_shapes N h s3 /\
                  modules s3 = modules (dec_stack d) /\
                  is_some (cell_state s3) = true).
  { repeat split; try assumption; try apply Hs3. congruence. }
  unfold keys_ok in Hk.
  destruct d as [dhd dnf ddr s ak av a lk lv rg]; simpl in Ha, Hro, Hk.
  cbn [set_dec_stack attn attn_keys attn_values regression dec_hidden_dim
       dec_n_features dec_dropout linear_keys linear_values dec_stack].
  destruct a as [a|].
  - destruct Ha as (Hae & Hah & Hmod & _ & _ & Hri).
    destruct Hk as (k & v & -> & -> & Sk & Sv).
    destruct (attn_shapes shapes a x3 k v N L S)
      as (o & w & Ea & Sa); try assumption; try congruence; try lia.
    cbn [call_attn]. unfold bind, lift, ret. rewrite Ea.
    destruct (cat_last_shape o x3 N L _ _ Sa Sx3) as (y & Ey & Sy).
    rewrite Ey.
    linear_step shapes N L; try lia.
    { rewrite Sy, Hri, Hae. f_equal. f_equal. f_equal. lia. }
    eexists; eexists; eexists; split; [reflexivity|].
    split; [congruence | exact Hpost].
  - unfold bind, lift, ret.
    linear_step shapes N L; try lia.
    { congruence. }
    eexists; eexists; eexists; split; [reflexivity|].
    split; [congruence | exact Hpost].
Qed.

Lemma stack_ok_modules cls f h (s s' : Recurrent R) :
  modules s' = modules s -> stack_ok cls f h s -> stack_ok cls f h s'.
Proof.
  intros Hm (Hf & Hh & Hb & Hr & Hn & Hd).
  pose proof (norms_ok_modules _ _ h Hm Hn) as Hn'.
  destruct (modules_fields _ _ Hm) as (_ & Eb & Er & _ & _ & _ & Ed).
  unfold stack_ok. rewrite Eb, Er, Ed. auto 10.
Qed.

Lemma modules_set_state (s : Recurrent R) hd c :
  modules (set_cell_state (set_hidden s hd) c) = modules s.
Proof. destruct s; reflexivity. Qed.

Lemma decoder_ok_with cls f h (d : Decoder R) s k v :
  modules s = modules (dec_stack d) ->
  decoder_ok cls f h d -> decoder_ok cls f h (dec_with d s k v).
Proof.
  intros Hm (Hs & Ha). split.
  - eapply stack_ok_modules; [|exact Hs]. destruct d; exact Hm.
  - destruct d; exact Ha.
Qed.


(** ** Construction *)

Lemma ret_inv {A} (a : A) (g : G) r g' :
  ret a g = Ok (r, g') -> r = a /\ g' = g.
Proof. unfold ret. intros E. injection E as <- <-. now split. Qed.

Lemma comprehension_inv {A} (f : M G A) (P : A -> Prop) :
  (forall g a g', f g = Ok (a, g') -> P a) ->
  forall l g xs g',
    comprehension f l g = Ok (xs, g') ->
    length xs = length l /\ Forall P xs.
Proof.
  intros Hf. induction l as [|x l IH]; intros g xs g' E; cbn in E.
  - apply ret_inv in E. destruct E as [-> _]. split; constructor.
  - apply bind_inv in E. destruct E as (a & g1 & Ea & E).
    apply bind_inv in E. destruct E as (xs' & g2 & Exs & E).
    apply ret_inv in E. destruct E as [-> _].
    destruct (IH _ _ _ Exs) as [Hlen HP].
    split; [simpl; now rewrite Hlen | constructor; eauto].
Qed.

Ltac inv_run :=
  repeat match goal with
         | H : bind _ _ _ = Ok _ |- _ =>
             let a := fresh "a" in
             let g := fresh "g" in
             let E := fresh "E" in
             apply bind_inv in H; destruct H as (a & g & E & H)
         | H : ret _ _ = Ok _ |- _ =>
             apply ret_inv in H; destruct H; subst
         | H : raise _ _ = Ok _ |- _ => discriminate H
         | H : match ?a with pair _ _ => _ end _ = Ok _ |- _ => destruct a
         | H : (_, _) = (_, _) |- _ => injection H as ? ?; subst
         end.

Lemma nn_rnn_inv cls i h g m g' :
  nn_rnn cls i h g = Ok (m, g') -> layer_ok cls i h m.
Proof.
  unfold nn_rnn. intros E. inv_run. repeat split.
Qed.

Lemma nn_Dropout_inv d (g : G) m g' :
  nn_Dropout d g = Ok (m, g') -> p m = d.
Proof.
  unfold nn_Dropout. destruct (Qle_bool 0 d && Qle_bool d 1); intros E.
  - apply ret_inv in E. destruct E as [-> _]. reflexivity.
  - discriminate.
Qed.

Lemma Recurrent_init_inv f h cls n d normalization g s g' :
  Recurrent_init f h cls n d normalization g = Ok (s, g') ->
  init_post f h cls n d normalization s.
Proof.
  unfold Recurrent_init. intros E.
  apply bind_inv in E. destruct E as (b & g1 & Eb & E).
  pose proof (nn_rnn_inv _ _ _ _ _ _ Eb) as Hb.
  apply bind_inv in E. destruct E as (rs & g2 & Er & E).
  assert (Hr : length rs = (if (1 <? n)%Z then Z.to_nat (n - 1) else 0) /\
               Forall (layer_ok cls h h) rs).
  { destruct (1 <? n)%Z.
    - apply (comprehension_inv _ (layer_ok cls h h)) in Er.
      + unfold range in Er. now rewrite length_seq in Er.
      + intros; eapply nn_rnn_inv; eauto.
    - apply ret_inv in Er. destruct Er as [-> _]. split; constructor. }
  apply bind_inv in E. destruct E as (ds & g3 & Ed & E).
  assert (Hd : length ds = (if (1 <? n)%Z && Qpositive d
                            then Z.to_nat n else 0) /\
               Forall (fun m => p m = d) ds).
  { destruct ((1 <? n)%Z && Qpositive d).
    - apply (comprehension_inv _ (fun m => p m = d)) in Ed.
      + unfold range in Ed. now rewrite length_seq in Ed.
      + intros; eapply nn_Dropout_inv; eauto.
    - apply ret_inv in Ed. destruct Ed as [-> _]. split; constructor. }
  rewrite (is_LSTM_class _ _ _ _ Hb) in E.
  unfold nn_BatchNorm1d, nn_LayerNorm in E.
  destruct (normalization_is normalization "BatchNormalization") eqn:EB;
    destruct (normalization_is normalization "LayerNormalization") eqn:EL;
    destruct (RnnClass_eqb cls LSTM) eqn:Ecl;
    inv_run;
    (constructor; cbn [basic_rnn rnns dropouts out_normalization
                       hidden_normalization cell_normalization hidden
                       cell_state training];
     rewrite ?EB, ?EL, ?Ecl; unfold norm_is; try tauto; try reflexivity;
     try (split; (eexists; split; [reflexivity | split; reflexivity]))).
Qed.

Lemma init_post_stack_ok f h cls n d normalization (s : Recurrent R) :
  (0 < f)%Z -> (0 < h)%Z ->
  init_post f h cls n d normalization s -> stack_ok cls f h s.
Proof.
  intros Hf Hh [Hb Hr Hrl Hdl _ Hn _ _ _ _].
  unfold stack_ok. do 4 (split; [assumption|]). split.
  - unfold norms_ok.
    destruct (normalization_is normalization "LayerNormalization");
      [|destruct (normalization_is normalization "BatchNormalization")].
    + destruct Hn as [(o & -> & Ho & Hof) (hn & -> & Hh' & Hhf)].
      split; [assumption|]. exists hn. repeat split; congruence.
    + destruct Hn as [(o & -> & Ho & Hof) (hn & -> & Hh' & Hhf)].
      split; [assumption|]. exists hn. repeat split; congruence.
    + destruct Hn as [-> _]. exact I.
  - rewrite Hrl, Hdl.
    destruct (Z.ltb_spec 1 n); cbn [andb].
    + destruct (Qpositive d); [right; lia | left].
      destruct (dropouts s); [reflexivity | discriminate].
    + left. destruct (dropouts s); [reflexivity | discriminate].
Qed.

Lemma init_post_batch f h cls n d normalization (s : Recurrent R) :
  init_post f h cls n d normalization s ->
  is_BatchNorm1d (out_normalization s) = true ->
  normalization_is normalization "BatchNormalization" = true.
Proof.
  intros [_ _ _ _ _ Hn _ _ _ _] Hb.
  destruct (normalization_is normalization "LayerNormalization");
    [|destruct (normalization_is normalization "BatchNormalization")].
  - destruct Hn as [(o & Eo & Ho & _) _]. rewrite Eo in Hb.
    cbn in Hb. rewrite Ho in Hb. discriminate.
  - reflexivity.
  - destruct Hn as [Eo _]. rewrite Eo in Hb. discriminate.
Qed.

Lemma Encoder_init_inv f h cls n d normalization g (e : Encoder R) g' :
  Encoder_init f h cls n d normalization g = Ok (e, g') ->
  init_post f h cls n d normalization (enc_stack e) /\
  enc_n_features e = f /\ enc_hidden_dim e = h /\ enc_dropout e = d.
Proof.
  unfold Encoder_init. intros E.
  apply bind_inv in E. destruct E as (s & g1 & Es & E).
  apply ret_inv in E. destruct E as [-> _].
  apply Recurrent_init_inv in Es. split; [exact Es | repeat split].
Qed.

Lemma nn_Linear_inv i o g (m : LinearModule R) g' :
  nn_Linear i o g = Ok (m, g') -> in_features m = i /\ out_features m = o.
Proof. unfold nn_Linear. intros E. inv_run. now split. Qed.

Lemma nn_MultiheadAttention_inv e h g (m : AttnModule R) g' :
  nn_MultiheadAttention e h g = Ok (m, g') ->
  embed_dim m = e /\ num_heads m = h.
Proof. unfold nn_MultiheadAttention. intros E. inv_run. now split. Qed.

Lemma Decoder_init_inv f h cls n d normalization heads g (dec : Decoder R)
      g' :
  Decoder_init f h cls n d normalization heads g = Ok (dec, g') ->
  init_post f h cls n d normalization (dec_stack dec) /\
  ((0 < heads -> h mod heads = 0)%Z -> attn_ok f h dec) /\
  is_some (attn dec) = (0 <? heads)%Z /\
  attn_keys dec = None /\ attn_values dec = None.
Proof.
  unfold Decoder_init. intros E.
  apply bind_inv in E. destruct E as (s & g1 & Es & E).
  apply Recurrent_init_inv in Es.
  destruct (Z.ltb_spec 0 heads) as [Hh|Hh].
  - apply bind_inv in E. destruct E as (x & g2 & Ex & E).
    apply bind_inv in Ex. destruct Ex as (a & g3 & Ea & Ex).
    apply bind_inv in Ex. destruct Ex as (lk & g4 & Ek & Ex).
    apply bind_inv in Ex. destruct Ex as (lv & g5 & Ev & Ex).
    apply ret_inv in Ex. destruct Ex as [-> _].
    apply bind_inv in E. destruct E as (rg & g6 & Er & E).
    apply ret_inv in E. destruct E as [-> _].
    apply nn_MultiheadAttention_inv in Ea. destruct Ea as [Hae Hah].
    apply nn_Linear_inv in Ek, Ev, Er.
    destruct Ek as [Hki Hko], Ev as [Hvi Hvo], Er as [Hri Hro].
    cbn [dec_stack attn attn_keys attn_values is_some].
    split; [exact Es|]. split; [|repeat split].
    intros Hmod. unfold attn_ok, linear_ok.
    cbn [regression attn linear_keys linear_values].
    rewrite Hae, Hah. repeat split; eauto.
  - apply bind_inv in E. destruct E as (x & g2 & Ex & E).
    apply ret_inv in Ex. destruct Ex as [-> _].
    apply bind_inv in E. destruct E as (rg & g6 & Er & E).
    apply ret_inv in E. destruct E as [-> _].
    apply nn_Linear_inv in Er. destruct Er as [Hri Hro].
    cbn [dec_stack attn attn_keys attn_values is_some].
    split; [exact Es|]. split; [|repeat split].
    intros _. unfold attn_ok. cbn [regression attn]. now split.
Qed.

(** What [create_encoder_decoder_model] returns, when it returns. *)
Lemma create_inv f h cls layers L tf d normalization heads g
      (m : EncoderDecoder R) g' :
  create_encoder_decoder_model f h cls layers L tf d normalization heads g
    = Ok (m, g') ->
  init_post f h cls layers d normalization (enc_stack (encoder m)) /\
  init_post f h cls layers d normalization (dec_stack (decoder m)) /\
  enc_n_features (encoder m) = f /\
  attn_ok f h (decoder m) /\
  is_some (attn (decoder m)) = (0 <? heads)%Z /\
  input_len m = L /\ target_len m = L /\ teacher_forcing_prob m = tf /\
  outputs m = None.
Proof.
  unfold create_encoder_decoder_model. intros E.
  apply bind_inv in E. destruct E as (u & g1 & Eu & E).
  assert (Hmod : (0 < heads -> h mod heads = 0)%Z).
  { intros Hh. apply Z.ltb_lt in Hh. rewrite Hh in Eu.
    destruct (Z.eqb_spec (h mod heads) 0); [assumption | discriminate]. }
  apply bind_inv in E. destruct E as (e & g2 & Ee & E).
  apply bind_inv in E. destruct E as (dec & g3 & Ed & E).
  apply ret_inv in E. destruct E as [-> _].
  apply Encoder_init_inv in Ee. destruct Ee as (He & Hef & _).
  apply Decoder_init_inv in Ed. destruct Ed as (Hd & Ha & Hat & _).
  cbn [EncoderDecoder_init encoder decoder input_len target_len
       teacher_forcing_prob outputs].
  do 4 (split; [auto|]). repeat split; auto.
Qed.

Lemma create_model_ok f h cls layers L tf d normalization heads g
      (m : EncoderDecoder R) g' :
  create_encoder_decoder_model f h cls layers L tf d normalization heads g
    = Ok (m, g') ->
  (0 < f)%Z -> (0 < h)%Z -> model_ok cls f h L m.
Proof.
  intros E Hf Hh. apply create_inv in E.
  destruct E as (He & Hd & Hef & Ha & _ & Hi & Ht & _).
  unfold model_ok, encoder_ok, decoder_ok.
  split; [split; [eapply init_post_stack_ok; eauto | split; [assumption|]]|].
  - intros _. apply He.
  - split; [split; [eapply init_post_stack_ok; eauto | assumption]|].
    now split.
Qed.

Lemma model_ok_train cls f h L (m : EncoderDecoder R) mode :
  model_ok cls f h L m -> model_ok cls f h L (train mode m).
Proof.
  intros ((Hes & Hef & Hec) & (Hds & Hda) & Hi & Ht).
  destruct m as [[ehd enf edr es] [dhd dnf ddr ds ak av a lk lv rg] il tl tf o].
  destruct es, ds. exact (conj (conj Hes (conj Hef Hec))
                            (conj (conj Hds Hda) (conj Hi Ht))).
Qed.

Lemma train_batch_ok f h cls layers L tf d normalization heads g
      (m : EncoderDecoder R) g' mode B :
  create_encoder_decoder_model f h cls layers L tf d normalization heads g
    = Ok (m, g') ->
  0 < B ->
  (normalization_is normalization "BatchNormalization" = true ->
   mode = true -> 1 < B) ->
  batch_ok (enc_stack (encoder (train mode m))) B /\
  batch_ok (dec_stack (decoder (train mode m))) B.
Proof.
  intros E HB Hb. apply create_inv in E. destruct E as (He & Hd & _).
  pose proof (init_post_batch _ _ _ _ _ _ _ He) as Pe.
  pose proof (init_post_batch _ _ _ _ _ _ _ Hd) as Pd.
  destruct m as [[ehd enf edr es] [dhd dnf ddr ds ak av a lk lv rg] il tl tf' o].
  destruct es, ds. unfold batch_ok. cbn in *. auto.
Qed.


Lemma Decoder_init_attn_key_values_stack (d : Decoder R) hs g d' g' :
  Decoder_init_attn_key_values d hs g = Ok (d', g') ->
  dec_stack d' = dec_stack d.
Proof.
  unfold Decoder_init_attn_key_values. intros E.
  apply bind_inv in E. destruct E as (k & g1 & _ & E).
  apply bind_inv in E. destruct E as (v & g2 & _ & E).
  apply ret_inv in E. destruct E as [-> _]. reflexivity.
Qed.

(** C8: on a hidden sequence of shape [(N, L, H)] with a last step
    ([L > 0]), whenever [Decoder.init_hidden] returns, the hidden state of
    the decoder has shape [(1, N, H)] and holds the last step of the
    sequence, [hidden[0, n, k] = hidden_seq[n, L - 1, k]]; a cell state
    that is given is stored unchanged, and without one the cell state is
    the all-zero tensor of shape [(1, N, H)].  Without attention the call
    always returns. *)
Theorem init_hidden_seeds (d : Decoder R) (hidden_seq : Tensor R)
        (cell : option (Tensor R)) N L H g :
  shape hidden_seq = [N; L; H] -> 0 < L ->
  (forall d' g',
     Decoder_init_hidden d hidden_seq cell g = Ok (d', g') ->
     exists hd,
       hidden (dec_stack d') = Some hd /\
       shape hd = [1; N; H] /\
       (forall n k, n < N -> k < H ->
          get r0 hd [0; n; k] = get r0 hidden_seq [n; L - 1; k]) /\
       cell_state (dec_stack d') =
         Some (match cell with
               | Some c => c
               | None => zeros r0 [1; N; H]
               end)) /\
  (attn d = None ->
   exists d', Decoder_init_hidden d hidden_seq cell g = Ok (d', g)).
Proof.
  intros Sh HL. split.
  - intros d' g' E. unfold Decoder_init_hidden in E.
    apply bind_inv in E. destruct E as (d1 & g1 & E1 & E).
    rewrite (getitem_last _ _ hidden_seq N L H Sh HL) in E.
    cbn [bind lift] in E.
    rewrite (permute_102 _ _ _ N 1 H (shape_build _ _)) in E.
    cbn [bind lift] in E.
    apply ret_inv in E. destruct E as [-> _].
    exists (last_hidden hidden_seq N L H).
    destruct d1 as [? ? ? s1 ? ? ? ? ? ?], s1.
    cbn [dec_stack set_dec_stack set_hidden set_cell_state hidden
         cell_state shape].
    repeat split.
    + intros n k Hn Hk. now apply last_hidden_get.
  - intros Ha. unfold Decoder_init_hidden. rewrite Ha. cbn [is_some].
    unfold bind at 1. cbn [ret].
    rewrite (bind_lift_ok _ _ _ _ (getitem_last _ _ hidden_seq N L H Sh HL)).
    rewrite (bind_lift_ok _ _ _ _
               (permute_102 _ _ _ N 1 H (shape_build _ _))).
    eexists. reflexivity.
Qed.

(** ** Construction returns *)

Definition returns {A} (m : M G A) (g : G) : Prop :=
  exists a g', m g = Ok (a, g').

Lemma returns_bind {A B} (m : M G A) (k : A -> M G B) g :
  returns m g -> (forall a g', m g = Ok (a, g') -> returns (k a) g') ->
  returns (bind m k) g.
Proof.
  intros (a & g' & E) Hk. destruct (Hk a g' E) as (b & g'' & E').
  exists b, g''. now rewrite (bind_ok _ _ _ _ _ E).
Qed.

Lemma returns_ret {A} (a : A) g : returns (ret a) g.
Proof. now exists a, g. Qed.

Lemma comprehension_ok {A} (f : M G A) :
  (forall g, returns f g) -> forall l g, returns (comprehension f l) g.
Proof.
  intros Hf. induction l as [|x l IH]; intros g; cbn [comprehension].
  - apply returns_ret.
  - apply returns_bind; [apply Hf|]. intros a g1 _.
    apply returns_bind; [apply IH|]. intros xs g2 _. apply returns_ret.
Qed.

Lemma nn_rnn_ok cls i h g :
  (0 < i)%Z -> (0 < h)%Z -> returns (nn_rnn cls i h) g.
Proof.
  intros Hi Hh. unfold nn_rnn. apply returns_bind.
  - exact (rnn_init_ok constructs cls i h g Hi Hh).
  - intros; apply returns_ret.
Qed.

Lemma nn_BatchNorm1d_ok n g : (0 < n)%Z -> returns (nn_BatchNorm1d n) g.
Proof.
  intros Hn. unfold nn_BatchNorm1d. apply returns_bind.
  - exact (norm_init_ok constructs BatchNorm1d n g Hn).
  - intros; apply returns_ret.
Qed.

Lemma nn_LayerNorm_ok n g : (0 < n)%Z -> returns (nn_LayerNorm n) g.
Proof.
  intros Hn. unfold nn_LayerNorm. apply returns_bind.
  - exact (norm_init_ok constructs LayerNorm n g Hn).
  - intros; apply returns_ret.
Qed.

Lemma nn_Linear_ok i o g :
  (0 < i)%Z -> (0 < o)%Z -> returns (nn_Linear i o) g.
Proof.
  intros Hi Ho. unfold nn_Linear. apply returns_bind.
  - exact (linear_init_ok constructs i o g Hi Ho).
  - intros; apply returns_ret.
Qed.

Lemma nn_MultiheadAttention_ok e h g :
  (0 < e)%Z -> (0 < h)%Z -> (e mod h = 0)%Z ->
  returns (nn_MultiheadAttention e h) g.
Proof.
  intros He Hh Hm. unfold nn_MultiheadAttention. apply returns_bind.
  - exact (attn_init_ok constructs e h g He Hh Hm).
  - intros; apply returns_ret.
Qed.

Lemma nn_Dropout_ok d (g : G) : dropout_valid d -> returns (nn_Dropout d) g.
Proof.
  unfold dropout_valid, nn_Dropout. intros ->. apply returns_ret.
Qed.

Ltac returns_step :=
  match goal with
  | |- returns (ret _) _ => apply returns_ret
  | |- returns (bind _ _) _ => apply returns_bind; [ | intros ? ? _ ]
  | |- returns (nn_rnn _ _ _) _ => apply nn_rnn_ok
  | |- returns (nn_BatchNorm1d _) _ => apply nn_BatchNorm1d_ok
  | |- returns (nn_LayerNorm _) _ => apply nn_LayerNorm_ok
  | |- returns (nn_Linear _ _) _ => apply nn_Linear_ok
  | |- returns (nn_MultiheadAttention _ _) _ =>
      apply nn_MultiheadAttention_ok
  | |- returns (match ?x with pair _ _ => _ end) _ => destruct x
  end; try assumption; try lia.

Lemma Recurrent_init_ok f h cls n d normalization g :
  (0 < f)%Z -> (0 < h)%Z ->
  ((1 <? n)%Z && Qpositive d = true -> dropout_valid d) ->
  returns (Recurrent_init f h cls n d normalization) g.
Proof.
  intros Hf Hh Hd. unfold Recurrent_init.
  apply returns_bind; [now apply nn_rnn_ok|]. intros b g1 _.
  apply returns_bind.
  { destruct (1 <? n)%Z; [|apply returns_ret].
    apply comprehension_ok. intros. now apply nn_rnn_ok. }
  intros rs g2 _.
  apply returns_bind.
  { destruct ((1 <? n)%Z && Qpositive d); [|apply returns_ret].
    apply comprehension_ok. intros. apply nn_Dropout_ok. now apply Hd. }
  intros ds g3 _.
  apply returns_bind.
  { destruct (normalization_is normalization "BatchNormalization");
      [|apply returns_ret].
    do 2 (apply returns_bind; [now apply nn_BatchNorm1d_ok | intros ? ? _]).
    destruct (is_LSTM b); repeat returns_step. }
  intros [[o1 h1] c1] g4 _.
  apply returns_bind.
  { destruct (normalization_is normalization "LayerNormalization");
      [|apply returns_ret].
    do 2 (apply returns_bind; [now apply nn_LayerNorm_ok | intros ? ? _]).
    destruct (is_LSTM b); repeat returns_step. }
  intros [[o2 h2] c2] g5 _. apply returns_ret.
Qed.

Lemma Encoder_init_ok f h cls n d normalization g :
  (0 < f)%Z -> (0 < h)%Z ->
  ((1 <? n)%Z && Qpositive d = true -> dropout_valid d) ->
  returns (Encoder_init f h cls n d normalization) g.
Proof.
  intros Hf Hh Hd. unfold Encoder_init.
  apply returns_bind; [now apply Recurrent_init_ok|].
  intros; apply returns_ret.
Qed.

Lemma Decoder_init_ok f h cls n d normalization heads g :
  (0 < f)%Z -> (0 < h)%Z ->
  ((1 <? n)%Z && Qpositive d = true -> dropout_valid d) ->
  ((0 < heads)%Z -> (h mod heads = 0)%Z) ->
  returns (Decoder_init f h cls n d normalization heads) g.
Proof.
  intros Hf Hh Hd Hm. unfold Decoder_init.
  apply returns_bind; [now apply Recurrent_init_ok|]. intros s g1 _.
  destruct (Z.ltb_spec 0 heads) as [Hp|Hp].
  - specialize (Hm Hp). repeat returns_step.
  - repeat returns_step.
Qed.

(** C7: an [Encoder] and a [Decoder] built with [num_rnn_layers = n >= 1]
    hold [n - 1] recurrent layers in [self.rnns] beside [self.basic_rnn]
    (2 for [n = 3]); the constructors return when the sizes are positive,
    the dropout probability is one [nn.Dropout] accepts and the number of
    heads, if positive, divides [hidden_dim]. *)
Theorem rnns_length f h cls n d normalization heads g :
  (0 < f)%Z -> (0 < h)%Z -> (1 <= n)%Z ->
  ((1 <? n)%Z && Qpositive d = true -> dropout_valid d) ->
  ((0 < heads)%Z -> (h mod heads = 0)%Z) ->
  (exists e g', Encoder_init f h cls n d normalization g = Ok (e, g') /\
                length (rnns (enc_stack e)) = Z.to_nat (n - 1)) /\
  (exists dec g',
     Decoder_init f h cls n d normalization heads g = Ok (dec, g') /\
     length (rnns (dec_stack dec)) = Z.to_nat (n - 1)).
Proof.
  intros Hf Hh Hn Hd Hm.
  assert (Hlen : forall s : Recurrent R,
             init_post f h cls n d normalization s ->
             length (rnns s) = Z.to_nat (n - 1)).
  { intros s Hs. rewrite (init_rnns_length _ _ _ _ _ _ _ Hs).
    destruct (Z.ltb_spec 1 n); [reflexivity | lia]. }
  split.
  - destruct (Encoder_init_ok f h cls n d normalization g Hf Hh Hd)
      as (e & g' & E).
    exists e, g'. split; [exact E|].
    apply Encoder_init_inv in E. apply Hlen, E.
  - destruct (Decoder_init_ok f h cls n d normalization heads g Hf Hh Hd Hm)
      as (dec & g' & E).
    exists dec, g'. split; [exact E|].
    apply Decoder_init_inv in E. apply Hlen, E.
Qed.

Lemma create_ok f h cls layers L tf d normalization heads g :
  (0 < f)%Z -> (0 < h)%Z ->
  ((1 <? layers)%Z && Qpositive d = true -> dropout_valid d) ->
  ((0 < heads)%Z -> (h mod heads = 0)%Z) ->
  returns
    (create_encoder_decoder_model f h cls layers L tf d normalization heads)
    g.
Proof.
  intros Hf Hh Hd Hm. unfold create_encoder_decoder_model.
  apply returns_bind.
  { destruct (Z.ltb_spec 0 heads) as [Hp|Hp]; [|apply returns_ret].
    rewrite (Hm Hp). apply returns_ret. }
  intros u g1 _.
  apply returns_bind; [now apply Encoder_init_ok|]. intros e g2 _.
  apply returns_bind; [now apply Decoder_init_ok|]. intros dec g3 _.
  apply returns_ret.
Qed.

Lemma create_assertion f h cls layers L tf d normalization heads g :
  (0 < heads)%Z -> (h mod heads <> 0)%Z ->
  create_encoder_decoder_model f h cls layers L tf d normalization heads g
    = Raise (AssertionError heads_message).
Proof.
  intros Hp Hm. unfold create_encoder_decoder_model, bind.
  apply Z.ltb_lt in Hp. rewrite Hp.
  destruct (Z.eqb_spec (h mod heads) 0); [contradiction | reflexivity].
Qed.

(** C2: with [narrow_attn_heads > 0], [create_encoder_decoder_model]
    raises the [AssertionError] of its first statement exactly when
    [hidden_dim % narrow_attn_heads] is not 0, whatever the other arguments
    and before any layer is built ([hidden_dim = 10] with 3 heads raises),
    and returns a model exactly when it is 0; with [narrow_attn_heads = 0]
    nothing is checked and it returns a model.  The constructions return
    for positive [n_features] and [hidden_dim] and a dropout probability
    [nn.Dropout] accepts. *)
Theorem create_checks_heads f h cls layers L tf d normalization heads g :
  (0 < f)%Z -> (0 < h)%Z ->
  ((1 <? layers)%Z && Qpositive d = true -> dropout_valid d) ->
  ((0 < heads)%Z ->
   ((h mod heads <> 0)%Z <->
    create_encoder_decoder_model f h cls layers L tf d normalization heads g
      = Raise (AssertionError heads_message)) /\
   ((h mod heads = 0)%Z <->
    exists m g',
      create_encoder_decoder_model f h cls layers L tf d normalization
        heads g = Ok (m, g'))) /\
  (heads = 0%Z ->
   exists m g',
     create_encoder_decoder_model f h cls layers L tf d normalization heads g
       = Ok (m, g')) /\
  create_encoder_decoder_model f 10 cls layers L tf d normalization 3 g
    = Raise (AssertionError heads_message).
Proof.
  intros Hf Hh Hd. split; [|split].
  - intros Hp.
    assert (Hyes : (h mod heads = 0)%Z ->
                   exists m g',
                     create_encoder_decoder_model f h cls layers L tf d
                       normalization heads g = Ok (m, g')).
    { intros Hm. now apply create_ok. }
    assert (Hno : (h mod heads <> 0)%Z ->
                  create_encoder_decoder_model f h cls layers L tf d
                    normalization heads g
                    = Raise (AssertionError heads_message)).
    { intros Hm. now apply create_assertion. }
    split; split; try assumption.
    + intros E Hm. destruct (Hyes Hm) as (m & g' & E'). congruence.
    + intros (m & g' & E).
      destruct (Z.eq_dec (h mod heads) 0) as [Hm|Hm]; [assumption|].
      rewrite (Hno Hm) in E. discriminate.
  - intros ->. apply create_ok; try assumption. lia.
  - apply create_assertion; [lia | discriminate].
Qed.



Lemma build_120_201 (x : Tensor R) a b c :
  wf x -> shape x = [a; b; c] ->
  build [a; b; c]
    (reindex r0 1 2 0 (build [b; c; a] (reindex r0 2 0 1 x))) = x.
Proof.
  intros Hwf Hsh.
  pose proof (permute_120_201 _ r0 x a b c Hwf Hsh) as E.
  rewrite (permute_120 _ _ x a b c Hsh) in E. cbn [res_bind] in E.
  rewrite (permute_201 _ _ _ b c a (shape_build _ _)) in E.
  now injection E.
Qed.

(** C6: in the batch-normalization path of [__apply_normalization], with
    the shapes the forward pass gives it, the output, the hidden state and
    the cell state come back with the shapes they had on entry; a cell
    state that is permuted but not normalized (no [cell_normalization])
    comes back as the very same tensor; and on every well-formed rank-3
    tensor [permute(0, 2, 1)] followed by [permute(0, 2, 1)], and
    [permute(1, 2, 0)] followed by [permute(2, 0, 1)], are the identity. *)
Theorem batch_norm_restores_axes (s : Recurrent R) (t : Tensor R) N L h g :
  (0 < h)%Z -> 0 < L ->
  norms_ok h s -> is_BatchNorm1d (out_normalization s) = true ->
  state_shapes N h s -> batch_ok s N ->
  shape t = [N; L; Z.to_nat h] ->
  (exists s' out,
     apply_normalization s t g = Ok ((s', out), g) /\
     shape out = shape t /\
     (forall hd, hidden s = Some hd ->
        exists hd', hidden s' = Some hd' /\ shape hd' = shape hd) /\
     (forall c, cell_state s = Some c ->
        exists c', cell_state s' = Some c' /\ shape c' = shape c /\
                   (cell_normalization s = None -> wf c -> c' = c))) /\
  (forall (x : Tensor R) a b c,
     wf x -> shape x = [a; b; c] ->
     res_bind (permute r0 [0; 2; 1] x) (permute r0 [0; 2; 1]) = Ok x /\
     res_bind (permute r0 [1; 2; 0] x) (permute r0 [2; 0; 1]) = Ok x).
Proof.
  intros Hh HL Hn Ho [(hd & Ehd & Shd) Hc] [HN Hb] St.
  split.
  - unfold norms_ok in Hn.
    destruct s as [tr hid cs br rs on hn cn ds]; simpl in *. subst hid.
    destruct on as [[ocl ofe ow]|]; [|discriminate].
    destruct Hn as (Eo & [hcl hfe hw] & -> & Ecl & Ehn). simpl in *.
    subst hcl ofe hfe.
    destruct ocl; [|discriminate]. specialize (Hb eq_refl).
    unfold apply_normalization.
    (destruct cs as [c|]; [specialize (Hc c eq_refl)|]);
      destruct cn as [cn|]; simp;
      repeat first [ permute_step; simp | norm_step shapes; simp ];
      (eexists; eexists; split; [reflexivity|]); simp;
      (split; [rewrite shape_build, St; reflexivity|]);
      (split; [intros ? [= <-]; eexists; split; [reflexivity|];
               rewrite shape_build, Shd; reflexivity|]);
      try (intros ? [=]; fail);
      (intros ? [= <-]; eexists; split; [reflexivity|];
       split; [rewrite shape_build, Hc; reflexivity|]).
    + intros [=].
    + intros _ Hwf. now apply build_120_201.
  - intros x a b c Hwf Hsh. split.
    + exact (permute_021_involutive _ r0 x a b c Hwf Hsh).
    + exact (permute_120_201 _ r0 x a b c Hwf Hsh).
Qed.

(** ** What a layer's bookkeeping leaves alone *)

Ltac break_match :=
  match goal with
  | |- context [match ?x with _ => _ end] =>
      lazymatch x with
      | context [match _ with _ => _ end] => fail
      | _ => destruct x eqn:?
      end
  | |- context [if ?x then _ else _] =>
      lazymatch x with
      | context [match _ with _ => _ end] => fail
      | context [if _ then _ else _] => fail
      | _ => destruct x eqn:?
      end
  end.

Lemma apply_normalization_inv (s : Recurrent R) t g s' out g' :
  apply_normalization s t g = Ok ((s', out), g') ->
  g' = g /\ modules s' = modules s.
Proof.
  unfold apply_normalization, modules.
  destruct s as [tr hid cs br rs on hn cn ds]. simp.
  repeat (break_match; simp; try discriminate);
    intros E; injection E as <- <- <-; split; reflexivity.
Qed.

Lemma after_layer_pure (s : Recurrent R) i t g s' out g' :
  dropouts s = [] ->
  after_layer s i t g = Ok ((s', out), g') ->
  g' = g /\ modules s' = modules s.
Proof.
  intros Hd. unfold after_layer. intros E.
  apply bind_inv in E. destruct E as ([s1 t1] & g1 & E1 & E).
  assert (H1 : g1 = g /\ modules s1 = modules s).
  { destruct (is_some (out_normalization s)).
    - now apply apply_normalization_inv in E1.
    - apply ret_inv in E1. destruct E1 as [[= -> ->] ->]. now split. }
  destruct H1 as [-> Hm].
  destruct (modules_fields _ _ Hm) as (_ & _ & _ & _ & _ & _ & Hds).
  rewrite Hds, Hd in E. cbn in E.
  apply ret_inv in E. destruct E as [[= -> ->] ->]. now split.
Qed.

Lemma call_rnn_inv (m : RnnModule R) (s : Recurrent R) x g s' out g' :
  call_rnn m s x g = Ok ((s', out), g') ->
  g' = g /\ modules s' = modules s.
Proof.
  unfold call_rnn, modules. destruct s as [tr hid cs br rs on hn cn ds].
  destruct (is_LSTM m); intros E;
    apply bind_inv in E; destruct E as (r & g1 & E1 & E);
    apply lift_inv in E1; destruct E1 as [_ ->].
  - destruct r as [o [h c]]. apply ret_inv in E.
    destruct E as [[= -> ->] ->]. now split.
  - destruct r as [o h]. apply ret_inv in E.
    destruct E as [[= -> ->] ->]. now split.
Qed.

Lemma stacked_layers_pure (layers : list (RnnModule R)) :
  forall (s : Recurrent R) i x g s' out g',
    dropouts s = [] ->
    stacked_layers s i layers x g = Ok ((s', out), g') ->
    g' = g /\ modules s' = modules s.
Proof.
  induction layers as [|m layers IH]; intros s i x g s' out g' Hd E;
    cbn [stacked_layers] in E.
  - apply ret_inv in E. destruct E as [[= -> ->] ->]. now split.
  - apply bind_inv in E. destruct E as ([s1 x1] & g1 & E1 & E).
    apply call_rnn_inv in E1. destruct E1 as [-> Hm1].
    apply bind_inv in E. destruct E as ([s2 x2] & g2 & E2 & E).
    pose proof (modules_fields _ _ Hm1) as (_ & _ & _ & _ & _ & _ & Hd1).
    apply after_layer_pure in E2; [|congruence]. destruct E2 as [-> Hm2].
    pose proof (modules_fields _ _ Hm2) as (_ & _ & _ & _ & _ & _ & Hd2).
    apply IH in E; [|congruence]. destruct E as [-> Hm3].
    split; [reflexivity | congruence].
Qed.

Lemma Encoder_forward_pure (e : Encoder R) X g r g' :
  dropouts (enc_stack e) = [] ->
  Encoder_forward e X g = Ok (r, g') ->
  g' = g /\
  exists s', fst r = set_enc_stack e s' /\
             modules s' = modules (enc_stack e).
Proof.
  intros Hd. unfold Encoder_forward. intros E.
  apply bind_inv in E. destruct E as ([s1 x1] & g1 & E1 & E).
  assert (H1 : g1 = g /\ modules s1 = modules (enc_stack e)).
  { destruct (enc_stack e) as [tr hid cs br rs on hn cn ds].
    unfold modules. cbn [basic_rnn] in E1.
    destruct (is_LSTM br);
      apply bind_inv in E1; destruct E1 as (r1 & g2 & E1 & E2);
      apply lift_inv in E1; destruct E1 as [_ ->].
    - destruct r1 as [o [h c]]. apply ret_inv in E2.
      destruct E2 as [[= -> ->] ->]. now split.
    - destruct r1 as [o h]. apply ret_inv in E2.
      destruct E2 as [[= -> ->] ->]. now split. }
  destruct H1 as [-> Hm1].
  pose proof (modules_fields _ _ Hm1) as (_ & _ & _ & _ & _ & _ & Hd1).
  apply bind_inv in E. destruct E as ([s2 x2] & g2 & E2 & E).
  apply after_layer_pure in E2; [|congruence]. destruct E2 as [-> Hm2].
  pose proof (modules_fields _ _ Hm2) as (_ & _ & _ & _ & _ & _ & Hd2).
  apply bind_inv in E. destruct E as ([s3 x3] & g3 & E3 & E).
  apply stacked_layers_pure in E3; [|congruence]. destruct E3 as [-> Hm3].
  apply ret_inv in E. destruct E as [-> ->]. split; [reflexivity|].
  exists s3. split; [reflexivity | congruence].
Qed.

Lemma Decoder_forward_pure (dec : Decoder R) X g r g' :
  dropouts (dec_stack dec) = [] ->
  Decoder_forward dec X g = Ok (r, g') ->
  g' = g /\
  exists s', fst r = set_dec_stack dec s' /\
             modules s' = modules (dec_stack dec).
Proof.
  intros Hd. unfold Decoder_forward. intros E.
  apply bind_inv in E. destruct E as ([s1 x1] & g1 & E1 & E).
  apply call_rnn_inv in E1. destruct E1 as [-> Hm1].
  pose proof (modules_fields _ _ Hm1) as (_ & _ & _ & _ & _ & _ & Hd1).
  apply bind_inv in E. destruct E as ([s2 x2] & g2 & E2 & E).
  apply after_layer_pure in E2; [|congruence]. destruct E2 as [-> Hm2].
  pose proof (modules_fields _ _ Hm2) as (_ & _ & _ & _ & _ & _ & Hd2).
  apply bind_inv in E. destruct E as ([s3 x3] & g3 & E3 & E).
  apply stacked_layers_pure in E3; [|congruence]. destruct E3 as [-> Hm3].
  apply bind_inv in E. destruct E as (y & g4 & E4 & E).
  assert (g4 = g) as ->.
  { destruct (attn (set_dec_stack dec s3)).
    - apply bind_inv in E4. destruct E4 as ([ao aw] & g5 & E5 & E4).
      apply lift_inv in E5. destruct E5 as [_ ->].
      apply lift_inv in E4. now destruct E4.
    - apply ret_inv in E4. now destruct E4. }
  apply bind_inv in E. destruct E as (o & g5 & E5 & E).
  apply lift_inv in E5. destruct E5 as [_ ->].
  apply ret_inv in E. destruct E as [-> ->]. split; [reflexivity|].
  exists s3. split; [reflexivity | congruence].
Qed.

Lemma value_bind_ext {A S B} (m : M G A) (k1 k2 : A -> M G (S * B)) g :
  (forall a g', value (k1 a g') = value (k2 a g')) ->
  value (bind m k1 g) = value (bind m k2 g).
Proof.
  intros H. unfold bind. destruct (m g) as [[a g']|e]; [apply H | reflexivity].
Qed.

Lemma Decoder_init_hidden_inv (dec : Decoder R) hs cs g d1 g' :
  Decoder_init_hidden dec hs cs g = Ok (d1, g') ->
  g' = g /\
  exists s' k v, d1 = dec_with dec s' k v /\
                 modules s' = modules (dec_stack dec).
Proof.
  unfold Decoder_init_hidden. intros E.
  apply bind_inv in E. destruct E as (d0 & g0 & E0 & E).
  assert (H0 : g0 = g /\
               exists k v, d0 = dec_with dec (dec_stack dec) k v).
  { destruct (is_some (attn dec)).
    - unfold Decoder_init_attn_key_values in E0.
      apply bind_inv in E0. destruct E0 as (k & g1 & E1 & E0).
      apply lift_inv in E1. destruct E1 as [_ ->].
      apply bind_inv in E0. destruct E0 as (v & g2 & E2 & E0).
      apply lift_inv in E2. destruct E2 as [_ ->].
      apply ret_inv in E0. destruct E0 as [-> ->]. split; [reflexivity|].
      exists (Some k), (Some v). destruct dec; reflexivity.
    - apply ret_inv in E0. destruct E0 as [-> ->]. split; [reflexivity|].
      exists (attn_keys dec), (attn_values dec). destruct dec; reflexivity. }
  destruct H0 as [-> (k & v & ->)].
  apply bind_inv in E. destruct E as (hf & g1 & E1 & E).
  apply lift_inv in E1. destruct E1 as [_ ->].
  apply bind_inv in E. destruct E as (hp & g2 & E2 & E).
  apply lift_inv in E2. destruct E2 as [_ ->].
  apply ret_inv in E. destruct E as [-> ->]. split; [reflexivity|].
  eexists _, k, v. split.
  - destruct dec as [? ? ? s ? ? ? ? ? ?]. reflexivity.
  - destruct dec as [? ? ? s ? ? ? ? ? ?]. cbn [dec_with dec_stack].
    apply modules_set_state.
Qed.

Lemma Recurrent_init_one f h cls d d' normalization :
  Recurrent_init f h cls 1 d normalization =
  Recurrent_init f h cls 1 d' normalization.
Proof. reflexivity. Qed.

Lemma init_post_dropouts f h cls n d normalization (s : Recurrent R) :
  init_post f h cls n d normalization s ->
  length (dropouts s) = if (1 <? n)%Z && Qpositive d then Z.to_nat n else 0.
Proof. intros Hs. exact (init_dropouts_length _ _ _ _ _ _ _ Hs). Qed.

(** C9: an [Encoder] or a [Decoder] built with [num_rnn_layers = 1] has an
    empty [dropouts] list whatever the dropout argument, which only ends
    up in the attribute [self.dropout]; its [forward] then draws nothing
    from the random generator, in training and in evaluation mode;
    [forward] never reads [self.dropout]; and in general the list holds
    [num_rnn_layers] dropout modules when [num_rnn_layers > 1] and
    [dropout > 0], and none otherwise. *)
Theorem single_layer_dropout_unused f h cls d normalization heads g :
  (forall e g',
     Encoder_init f h cls 1 d normalization g = Ok (e, g') ->
     dropouts (enc_stack e) = [] /\
     (forall d', Encoder_init f h cls 1 d' normalization g
                 = Ok (set_enc_dropout e d', g')) /\
     (forall mode X g1 r g2,
        Encoder_forward (Encoder_train mode e) X g1 = Ok (r, g2) ->
        g2 = g1)) /\
  (forall dec g',
     Decoder_init f h cls 1 d normalization heads g = Ok (dec, g') ->
     dropouts (dec_stack dec) = [] /\
     (forall d', Decoder_init f h cls 1 d' normalization heads g
                 = Ok (set_dec_dropout dec d', g')) /\
     (forall mode hs cs X g1 dec1 g2 r g3,
        Decoder_init_hidden (Decoder_train mode dec) hs cs g1
          = Ok (dec1, g2) ->
        Decoder_forward dec1 X g2 = Ok (r, g3) ->
        g2 = g1 /\ g3 = g1)) /\
  (forall (e : Encoder R) d' X g1,
     value (Encoder_forward (set_enc_dropout e d') X g1) =
     value (Encoder_forward e X g1)) /\
  (forall (dec : Decoder R) d' X g1,
     value (Decoder_forward (set_dec_dropout dec d') X g1) =
     value (Decoder_forward dec X g1)) /\
  (forall n e g',
     Encoder_init f h cls n d normalization g = Ok (e, g') ->
     length (dropouts (enc_stack e)) =
       if (1 <? n)%Z && Qpositive d then Z.to_nat n else 0) /\
  (forall n dec g',
     Decoder_init f h cls n d normalization heads g = Ok (dec, g') ->
     length (dropouts (dec_stack dec)) =
       if (1 <? n)%Z && Qpositive d then Z.to_nat n else 0).
Proof.
  assert (Hempty : forall s : Recurrent R,
             init_post f h cls 1 d normalization s -> dropouts s = []).
  { intros s Hs. apply init_post_dropouts in Hs. cbn in Hs.
    destruct (dropouts s); [reflexivity | discriminate]. }
  split; [|split; [|split; [|split; [|split]]]].
  - intros e g' E. pose proof (Encoder_init_inv _ _ _ _ _ _ _ _ _ E) as Hi.
    destruct Hi as (Hs & _). specialize (Hempty _ Hs).
    split; [exact Hempty|]. split.
    + intros d'. unfold Encoder_init in *.
      rewrite (Recurrent_init_one f h cls d' d normalization).
      apply bind_inv in E. destruct E as (s & g1 & Es & E).
      apply ret_inv in E. destruct E as [-> ->].
      now rewrite (bind_ok _ _ _ _ _ Es).
    + intros mode X g1 r g2 E'.
      eapply proj1, Encoder_forward_pure; [|exact E'].
      destruct e as [? ? ? s]; destruct s; exact Hempty.
  - intros dec g' E. pose proof (Decoder_init_inv _ _ _ _ _ _ _ _ _ _ E) as Hi.
    destruct Hi as (Hs & _). specialize (Hempty _ Hs).
    split; [exact Hempty|]. split.
    + intros d'. unfold Decoder_init in *.
      rewrite (Recurrent_init_one f h cls d' d normalization).
      apply bind_inv in E. destruct E as (s & g1 & Es & E).
      rewrite (bind_ok _ _ _ _ _ Es).
      apply bind_inv in E. destruct E as ([[a lk] lv] & g2 & Ea & E).
      rewrite (bind_ok _ _ _ _ _ Ea). cbn beta iota.
      apply bind_inv in E. destruct E as (rg & g3 & Er & E).
      rewrite (bind_ok _ _ _ _ _ Er).
      apply ret_inv in E. destruct E as [-> ->]. reflexivity.
    + intros mode hs cs X g1 dec1 g2 r g3 E1 E2.
      apply Decoder_init_hidden_inv in E1.
      destruct E1 as [-> (s1 & k & v & -> & Hm)].
      split; [reflexivity|].
      eapply proj1, Decoder_forward_pure; [|exact E2].
      destruct (modules_fields _ _ Hm) as (_ & _ & _ & _ & _ & _ & Hd).
      cbn [dec_with dec_stack]. rewrite Hd.
      destruct dec as [? ? ? s ? ? ? ? ? ?]; destruct s.
      exact Hempty.
  - intros e d' X g1. unfold Encoder_forward.
    cbn [set_enc_dropout enc_stack enc_hidden_dim enc_n_features
         enc_dropout].
    repeat (apply value_bind_ext; intros [? ?] ?). reflexivity.
  - intros dec d' X g1. unfold Decoder_forward.
    cbn [set_dec_dropout dec_stack].
    repeat (apply value_bind_ext; intros [? ?] ?).
    unfold set_dec_stack.
    cbn [attn attn_keys attn_values regression dec_hidden_dim
         dec_n_features dec_dropout linear_keys linear_values dec_stack].
    repeat (apply value_bind_ext; intros ? ?). reflexivity.
  - intros n e g' E. apply Encoder_init_inv in E.
    destruct E as (Hs & _). exact (init_post_dropouts _ _ _ _ _ _ _ Hs).
  - intros n dec g' E. apply Decoder_init_inv in E.
    destruct E as (Hs & _). exact (init_post_dropouts _ _ _ _ _ _ _ Hs).
Qed.

(** ** The parameters of [cell_normalization] *)

Lemma map_self_bind {S S' A B C} (F' : B -> B) (F : S -> S')
      (m m' : M G (B * A)) (k : B * A -> M G (S * C))
      (k' : B * A -> M G (S' * C)) g :
  m' g = map_self F' (m g) ->
  (forall s a g1, k' (F' s, a) g1 = map_self F (k (s, a) g1)) ->
  bind m' k' g = map_self F (bind m k g).
Proof.
  intros Hm Hk. unfold bind. rewrite Hm.
  destruct (m g) as [[[s a] g1]|e]; [apply Hk | reflexivity].
Qed.

Lemma value_map_self {S S' A} (F : S -> S') (r : Res ((S * A) * G)) :
  value (map_self F r) = value r.
Proof. destruct r as [[[s a] g]|e]; reflexivity. Qed.

Section ReplaceCellNormalization.

Variable cn' : NormModule R.

Local Abbreviation F := (replace_cell_normalization cn').

Lemma apply_normalization_replace (s : Recurrent R) t g :
  apply_normalization (F s) t g = map_self F (apply_normalization s t g).
Proof.
  unfold apply_normalization, replace_cell_normalization, map_self.
  destruct s as [tr hid cs br rs on hn cn ds].
  destruct cn as [cn|]; simp; unfold set_cell_normalization; simp;
    repeat (break_match; simp; try discriminate); reflexivity.
Qed.

Lemma apply_dropout_replace (s : Recurrent R) i t g :
  apply_dropout (F s) i t g = map_self F (apply_dropout s i t g).
Proof.
  unfold apply_dropout, dropouts_getitem, replace_cell_normalization,
    map_self.
  destruct s as [tr hid cs br rs on hn cn ds].
  destruct cn as [cn|]; simp; unfold set_cell_normalization; simp;
    repeat (break_match; simp; try discriminate); reflexivity.
Qed.

Lemma replace_fields (s : Recurrent R) :
  out_normalization (F s) = out_normalization s /\
  dropouts (F s) = dropouts s /\ training (F s) = training s /\
  hidden (F s) = hidden s /\ cell_state (F s) = cell_state s /\
  rnns (F s) = rnns s /\ basic_rnn (F s) = basic_rnn s.
Proof.
  unfold replace_cell_normalization.
  destruct s as [tr hid cs br rs on hn cn ds].
  destruct cn; repeat split.
Qed.

Lemma after_layer_replace (s : Recurrent R) i t g :
  after_layer (F s) i t g = map_self F (after_layer s i t g).
Proof.
  unfold after_layer.
  destruct (replace_fields s) as (Eo & _). rewrite Eo.
  apply (map_self_bind F).
  - destruct (is_some (out_normalization s)).
    + apply apply_normalization_replace.
    + reflexivity.
  - intros s1 t1 g1. destruct (replace_fields s1) as (_ & Ed & Et & _).
    rewrite Ed, Et.
    destruct ((0 <? length (dropouts s1)) && training s1).
    + apply apply_dropout_replace.
    + reflexivity.
Qed.

Lemma call_rnn_replace (m : RnnModule R) (s : Recurrent R) x g :
  call_rnn m (F s) x g = map_self F (call_rnn m s x g).
Proof.
  unfold call_rnn, replace_cell_normalization, map_self.
  destruct s as [tr hid cs br rs on hn cn ds].
  destruct cn as [cn|]; simp; unfold set_cell_normalization; simp;
    repeat (break_match; simp; try discriminate); reflexivity.
Qed.

Lemma stacked_layers_replace (layers : list (RnnModule R)) :
  forall (s : Recurrent R) i x g,
    stacked_layers (F s) i layers x g
    = map_self F (stacked_layers s i layers x g).
Proof.
  induction layers as [|m layers IH]; intros s i x g; cbn [stacked_layers].
  - reflexivity.
  - apply (map_self_bind F); [apply call_rnn_replace|].
    intros s1 x1 g1.
    apply (map_self_bind F); [apply after_layer_replace|].
    intros s2 x2 g2. apply IH.
Qed.

Lemma Encoder_forward_replace (e : Encoder R) X g :
  Encoder_forward (set_enc_stack e (F (enc_stack e))) X g =
  map_self (fun e' => set_enc_stack e' (F (enc_stack e')))
    (Encoder_forward e X g).
Proof.
  unfold Encoder_forward.
  cbn [set_enc_stack enc_stack enc_hidden_dim enc_n_features enc_dropout].
  destruct (replace_fields (enc_stack e)) as (_ & _ & _ & _ & _ & _ & Eb).
  rewrite Eb.
  apply (map_self_bind F).
  - unfold replace_cell_normalization, map_self.
    destruct (enc_stack e) as [tr hid cs br rs on hn cn ds].
    destruct cn as [cn|]; simp; unfold set_cell_normalization; simp;
      repeat (break_match; simp; try discriminate); reflexivity.
  - intros s1 x1 g1.
    apply (map_self_bind F); [apply after_layer_replace|].
    intros s2 x2 g2.
    destruct (replace_fields s2) as (_ & _ & _ & _ & _ & Er & _).
    rewrite Er.
    apply (map_self_bind F); [apply stacked_layers_replace|].
    intros s3 x3 g3.
    destruct (replace_fields s3) as (_ & _ & _ & _ & Ec & _).
    rewrite Ec. reflexivity.
Qed.

Lemma Decoder_forward_replace (dec : Decoder R) X g :
  Decoder_forward (set_dec_stack dec (F (dec_stack dec))) X g =
  map_self (fun d' => set_dec_stack d' (F (dec_stack d')))
    (Decoder_forward dec X g).
Proof.
  unfold Decoder_forward.
  cbn [set_dec_stack dec_stack].
  destruct (replace_fields (dec_stack dec)) as (_ & _ & _ & _ & _ & _ & Eb).
  rewrite Eb.
  apply (map_self_bind F); [apply call_rnn_replace|].
  intros s1 x1 g1.
  apply (map_self_bind F); [apply after_layer_replace|].
  intros s2 x2 g2.
  destruct (replace_fields s2) as (_ & _ & _ & _ & _ & Er & _).
  rewrite Er.
  apply (map_self_bind F); [apply stacked_layers_replace|].
  intros s3 x3 g3.
  destruct dec as [dhd dnf ddr s ak av a lk lv rg].
  unfold set_dec_stack.
  cbn [attn attn_keys attn_values regression dec_stack dec_hidden_dim
       dec_n_features dec_dropout linear_keys linear_values].
  unfold bind, lift, ret, map_self.
  repeat (break_match; try discriminate); reflexivity.
Qed.

Lemma Decoder_init_hidden_replace (dec : Decoder R) hs cs g :
  Decoder_init_hidden (set_dec_stack dec (F (dec_stack dec))) hs cs g =
  match Decoder_init_hidden dec hs cs g with
  | Ok (d', g') => Ok (set_dec_stack d' (F (dec_stack d')), g')
  | Raise e => Raise e
  end.
Proof.
  unfold Decoder_init_hidden, Decoder_init_attn_key_values.
  destruct dec as [dhd dnf ddr s ak av a lk lv rg].
  cbn [set_dec_stack dec_stack attn attn_keys attn_values linear_keys
       linear_values regression dec_hidden_dim dec_n_features dec_dropout
       set_attn_key_values].
  unfold replace_cell_normalization.
  destruct s as [tr hid c0 br rs on hn cn ds].
  unfold bind, lift, ret.
  destruct cn as [cn|]; simp; unfold set_cell_normalization; simp;
    repeat (break_match; simp; try discriminate); try reflexivity;
    repeat match goal with
           | H : Ok _ = Ok _ |- _ => injection H as ?; subst
           end; try reflexivity; try congruence.
Qed.

End ReplaceCellNormalization.

Lemma sim_bind {A A' B B'} (RG : G -> G -> Prop) (P : A -> A' -> Prop)
      (Q : B -> B' -> Prop) (m : M G A) (m' : M G A') (k : A -> M G B)
      (k' : A' -> M G B') g g' :
  sim RG P (m g) (m' g') ->
  (forall a a' g1 g1', P a a' -> RG g1 g1' -> sim RG Q (k a g1) (k' a' g1')) ->
  sim RG Q (bind m k g) (bind m' k' g').
Proof.
  unfold sim at 1, bind. intros Hm Hk.
  destruct (m g) as [[a g1]|e], (m' g') as [[a' g1']|e'];
    try contradiction.
  - destruct Hm as [HP HG]. now apply Hk.
  - exact Hm.
Qed.

Lemma sim_lift {A} (RG : G -> G -> Prop) (r : Res A) g g' :
  RG g g' -> sim RG eq (lift r g) (lift r g').
Proof. intros HG. unfold sim, lift. destruct r; auto. Qed.

Lemma sim_ret {A A'} (RG : G -> G -> Prop) (P : A -> A' -> Prop) a a' g g' :
  P a a' -> RG g g' -> sim RG P (ret a g) (ret a' g').
Proof. intros HP HG. unfold sim, ret. auto. Qed.

Lemma sim_value {S S' A} (RG : G -> G -> Prop)
      (r : Res ((S * A) * G)) (r' : Res ((S' * A) * G)) :
  sim RG (fun x x' => snd x = snd x') r r' -> value r = value r'.
Proof.
  unfold sim, value, res_map, res_bind.
  destruct r as [[[s a] g]|e], r' as [[[s' a'] g']|e']; try contradiction.
  - intros [Ha _]. cbn in *. now subst.
  - now intros ->.
Qed.

Lemma sim_map_self {S S' A} (F : S -> S') (r : Res ((S * A) * G)) :
  sim eq (fun x x' => fst x = F (fst x') /\ snd x = snd x')
    (map_self F r) r.
Proof. destruct r as [[[s a] g]|e]; cbn; auto. Qed.

Lemma EncoderDecoder_forward_replace me md (m : EncoderDecoder R) X g :
  value (EncoderDecoder_forward (replace_cell_normalizations me md m) X g) =
  value (EncoderDecoder_forward m X g).
Proof.
  apply (sim_value eq). unfold EncoderDecoder_forward.
  change (input_len (replace_cell_normalizations me md m))
    with (input_len m).
  do 3 (eapply sim_bind; [now apply sim_lift|];
        intros ? ? ? ? <- <-).
  eapply (sim_bind eq
            (fun s' s => s' = replace_cell_normalizations me md s)).
  { unfold init_outputs.
    change (target_len (replace_cell_normalizations me md m))
      with (target_len m).
    change (enc_n_features (encoder (replace_cell_normalizations me md m)))
      with (enc_n_features (encoder m)).
    eapply sim_bind; [now apply sim_lift|]. intros o ? gz ? <- <-.
    now apply sim_ret. }
  intros ? self gs ? -> <-.
  eapply sim_bind.
  { change (encoder (replace_cell_normalizations me md self))
      with (set_enc_stack (encoder self)
              (replace_cell_normalization me (enc_stack (encoder self)))).
    rewrite Encoder_forward_replace. apply sim_map_self. }
  intros [e' [hs' cs']] [e [hs cs]] ge ? [He Hv] <-. cbn in He, Hv.
  injection Hv as -> ->. subst e'.
  eapply (sim_bind eq
            (fun d' d0 => d' = set_dec_stack d0
                                 (replace_cell_normalization md
                                    (dec_stack d0)))).
  { change (decoder (set_encoder (replace_cell_normalizations me md self)
                       (set_enc_stack e
                          (replace_cell_normalization me (enc_stack e)))))
      with (set_dec_stack (decoder self)
              (replace_cell_normalization md (dec_stack (decoder self)))).
    rewrite Decoder_init_hidden_replace.
    change (decoder (set_encoder self e)) with (decoder self).
    unfold sim.
    destruct (Decoder_init_hidden (decoder self) hs cs ge) as [[d1 gi]|e1];
      auto. }
  intros ? d1 gi ? -> <-.
  eapply sim_bind.
  { cbn [set_decoder decoder].
    rewrite Decoder_forward_replace. apply sim_map_self. }
  intros [d2' out'] [d2 out] gd ? [Hd Hv] <-. cbn in Hd, Hv. subst.
  now apply sim_ret.
Qed.

(** C10: when [__apply_normalization] normalizes a cell state (the stack
    has a [cell_normalization] module and a cell state), the tensor it
    stores is the one [out_normalization] computes from it, between the
    two permutations in the batch-normalization path; and replacing the
    parameters of the [cell_normalization] modules of the encoder and of
    the decoder by any others changes the result of no
    [__apply_normalization] and of no [forward]. *)
Theorem cell_normalization_unused :
  (forall (s : Recurrent R) t g s' out g' on cn c,
     apply_normalization s t g = Ok ((s', out), g') ->
     out_normalization s = Some on ->
     cell_normalization s = Some cn ->
     cell_state s = Some c ->
     exists c', normalized_cell on (training s) c = Ok c' /\
                cell_state s' = Some c') /\
  (forall cn' (s : Recurrent R) t g,
     value (apply_normalization (replace_cell_normalization cn' s) t g) =
     value (apply_normalization s t g)) /\
  (forall me md (m : EncoderDecoder R) X g,
     value (EncoderDecoder_forward (replace_cell_normalizations me md m) X g)
     = value (EncoderDecoder_forward m X g)).
Proof.
  split; [|split].
  - intros s t g s' out g' on cn c E Ho Hcn Hc. revert E.
    destruct s as [tr hid cs br rs o hn cn0 ds]. cbn in Ho, Hcn, Hc.
    subst o cn0 cs.
    unfold apply_normalization, normalized_cell. simp.
    destruct on as [ocl ofe ow]. cbn [norm_class].
    destruct ocl; simp; unfold res_bind;
      repeat (break_match; simp; try discriminate);
      intros E; injection E as <- <- <-; eexists; split; reflexivity.
  - intros cn' s t g. rewrite apply_normalization_replace.
    apply value_map_self.
  - apply EncoderDecoder_forward_replace.
Qed.

(** ** Two runs of a model without normalization, dropout and attention *)

Lemma after_layer_plain (s : Recurrent R) i x g :
  out_normalization s = None -> dropouts s = [] ->
  after_layer s i x g = Ok ((s, x), g).
Proof.
  intros Ho Hd. unfold after_layer. rewrite Ho. cbn [is_some].
  unfold bind, ret. rewrite Hd. reflexivity.
Qed.

Lemma same_run_state cls (s s' : Recurrent R) h h' c c' :
  same_run cls s s' -> h' = h -> (cls = LSTM -> c' = c) ->
  same_run cls (set_cell_state (set_hidden s h) c)
    (set_cell_state (set_hidden s' h') c').
Proof.
  intros (Hw & Hc & Ho & Hd & _ & _) Hh Hcc.
  destruct s, s'. unfold same_run, same_stack_weights in *. cbn in *.
  auto 10.
Qed.

Lemma same_run_hidden cls (s s' : Recurrent R) h :
  cls <> LSTM -> same_run cls s s' ->
  same_run cls (set_hidden s h) (set_hidden s' h).
Proof.
  intros Hne (Hw & Hc & Ho & Hd & _ & _).
  destruct s, s'. unfold same_run, same_stack_weights in *. cbn in *.
  repeat split; try tauto; intros; contradiction.
Qed.

Lemma call_rnn_same_run cls (m : RnnModule R) (s s' : Recurrent R) x g g' :
  rnn_class m = cls -> same_run cls s s' ->
  sim any_generator
    (fun r r' => same_run cls (fst r) (fst r') /\ snd r = snd r')
    (call_rnn m s x g) (call_rnn m s' x g').
Proof.
  intros Hm Hs. pose proof Hs as (_ & _ & _ & _ & Hh & Hc).
  unfold call_rnn, is_LSTM. rewrite Hm.
  destruct cls; cbn [RnnClass_eqb]; unfold bind, lift, ret, sim.
  - rewrite Hh, (Hc eq_refl).
    destruct (call_lstm m x (hidden s, cell_state s)) as [[o [h c]]|e];
      [|reflexivity].
    cbn. split; [split; [|reflexivity] | exact I].
    now apply same_run_state.
  - rewrite Hh.
    destruct (gru_forward m x (hidden s)) as [[o h]|e]; [|reflexivity].
    cbn. split; [split; [|reflexivity] | exact I].
    apply same_run_hidden; [discriminate | assumption].
  - rewrite Hh.
    destruct (gru_forward m x (hidden s)) as [[o h]|e]; [|reflexivity].
    cbn. split; [split; [|reflexivity] | exact I].
    apply same_run_hidden; [discriminate | assumption].
Qed.

Lemma same_run_fields cls (s s' : Recurrent R) :
  same_run cls s s' ->
  out_normalization s = None /\ dropouts s = [] /\
  out_normalization s' = None /\ dropouts s' = [] /\
  rnns s' = rnns s /\ basic_rnn s' = basic_rnn s.
Proof.
  intros ((Hb & Hr & Ho & _ & _ & Hd) & _ & Hon & Hdn & _).
  repeat split; congruence.
Qed.

Lemma stacked_layers_same_run cls (layers : list (RnnModule R)) :
  Forall (fun m => rnn_class m = cls) layers ->
  forall (s s' : Recurrent R) i x g g',
    same_run cls s s' ->
    sim any_generator
      (fun r r' => same_run cls (fst r) (fst r') /\ snd r = snd r')
      (stacked_layers s i layers x g) (stacked_layers s' i layers x g').
Proof.
  intros Hl. induction Hl as [|m layers Hm Hl IH]; intros s s' i x g g' Hs;
    cbn [stacked_layers].
  - apply sim_ret; [now split | exact I].
  - eapply sim_bind; [now apply (call_rnn_same_run cls)|].
    intros [s1 x1] [s1' x1'] g1 g1' [Hs1 Hx] _. cbn in Hs1, Hx. subst x1'.
    destruct (same_run_fields _ _ _ Hs1) as (Ho & Hd & Ho' & Hd' & _).
    cbn beta iota.
    rewrite (bind_ok _ _ _ _ _ (after_layer_plain s1 i x1 g1 Ho Hd)).
    rewrite (bind_ok _ _ _ _ _ (after_layer_plain s1' i x1 g1' Ho' Hd')).
    cbn beta iota. now apply IH.
Qed.

Lemma same_run_intro cls (s s' : Recurrent R) h c c' :
  same_stack_weights s s' -> plain_stack cls s ->
  (cls = LSTM -> c' = c) ->
  same_run cls (set_cell_state (set_hidden s h) c)
    (set_cell_state (set_hidden s' h) c').
Proof.
  intros Hw (Hc & Ho & Hd) Hcc.
  destruct s, s'. unfold same_run, same_stack_weights in *. cbn in *.
  auto 10.
Qed.

Lemma set_hidden_as_state (s : Recurrent R) h :
  set_hidden s h = set_cell_state (set_hidden s h) (cell_state s).
Proof. destruct s; reflexivity. Qed.

Lemma Encoder_forward_same cls (e e' : Encoder R) X g g' :
  same_stack_weights (enc_stack e) (enc_stack e') ->
  plain_stack cls (enc_stack e) ->
  sim any_generator
    (fun r r' => fst (snd r) = fst (snd r') /\
                 (cls = LSTM -> snd (snd r') = snd (snd r)))
    (Encoder_forward e X g) (Encoder_forward e' X g').
Proof.
  intros Hw Hp. unfold Encoder_forward.
  pose proof Hw as (Hb & Hr & _). pose proof Hp as (Hc & _).
  assert (Hcls : rnn_class (basic_rnn (enc_stack e)) = cls)
    by now inversion Hc.
  eapply (sim_bind any_generator
            (fun r r' => same_run cls (fst r) (fst r') /\ snd r = snd r')).
  { rewrite Hb. unfold is_LSTM. rewrite Hcls.
    destruct cls; cbn [RnnClass_eqb]; unfold bind, lift, ret, sim.
    - destruct (lstm_forward (basic_rnn (enc_stack e)) X None)
        as [[o [h c]]|err]; [|reflexivity].
      cbn. split; [split; [|reflexivity] | exact I].
      now apply same_run_intro.
    - destruct (gru_forward (basic_rnn (enc_stack e)) X None)
        as [[o h]|err]; [|reflexivity].
      cbn. split; [split; [|reflexivity] | exact I].
      rewrite (set_hidden_as_state (enc_stack e)),
        (set_hidden_as_state (enc_stack e')).
      apply same_run_intro; try assumption. discriminate.
    - destruct (gru_forward (basic_rnn (enc_stack e)) X None)
        as [[o h]|err]; [|reflexivity].
      cbn. split; [split; [|reflexivity] | exact I].
      rewrite (set_hidden_as_state (enc_stack e)),
        (set_hidden_as_state (enc_stack e')).
      apply same_run_intro; try assumption. discriminate. }
  intros [s1 x1] [s1' x1'] g1 g1' [Hs1 Hx] _. cbn in Hs1, Hx. subst x1'.
  destruct (same_run_fields _ _ _ Hs1) as (Ho & Hd & Ho' & Hd' & Hrs & _).
  cbn beta iota.
  rewrite (bind_ok _ _ _ _ _ (after_layer_plain s1 0 x1 g1 Ho Hd)).
  rewrite (bind_ok _ _ _ _ _ (after_layer_plain s1' 0 x1 g1' Ho' Hd')).
  cbn beta iota. rewrite Hrs.
  eapply sim_bind.
  { apply (stacked_layers_same_run cls); [|exact Hs1].
    destruct Hs1 as (_ & Hf & _). now inversion Hf. }
  intros [s3 x3] [s3' x3'] g3 g3' [Hs3 Hx] _. cbn in Hs3, Hx. subst x3'.
  apply sim_ret; [|exact I]. cbn. split; [reflexivity|].
  apply Hs3.
Qed.

Lemma Decoder_init_hidden_same cls (dec dec' : Decoder R) hs cs cs' g g' :
  same_stack_weights (dec_stack dec) (dec_stack dec') ->
  plain_stack cls (dec_stack dec) ->
  attn dec = None -> attn dec' = None ->
  regression dec' = regression dec ->
  (cls = LSTM -> cs' = cs) ->
  sim any_generator
    (fun d1 d1' => same_run cls (dec_stack d1) (dec_stack d1') /\
                   attn d1 = None /\ attn d1' = None /\
                   regression d1' = regression d1)
    (Decoder_init_hidden dec hs cs g) (Decoder_init_hidden dec' hs cs' g').
Proof.
  intros Hw Hp Ha Ha' Hr Hc. unfold Decoder_init_hidden.
  rewrite Ha, Ha'. cbn [is_some]. unfold bind, lift, ret, sim.
  destruct (getitem_axis1 r0 2 (Some (-1)%Z) None hs) as [hf|err];
    [|reflexivity].
  destruct (permute r0 [1; 0; 2] hf) as [hp|err]; [|reflexivity].
  destruct dec as [? ? ? s ? ? ? ? ? ?], dec' as [? ? ? s' ? ? ? ? ? ?].
  cbn in *. subst. split; [|exact I]. split; [|auto].
  apply same_run_intro; try assumption.
  intros Hl. rewrite (Hc Hl). reflexivity.
Qed.

Lemma Decoder_forward_same cls (dec dec' : Decoder R) X g g' :
  same_run cls (dec_stack dec) (dec_stack dec') ->
  attn dec = None -> attn dec' = None ->
  regression dec' = regression dec ->
  sim any_generator (fun r r' => snd r = snd r')
    (Decoder_forward dec X g) (Decoder_forward dec' X g').
Proof.
  intros Hs Ha Ha' Hr. unfold Decoder_forward.
  destruct (same_run_fields _ _ _ Hs) as (_ & _ & _ & _ & _ & Hb).
  pose proof Hs as (_ & Hf & _).
  eapply sim_bind.
  { rewrite Hb. apply (call_rnn_same_run cls); [|exact Hs].
    now inversion Hf. }
  intros [s1 x1] [s1' x1'] g1 g1' [Hs1 Hx] _. cbn in Hs1, Hx. subst x1'.
  destruct (same_run_fields _ _ _ Hs1) as (Ho & Hd & Ho' & Hd' & Hrs & _).
  cbn beta iota.
  rewrite (bind_ok _ _ _ _ _ (after_layer_plain s1 0 x1 g1 Ho Hd)).
  rewrite (bind_ok _ _ _ _ _ (after_layer_plain s1' 0 x1 g1' Ho' Hd')).
  cbn beta iota. rewrite Hrs.
  eapply sim_bind.
  { apply (stacked_layers_same_run cls); [|exact Hs1].
    destruct Hs1 as (_ & Hf1 & _). now inversion Hf1. }
  intros [s3 x3] [s3' x3'] g3 g3' [Hs3 Hx] _. cbn in Hs3, Hx. subst x3'.
  destruct dec as [dh df dd s ak av a lk lv rg],
    dec' as [dh' df' dd' s' ak' av' a' lk' lv' rg'].
  cbn in Ha, Ha', Hr. subst. cbn [set_dec_stack attn regression].
  unfold bind, lift, ret, sim.
  destruct (linear_forward rg x3) as [o|err]; [|reflexivity].
  cbn. now split.
Qed.

Lemma same_stack_weights_modules (s s' : Recurrent R) :
  modules s' = modules s -> same_stack_weights s s'.
Proof.
  intros Hm. destruct (modules_fields _ _ Hm) as (_ & ? & ? & ? & ? & ? & ?).
  unfold same_stack_weights. auto 10.
Qed.

Lemma same_stack_weights_trans (s1 s2 s3 : Recurrent R) :
  same_stack_weights s1 s2 -> same_stack_weights s2 s3 ->
  same_stack_weights s1 s3.
Proof.
  unfold same_stack_weights. intros (? & ? & ? & ? & ? & ?) (? & ? & ? & ? & ? & ?).
  repeat split; congruence.
Qed.

Lemma same_stack_weights_sym (s1 s2 : Recurrent R) :
  same_stack_weights s1 s2 -> same_stack_weights s2 s1.
Proof.
  unfold same_stack_weights. intros (? & ? & ? & ? & ? & ?).
  repeat split; congruence.
Qed.

Lemma same_weights_trans (m1 m2 m3 : EncoderDecoder R) :
  same_weights m1 m2 -> same_weights m2 m3 -> same_weights m1 m3.
Proof.
  unfold same_weights.
  intros (He & Hd & ? & ? & ? & ? & ? & ? & ?)
         (He' & Hd' & ? & ? & ? & ? & ? & ? & ?).
  split; [eapply same_stack_weights_trans; eauto|].
  split; [eapply same_stack_weights_trans; eauto|].
  repeat split; congruence.
Qed.

Lemma same_weights_sym (m1 m2 : EncoderDecoder R) :
  same_weights m1 m2 -> same_weights m2 m1.
Proof.
  unfold same_weights. intros (He & Hd & ? & ? & ? & ? & ? & ? & ?).
  split; [now apply same_stack_weights_sym|].
  split; [now apply same_stack_weights_sym|].
  repeat split; congruence.
Qed.

Lemma plain_stack_same cls (s s' : Recurrent R) :
  same_stack_weights s s' -> plain_stack cls s -> plain_stack cls s'.
Proof.
  intros (Hb & Hr & Ho & _ & _ & Hd) (Hc & Hon & Hdn).
  unfold plain_stack. rewrite Hb, Hr, Ho, Hd. auto.
Qed.

Lemma plain_model_same cls (m m' : EncoderDecoder R) :
  same_weights m m' -> plain_model cls m -> plain_model cls m'.
Proof.
  intros (He & Hd & _ & Ha & _) (Hpe & Hpd & Hat).
  split; [eapply plain_stack_same; eauto|].
  split; [eapply plain_stack_same; eauto | congruence].
Qed.

Lemma EncoderDecoder_forward_same cls (m1 m2 : EncoderDecoder R) X g g' :
  same_weights m1 m2 -> plain_model cls m1 ->
  value (EncoderDecoder_forward m1 X g) =
  value (EncoderDecoder_forward m2 X g').
Proof.
  intros Hw Hp. apply (sim_value any_generator).
  unfold EncoderDecoder_forward.
  pose proof Hw as (_ & _ & Hnf & _ & _ & _ & _ & Hil & Htl).
  rewrite Hil.
  do 3 (eapply sim_bind; [now apply sim_lift|];
        intros ? ? ? ? <- _).
  eapply (sim_bind any_generator
            (fun s s' => same_weights s s' /\ plain_model cls s)).
  { unfold init_outputs. rewrite Htl, Hnf.
    eapply sim_bind; [now apply sim_lift|]. intros o ? gz gz' <- _.
    apply sim_ret; [|exact I].
    destruct m1, m2. exact (conj Hw Hp). }
  intros self self' gs gs' [Hws Hps] _.
  pose proof Hws as (Hwe & Hwd & _ & Hat & _ & _ & Hrg & _).
  pose proof Hps as (Hpe & Hpd & Han).
  eapply sim_bind; [now apply (Encoder_forward_same cls)|].
  intros [e1 [hs cs]] [e1' [hs' cs']] ge ge' [Hhs Hcs] _. cbn in Hhs, Hcs.
  subst hs'. unfold set_encoder, set_decoder. cbn [decoder encoder].
  eapply sim_bind.
  { apply (Decoder_init_hidden_same cls); try exact Hcs; try assumption.
    congruence. }
  intros d1 d1' gi gi' (Hs1 & Ha1 & Ha1' & Hr1) _. cbn [decoder].
  eapply sim_bind; [now apply (Decoder_forward_same cls)|].
  intros [d2 out] [d2' out'] gd gd' Ho _. cbn in Ho. subst out'.
  now apply sim_ret.
Qed.

Lemma EncoderDecoder_forward_weights (m : EncoderDecoder R) X g m' out g' :
  dropouts (enc_stack (encoder m)) = [] ->
  dropouts (dec_stack (decoder m)) = [] ->
  EncoderDecoder_forward m X g = Ok ((m', out), g') ->
  same_weights m m' /\ g' = g.
Proof.
  intros Hde Hdd. unfold EncoderDecoder_forward. intros E.
  apply bind_inv in E. destruct E as (src & g1 & E1 & E).
  apply lift_inv in E1. destruct E1 as [_ ->].
  apply bind_inv in E. destruct E as (tgt & g1 & E1 & E).
  apply lift_inv in E1. destruct E1 as [_ ->].
  apply bind_inv in E. destruct E as (bs & g1 & E1 & E).
  apply lift_inv in E1. destruct E1 as [_ ->].
  apply bind_inv in E. destruct E as (self & g1 & E1 & E).
  unfold init_outputs in E1.
  apply bind_inv in E1. destruct E1 as (o & g2 & E2 & E1).
  apply lift_inv in E2. destruct E2 as [_ ->].
  apply ret_inv in E1. destruct E1 as [-> ->].
  cbn [set_outputs encoder decoder] in E.
  apply bind_inv in E. destruct E as ([e1 [hs cs]] & g1 & E1 & E).
  apply Encoder_forward_pure in E1; [|exact Hde].
  destruct E1 as [-> (se & He1 & Hme)]. cbn in He1. subst e1.
  cbn [set_encoder decoder encoder] in E.
  apply bind_inv in E. destruct E as (d1 & g1 & E1 & E).
  apply Decoder_init_hidden_inv in E1.
  destruct E1 as [-> (s1 & k & v & -> & Hm1)].
  cbn [set_decoder decoder] in E.
  apply bind_inv in E. destruct E as ([d2 out2] & g1 & E1 & E).
  apply Decoder_forward_pure in E1.
  2:{ cbn [dec_with dec_stack].
      destruct (modules_fields _ _ Hm1) as (_ & _ & _ & _ & _ & _ & Hd1).
      unfold set_encoder, set_outputs in Hd1. cbn [decoder] in Hd1.
      congruence. }
  destruct E1 as [-> (sd & Hd2 & Hmd)]. cbn in Hd2. subst d2.
  apply ret_inv in E. destruct E as [[= -> ->] ->].
  split; [|reflexivity].
  cbn [dec_with dec_stack] in Hmd.
  unfold set_encoder, set_outputs in Hm1. cbn [decoder] in Hm1.
  unfold set_decoder, set_encoder, set_outputs.
  unfold same_weights.
  cbn [set_decoder set_encoder encoder decoder set_enc_stack enc_stack
       set_dec_stack dec_with dec_stack enc_n_features attn linear_keys
       linear_values regression input_len target_len].
  split; [now apply same_stack_weights_modules|].
  split; [apply same_stack_weights_modules; congruence|].
  repeat split.
Qed.

Lemma create_plain f h cls layers L tf g0 (m : EncoderDecoder R) g1 :
  create_encoder_decoder_model f h cls layers L tf 0 None 0 g0
    = Ok (m, g1) ->
  plain_model cls m.
Proof.
  intros E. apply create_inv in E.
  destruct E as (He & Hd & _ & _ & Hat & _).
  assert (Hp : forall s : Recurrent R,
             init_post f h cls layers 0 None s -> plain_stack cls s).
  { intros s [Hb Hr _ Hdl _ Hn _ _ _ _]. cbn in Hn. destruct Hn as [Ho _].
    split; [|split; [exact Ho|]].
    - constructor; [apply Hb|].
      eapply Forall_impl; [|exact Hr]. intros a Ha. apply Ha.
    - replace ((1 <? layers)%Z && Qpositive 0) with false in Hdl
        by (now destruct (1 <? layers)%Z).
      destruct (dropouts s); [reflexivity | discriminate]. }
  split; [now apply Hp|]. split; [now apply Hp|].
  cbn in Hat. destruct (attn (decoder m)); [discriminate | reflexivity].
Qed.

(** C5: for a model built without normalization, with [dropout = 0] and
    without attention, any two calls of [forward] on the same input return
    the same result, whatever the states of the random generator, the
    training flags and the hidden and cell states the model objects hold,
    as long as the objects have the weights the constructor gave them; and
    a call draws nothing from the generator and leaves the weights in
    place, so that this holds for every later call as well. *)
Theorem forward_deterministic f h cls layers L tf g0
        (m : EncoderDecoder R) g1 (m1 m2 : EncoderDecoder R) X ga gb :
  create_encoder_decoder_model f h cls layers L tf 0 None 0 g0
    = Ok (m, g1) ->
  same_weights m m1 -> same_weights m m2 ->
  value (EncoderDecoder_forward m1 X ga) =
  value (EncoderDecoder_forward m2 X gb) /\
  (forall m1' out g',
     EncoderDecoder_forward m1 X ga = Ok ((m1', out), g') ->
     same_weights m m1' /\ g' = ga).
Proof.
  intros E H1 H2. pose proof (create_plain _ _ _ _ _ _ _ _ _ E) as Hp.
  pose proof (plain_model_same _ _ _ H1 Hp) as Hp1.
  split.
  - apply (EncoderDecoder_forward_same cls); [|exact Hp1].
    exact (same_weights_trans _ _ _ (same_weights_sym _ _ H1) H2).
  - intros m1' out g' E1.
    destruct Hp1 as ((_ & _ & Hde) & (_ & _ & Hdd) & _).
    destruct (EncoderDecoder_forward_weights _ _ _ _ _ _ Hde Hdd E1)
      as [Hw ->].
    split; [exact (same_weights_trans _ _ _ H1 Hw) | reflexivity].
Qed.

(** * Further properties of the code

    ** What the constructors accept *)

(** A [normalization] argument that is neither of the two names the
    constructors compare it with is ignored: the model is the one built
    with [normalization=None]. *)
Theorem create_unknown_normalization name f h cls layers L tf d heads g :
  name <> "BatchNormalization"%string ->
  name <> "LayerNormalization"%string ->
  create_encoder_decoder_model f h cls layers L tf d (Some name) heads g =
  create_encoder_decoder_model f h cls layers L tf d None heads g.
Proof.
  intros Hb Hl.
  apply String.eqb_neq in Hb. apply String.eqb_neq in Hl.
  unfold create_encoder_decoder_model, Encoder_init, Decoder_init,
    Recurrent_init, normalization_is.
  rewrite Hb, Hl. reflexivity.
Qed.

(** [num_rnn_layers] is only compared with 1: with 0 or a negative number
    of layers the constructors build what they build for one layer. *)
Theorem create_layers_below_one f h cls layers L tf d normalization heads g :
  (layers <= 1)%Z ->
  create_encoder_decoder_model f h cls layers L tf d normalization heads g =
  create_encoder_decoder_model f h cls 1 L tf d normalization heads g.
Proof.
  intros Hn.
  assert (E : (1 <? layers)%Z = false) by (apply Z.ltb_ge; exact Hn).
  unfold create_encoder_decoder_model, Encoder_init, Decoder_init,
    Recurrent_init.
  rewrite E. reflexivity.
Qed.

(** A negative [narrow_attn_heads] is not rejected: it disables the check
    of the assertion and the attention, as 0 does. *)
Theorem create_heads_below_one f h cls layers L tf d normalization heads g :
  (heads <= 0)%Z ->
  create_encoder_decoder_model f h cls layers L tf d normalization heads g =
  create_encoder_decoder_model f h cls layers L tf d normalization 0 g.
Proof.
  intros Hn.
  assert (E : (0 <? heads)%Z = false) by (apply Z.ltb_ge; exact Hn).
  unfold create_encoder_decoder_model, Decoder_init.
  rewrite E. reflexivity.
Qed.

Lemma comprehension_raises {A} (f : M G A) e l g :
  l <> [] -> f g = Raise e -> comprehension f l g = Raise e.
Proof.
  destruct l as [|x l]; [congruence|]. intros _ E.
  cbn [comprehension]. unfold bind. now rewrite E.
Qed.

Lemma bind_raise {A B} (m : M G A) (k : A -> M G B) g e :
  m g = Raise e -> bind m k g = Raise e.
Proof. intros E. unfold bind. now rewrite E. Qed.

Lemma Recurrent_init_dropout_above_one f h cls n d normalization g :
  (0 < f)%Z -> (0 < h)%Z -> (1 < n)%Z -> (1 < d)%Q ->
  Recurrent_init f h cls n d normalization g = Raise ValueError.
Proof.
  intros Hf Hh Hn Hd. unfold Recurrent_init.
  destruct (nn_rnn_ok cls f h g Hf Hh) as (b & g1 & Eb).
  rewrite (bind_ok _ _ _ _ _ Eb).
  assert (E : (1 <? n)%Z = true) by (apply Z.ltb_lt; exact Hn).
  rewrite E.
  destruct (comprehension_ok (nn_rnn cls h h)
              (fun g => nn_rnn_ok cls h h g Hh Hh) (range (n - 1)) g1)
    as (rs & g2 & Er).
  rewrite (bind_ok _ _ _ _ _ Er).
  assert (Hp : Qpositive d = true).
  { unfold Qpositive. apply negb_true_iff.
    destruct (Qle_bool d 0) eqn:E0; [|reflexivity].
    apply Qle_bool_iff in E0. exfalso.
    apply (Qlt_irrefl 1). eapply Qlt_le_trans; [exact Hd|].
    eapply Qle_trans; [exact E0|]. discriminate. }
  rewrite Hp. cbn [andb].
  apply bind_raise. apply comprehension_raises.
  - unfold range. destruct (Z.to_nat n) eqn:En; [lia | discriminate].
  - unfold nn_Dropout.
    assert (E1 : Qle_bool d 1 = false).
    { destruct (Qle_bool d 1) eqn:E1; [|reflexivity].
      apply Qle_bool_iff in E1. exfalso.
      apply (Qlt_irrefl 1). eapply Qlt_le_trans; eassumption. }
    rewrite E1, andb_false_r. reflexivity.
Qed.

(** A dropout probability above 1 is rejected by [nn.Dropout], with a
    [ValueError], and [nn.Dropout] is only called for a model of more than
    one layer: there the construction fails, whereas with one layer the
    same argument is accepted. *)
Theorem create_rejects_dropout_above_one
        f h cls layers L tf d normalization heads g :
  (0 < f)%Z -> (0 < h)%Z -> (1 < d)%Q ->
  ((0 < heads)%Z -> (h mod heads = 0)%Z) ->
  ((1 < layers)%Z ->
   create_encoder_decoder_model f h cls layers L tf d normalization heads g
   = Raise ValueError) /\
  ((layers <= 1)%Z ->
   returns
     (create_encoder_decoder_model f h cls layers L tf d normalization heads)
     g).
Proof.
  intros Hf Hh Hd Hheads. split.
  - intros Hn. unfold create_encoder_decoder_model.
    assert (E0 : (if (0 <? heads)%Z
                  then if (h mod heads =? 0)%Z then ret tt
                       else raise (AssertionError heads_message)
                  else ret tt) g = Ok (tt, g)).
    { destruct (0 <? heads)%Z eqn:E; [|reflexivity].
      apply Z.ltb_lt in E. rewrite (Hheads E). reflexivity. }
    rewrite (bind_ok _ _ _ _ _ E0).
    apply bind_raise. unfold Encoder_init. apply bind_raise.
    now apply Recurrent_init_dropout_above_one.
  - intros Hn. apply create_ok; try assumption.
    intros E. apply andb_prop in E. destruct E as [E _].
    apply Z.ltb_lt in E. lia.
Qed.

(** ** Arguments [forward] rejects *)

(** [X[:, :input_len, :]] needs three axes: on a tensor with fewer,
    [forward] raises an [IndexError] before anything else is done. *)
Theorem forward_rejects_low_rank (m : EncoderDecoder R) (X : Tensor R) g :
  length (shape X) < 3 ->
  EncoderDecoder_forward m X g = Raise IndexError.
Proof.
  intros Hr. unfold EncoderDecoder_forward, getitem_axis1.
  destruct (shape X) as [|a [|b [|c r]]]; cbn in Hr; try lia; reflexivity.
Qed.

(** [seq_len] is not checked when the model is built.  When it is
    negative, [torch.zeros] in [init_outputs] raises a [RuntimeError] on
    the first call of [forward], before the encoder is run.  The sizes
    are integers of 64 bits. *)
Theorem forward_rejects_negative_length (m : EncoderDecoder R)
        (X : Tensor R) g :
  int64 (target_len m) -> int64 (enc_n_features (encoder m)) ->
  (target_len m < 0)%Z -> 3 <= length (shape X) ->
  EncoderDecoder_forward m X g = Raise RuntimeError.
Proof.
  intros _ _ Hl Hr. unfold EncoderDecoder_forward, getitem_axis1, shape0.
  destruct (shape X) as [|a [|b [|c r]]] eqn:SX; cbn in Hr; try lia.
  cbn [length Nat.leb].
  destruct (slice_indices None (Some (input_len m)) b) as [lo hi].
  destruct (slice_indices (Some (input_len m)) None b) as [lo' hi'].
  cbn [bind lift]. unfold init_outputs, torch_zeros. cbn [forallb].
  assert (E : (0 <=? target_len m)%Z = false) by (apply Z.leb_gt; exact Hl).
  rewrite E, andb_false_r. reflexivity.
Qed.

(** ** What [forward] assigns *)

Lemma apply_normalization_cell (s : Recurrent R) t g s' out g' :
  apply_normalization s t g = Ok ((s', out), g') ->
  cell_state s = None -> cell_state s' = None.
Proof.
  unfold apply_normalization.
  destruct s as [tr hid cs br rs on hn cn ds]. simp.
  intros E Hc. subst cs. revert E.
  repeat (break_match; simp; try discriminate);
    intros E; injection E as <- <- <-; reflexivity.
Qed.

Lemma apply_dropout_inv (s : Recurrent R) i t g s' out g' :
  apply_dropout s i t g = Ok ((s', out), g') ->
  modules s' = modules s /\ (cell_state s = None -> cell_state s' = None).
Proof.
  unfold apply_dropout, dropouts_getitem, modules.
  destruct s as [tr hid cs br rs on hn cn ds]. simp.
  repeat (break_match; simp; try discriminate);
    intros E; injection E as <- <- <-; split;
    first [reflexivity | intros; assumption | discriminate].
Qed.

Lemma after_layer_frame (s : Recurrent R) i t g s' out g' :
  after_layer s i t g = Ok ((s', out), g') ->
  modules s' = modules s /\ (cell_state s = None -> cell_state s' = None).
Proof.
  unfold after_layer. intros E.
  apply bind_inv in E. destruct E as ([s1 t1] & g1 & E1 & E).
  assert (H1 : modules s1 = modules s /\
               (cell_state s = None -> cell_state s1 = None)).
  { destruct (is_some (out_normalization s)).
    - split; [now apply apply_normalization_inv in E1|].
      exact (apply_normalization_cell _ _ _ _ _ _ E1).
    - apply ret_inv in E1. destruct E1 as [[= -> ->] ->]. now split. }
  destruct H1 as [Hm Hc].
  destruct ((0 <? length (dropouts s1)) && training s1).
  - apply apply_dropout_inv in E. destruct E as [Hm2 Hc2].
    split; [congruence | auto].
  - apply ret_inv in E. destruct E as [[= -> ->] ->]. now split.
Qed.

Lemma call_rnn_cell (m : RnnModule R) (s : Recurrent R) x g s' out g' :
  call_rnn m s x g = Ok ((s', out), g') ->
  is_LSTM m = false -> cell_state s' = cell_state s.
Proof.
  unfold call_rnn. intros E Hm. rewrite Hm in E.
  apply bind_inv in E. destruct E as ([o h] & g1 & _ & E).
  apply ret_inv in E. destruct E as [[= -> ->] _].
  destruct s; reflexivity.
Qed.

Lemma stacked_layers_frame (layers : list (RnnModule R)) :
  forall (s : Recurrent R) i x g s' out g',
    stacked_layers s i layers x g = Ok ((s', out), g') ->
    modules s' = modules s /\
    (Forall (fun m => is_LSTM m = false) layers ->
     cell_state s = None -> cell_state s' = None).
Proof.
  induction layers as [|m layers IH]; intros s i x g s' out g' E;
    cbn [stacked_layers] in E.
  - apply ret_inv in E. destruct E as [[= -> ->] ->]. now split.
  - apply bind_inv in E. destruct E as ([s1 x1] & g1 & E1 & E).
    pose proof (call_rnn_cell _ _ _ _ _ _ _ E1) as Hc1.
    apply call_rnn_inv in E1. destruct E1 as [-> Hm1].
    apply bind_inv in E. destruct E as ([s2 x2] & g2 & E2 & E).
    apply after_layer_frame in E2. destruct E2 as [Hm2 Hc2].
    apply IH in E. destruct E as [Hm3 Hc3].
    split; [congruence|].
    intros Hl Hc. inversion Hl as [|? ? Hm Hl']; subst.
    apply Hc3; [exact Hl'|]. apply Hc2. rewrite (Hc1 Hm). exact Hc.
Qed.

Lemma Encoder_forward_frame (e : Encoder R) X g e' r g' :
  Encoder_forward e X g = Ok ((e', r), g') ->
  exists s', e' = set_enc_stack e s' /\ snd r = cell_state s' /\
             modules s' = modules (enc_stack e) /\
             (Forall (fun m => is_LSTM m = false)
                (basic_rnn (enc_stack e) :: rnns (enc_stack e)) ->
              cell_state (enc_stack e) = None -> cell_state s' = None).
Proof.
  unfold Encoder_forward. intros E.
  apply bind_inv in E. destruct E as ([s1 x1] & g1 & E1 & E).
  assert (H1 : modules s1 = modules (enc_stack e) /\
               (is_LSTM (basic_rnn (enc_stack e)) = false ->
                cell_state s1 = cell_state (enc_stack e))).
  { destruct (enc_stack e) as [tr hid cs br rs on hn cn ds].
    unfold modules. cbn [basic_rnn] in *.
    destruct (is_LSTM br);
      apply bind_inv in E1; destruct E1 as (r1 & g2 & E1 & E2);
      apply lift_inv in E1; destruct E1 as [_ ->].
    - destruct r1 as [o [h c]]. apply ret_inv in E2.
      destruct E2 as [[= -> ->] ->]. split; [reflexivity | discriminate].
    - destruct r1 as [o h]. apply ret_inv in E2.
      destruct E2 as [[= -> ->] ->]. now split. }
  destruct H1 as [Hm1 Hc1].
  destruct (modules_fields _ _ Hm1) as (_ & _ & Hr1 & _).
  apply bind_inv in E. destruct E as ([s2 x2] & g2 & E2 & E).
  apply after_layer_frame in E2. destruct E2 as [Hm2 Hc2].
  destruct (modules_fields _ _ Hm2) as (_ & _ & Hr2 & _).
  apply bind_inv in E. destruct E as ([s3 x3] & g3 & E3 & E).
  apply stacked_layers_frame in E3. destruct E3 as [Hm3 Hc3].
  apply ret_inv in E. destruct E as [[= -> ->] _].
  exists s3. split; [reflexivity|]. split; [reflexivity|].
  split; [congruence|].
  intros Hl Hc. inversion Hl as [|? ? Hb Hl']; subst.
  apply Hc3; [congruence|]. apply Hc2. rewrite (Hc1 Hb). exact Hc.
Qed.

Lemma Decoder_forward_frame (dec : Decoder R) X g d' out g' :
  Decoder_forward dec X g = Ok ((d', out), g') ->
  exists s', d' = set_dec_stack dec s' /\
             modules s' = modules (dec_stack dec).
Proof.
  unfold Decoder_forward. intros E.
  apply bind_inv in E. destruct E as ([s1 x1] & g1 & E1 & E).
  apply call_rnn_inv in E1. destruct E1 as [-> Hm1].
  apply bind_inv in E. destruct E as ([s2 x2] & g2 & E2 & E).
  apply after_layer_frame in E2. destruct E2 as [Hm2 _].
  apply bind_inv in E. destruct E as ([s3 x3] & g3 & E3 & E).
  apply stacked_layers_frame in E3. destruct E3 as [Hm3 _].
  apply bind_inv in E. destruct E as (y & g4 & _ & E).
  apply bind_inv in E. destruct E as (o & g5 & _ & E).
  apply ret_inv in E. destruct E as [[= -> ->] _].
  exists s3. split; [reflexivity | congruence].
Qed.

Lemma Decoder_init_hidden_keys (dec : Decoder R) hs cs g d1 g' :
  Decoder_init_hidden dec hs cs g = Ok (d1, g') ->
  attn dec = None ->
  attn_keys d1 = attn_keys dec /\ attn_values d1 = attn_values dec.
Proof.
  unfold Decoder_init_hidden. intros E Ha. rewrite Ha in E.
  cbn [is_some] in E. rewrite bind_ret in E.
  apply bind_inv in E. destruct E as (hf & g1 & _ & E).
  apply bind_inv in E. destruct E as (hp & g2 & _ & E).
  apply ret_inv in E. destruct E as [-> _].
  destruct dec; split; reflexivity.
Qed.

(** The parts of the model a call of [forward] returns. *)
Lemma EncoderDecoder_forward_parts (m : EncoderDecoder R) X g m' out g' :
  EncoderDecoder_forward m X g = Ok ((m', out), g') ->
  exists se sd k v o,
    m' = mkEncoderDecoder (set_enc_stack (encoder m) se)
           (dec_with (decoder m) sd k v) (input_len m) (target_len m)
           (teacher_forcing_prob m) (Some o) /\
    modules se = modules (enc_stack (encoder m)) /\
    modules sd = modules (dec_stack (decoder m)) /\
    (Forall (fun l => is_LSTM l = false)
       (basic_rnn (enc_stack (encoder m)) :: rnns (enc_stack (encoder m))) ->
     cell_state (enc_stack (encoder m)) = None -> cell_state se = None) /\
    (attn (decoder m) = None ->
     k = attn_keys (decoder m) /\ v = attn_values (decoder m)).
Proof.
  unfold EncoderDecoder_forward. intros E.
  apply bind_inv in E. destruct E as (src & g1 & _ & E).
  apply bind_inv in E. destruct E as (tgt & g2 & _ & E).
  apply bind_inv in E. destruct E as (bs & g3 & _ & E).
  apply bind_inv in E. destruct E as (m1 & g4 & E1 & E).
  unfold init_outputs in E1.
  apply bind_inv in E1. destruct E1 as (o & g5 & _ & E1).
  apply ret_inv in E1. destruct E1 as [-> _].
  apply bind_inv in E. destruct E as ([e1 [hs cs]] & g6 & E2 & E).
  cbn [set_outputs encoder] in E2.
  apply Encoder_forward_frame in E2.
  destruct E2 as (se & -> & _ & Hme & Hce).
  apply bind_inv in E. destruct E as (d1 & g7 & E3 & E).
  cbn [set_encoder set_outputs decoder] in E3.
  pose proof (Decoder_init_hidden_keys _ _ _ _ _ _ E3) as Hk.
  apply Decoder_init_hidden_inv in E3.
  destruct E3 as (_ & s1 & k & v & -> & Hm1).
  apply bind_inv in E. destruct E as ([d2 out2] & g8 & E4 & E).
  cbn [set_decoder decoder] in E4.
  apply Decoder_forward_frame in E4. destruct E4 as (sd & -> & Hmd).
  apply ret_inv in E. destruct E as [[= -> ->] _].
  exists se, sd, k, v, o. split; [|split; [|split; [|split]]].
  - destruct m as [e d il tl tf os], d. reflexivity.
  - exact Hme.
  - destruct (decoder m); cbn [dec_with dec_stack] in *. congruence.
  - exact Hce.
  - intros Ha. destruct (Hk Ha) as [Ek Ev].
    destruct (decoder m); cbn in *. now split.
Qed.

(** [forward] assigns the states of the two stacks, the keys and values
    of the attention and the buffer [outputs], and nothing else: the
    layers with their parameters, the training flags and the
    configuration of the model are those of the call.  (What a PyTorch
    layer updates inside itself when it is called, the running statistics
    of [nn.BatchNorm1d], is not an attribute of this code.) *)
Theorem forward_assigns_state_only (m : EncoderDecoder R) X g m' out g' :
  EncoderDecoder_forward m X g = Ok ((m', out), g') ->
  erase_state m' = erase_state m.
Proof.
  intros E. apply EncoderDecoder_forward_parts in E.
  destruct E as (se & sd & k & v & o & -> & Hme & Hmd & _).
  unfold erase_state.
  cbn [encoder decoder input_len target_len teacher_forcing_prob
       set_enc_stack enc_stack dec_with dec_stack enc_hidden_dim
       enc_n_features enc_dropout dec_hidden_dim dec_n_features dec_dropout
       attn linear_keys linear_values regression].
  rewrite Hme, Hmd. reflexivity.
Qed.

(** ** The random generator *)

Lemma ig_ret {A} (a : A) : ignores_generator (G := G) (ret a).
Proof. intros g g'. reflexivity. Qed.

Lemma ig_lift {A} (r : Res A) : ignores_generator (G := G) (lift r).
Proof. intros g g'. unfold lift. destruct r; reflexivity. Qed.

Lemma ig_bind {A B} (m : M G A) (k : A -> M G B) :
  ignores_generator m ->
  (forall a g, m g = Ok (a, g) -> ignores_generator (k a)) ->
  ignores_generator (bind m k).
Proof.
  intros Hm Hk g g'. unfold bind. rewrite (Hm g g').
  pose proof (Hm g g) as Hg.
  destruct (m g) as [[a g1]|e] eqn:E; cbn [regen] in *; [|reflexivity].
  injection Hg as ->. exact (Hk a g E g g').
Qed.

Ltac ig_step :=
  match goal with
  | |- ignores_generator (ret _) => apply ig_ret
  | |- ignores_generator (lift _) => apply ig_lift
  | |- ignores_generator (bind _ _) => apply ig_bind; [ | intros ? ? _ ]
  | |- ignores_generator (if ?b then _ else _) => destruct b
  | |- ignores_generator (match ?x with _ => _ end) => destruct x
  end.

Lemma ig_apply_normalization (s : Recurrent R) t :
  ignores_generator (apply_normalization s t).
Proof. unfold apply_normalization. repeat ig_step. Qed.

Lemma ig_call_rnn (m : RnnModule R) (s : Recurrent R) x :
  ignores_generator (call_rnn m s x).
Proof. unfold call_rnn. repeat ig_step. Qed.

Lemma no_dropout_modules (s s' : Recurrent R) :
  modules s' = modules s -> no_dropout s -> no_dropout s'.
Proof.
  intros Hm Hn.
  destruct (modules_fields _ _ Hm) as (Et & _ & _ & _ & _ & _ & Ed).
  unfold no_dropout. rewrite Et, Ed. exact Hn.
Qed.

Lemma no_dropout_guard (s : Recurrent R) :
  no_dropout s -> (0 <? length (dropouts s)) && training s = false.
Proof.
  intros [-> | ->]; [apply andb_false_r | reflexivity].
Qed.

Lemma ig_after_layer (s : Recurrent R) i t :
  no_dropout s -> ignores_generator (after_layer s i t).
Proof.
  intros Hn. unfold after_layer. apply ig_bind.
  - destruct (is_some (out_normalization s));
      [apply ig_apply_normalization | apply ig_ret].
  - intros [s1 t1] g E.
    assert (Hm : modules s1 = modules s).
    { destruct (is_some (out_normalization s)).
      - now apply apply_normalization_inv in E.
      - apply ret_inv in E. destruct E as [[= -> ->] _]. reflexivity. }
    rewrite (no_dropout_guard _ (no_dropout_modules _ _ Hm Hn)).
    apply ig_ret.
Qed.

Lemma ig_stacked_layers (layers : list (RnnModule R)) :
  forall (s : Recurrent R) i x,
    no_dropout s -> ignores_generator (stacked_layers s i layers x).
Proof.
  induction layers as [|m layers IH]; intros s i x Hn; cbn [stacked_layers].
  - apply ig_ret.
  - apply ig_bind; [apply ig_call_rnn|]. intros [s1 x1] g E1.
    apply call_rnn_inv in E1. destruct E1 as [_ Hm1].
    pose proof (no_dropout_modules _ _ Hm1 Hn) as Hn1.
    apply ig_bind; [now apply ig_after_layer|]. intros [s2 x2] g2 E2.
    apply after_layer_frame in E2. destruct E2 as [Hm2 _].
    apply IH. exact (no_dropout_modules _ _ Hm2 Hn1).
Qed.

Lemma ig_Encoder_forward (e : Encoder R) X :
  no_dropout (enc_stack e) -> ignores_generator (Encoder_forward e X).
Proof.
  intros Hn. unfold Encoder_forward. apply ig_bind.
  - repeat ig_step.
  - intros [s1 x1] g E1.
    assert (Hm1 : modules s1 = modules (enc_stack e)).
    { destruct (enc_stack e) as [tr hid cs br rs on hn cn ds].
      unfold modules. cbn [basic_rnn] in *.
      destruct (is_LSTM br);
        apply bind_inv in E1; destruct E1 as (r1 & g2 & E1 & E2);
        apply lift_inv in E1; destruct E1 as [_ ->].
      - destruct r1 as [o [h c]]. apply ret_inv in E2.
        destruct E2 as [[= -> ->] _]. reflexivity.
      - destruct r1 as [o h]. apply ret_inv in E2.
        destruct E2 as [[= -> ->] _]. reflexivity. }
    pose proof (no_dropout_modules _ _ Hm1 Hn) as Hn1.
    apply ig_bind; [now apply ig_after_layer|]. intros [s2 x2] g2 E2.
    apply after_layer_frame in E2. destruct E2 as [Hm2 _].
    pose proof (no_dropout_modules _ _ Hm2 Hn1) as Hn2.
    apply ig_bind; [now apply ig_stacked_layers|]. intros [s3 x3] g3 _.
    apply ig_ret.
Qed.

Lemma ig_Decoder_init_hidden (dec : Decoder R) hs cs :
  ignores_generator (Decoder_init_hidden dec hs cs).
Proof.
  unfold Decoder_init_hidden, Decoder_init_attn_key_values.
  repeat ig_step.
Qed.

Lemma ig_Decoder_forward (dec : Decoder R) X :
  no_dropout (dec_stack dec) -> ignores_generator (Decoder_forward dec X).
Proof.
  intros Hn. unfold Decoder_forward.
  apply ig_bind; [apply ig_call_rnn|]. intros [s1 x1] g E1.
  apply call_rnn_inv in E1. destruct E1 as [_ Hm1].
  pose proof (no_dropout_modules _ _ Hm1 Hn) as Hn1.
  apply ig_bind; [now apply ig_after_layer|]. intros [s2 x2] g2 E2.
  apply after_layer_frame in E2. destruct E2 as [Hm2 _].
  pose proof (no_dropout_modules _ _ Hm2 Hn1) as Hn2.
  apply ig_bind; [now apply ig_stacked_layers|]. intros [s3 x3] g3 _.
  repeat ig_step.
Qed.

(** In evaluation mode, and in any mode when no dropout module was built,
    [forward] neither reads nor advances the random generator: from two
    states of the generator it raises the same exception or returns the
    same model and the same tensor, and leaves the state it was given. *)
Theorem forward_ignores_generator (m : EncoderDecoder R) X g g' :
  no_dropout (enc_stack (encoder m)) ->
  no_dropout (dec_stack (decoder m)) ->
  EncoderDecoder_forward m X g' = regen g' (EncoderDecoder_forward m X g).
Proof.
  intros Hne Hnd. revert g g'.
  change (ignores_generator (EncoderDecoder_forward m X)).
  unfold EncoderDecoder_forward.
  do 3 (apply ig_bind; [apply ig_lift|]; intros ? ? _).
  apply ig_bind; [unfold init_outputs; repeat ig_step|].
  intros m1 gm E1. unfold init_outputs in E1.
  apply bind_inv in E1. destruct E1 as (o & go & _ & E1).
  apply ret_inv in E1. destruct E1 as [-> _].
  cbn [set_outputs encoder decoder].
  apply ig_bind; [now apply ig_Encoder_forward|].
  intros [e1 [hs cs]] ge _.
  cbn [set_encoder decoder].
  apply ig_bind; [apply ig_Decoder_init_hidden|].
  intros d1 gd E4. apply Decoder_init_hidden_inv in E4.
  destruct E4 as (_ & s1 & k & v & -> & Hm1).
  cbn [set_decoder set_encoder set_outputs decoder] in *.
  apply ig_bind; [|intros [d2 o2] ? _; apply ig_ret].
  apply ig_Decoder_forward.
  destruct (decoder m); cbn [dec_with dec_stack] in *.
  exact (no_dropout_modules _ _ Hm1 Hnd).
Qed.

(** ** What one call of [forward] leaves to the next *)

Lemma bind_ext {A B} (m : M G A) (k k' : A -> M G B) g :
  (forall a g1, m g = Ok (a, g1) -> k a g1 = k' a g1) ->
  bind m k g = bind m k' g.
Proof.
  intros H. unfold bind. destruct (m g) as [[a g1]|e]; [now apply H|].
  reflexivity.
Qed.

Lemma Encoder_forward_forget (e : Encoder R) X g :
  Encoder_forward
    (set_enc_stack e
       (set_hidden
          (if is_LSTM (basic_rnn (enc_stack e))
           then set_cell_state (enc_stack e) None else enc_stack e)
          None)) X g
  = Encoder_forward e X g.
Proof.
  destruct e as [hd nf dr [tr hid cs br rs on hn cn ds]].
  unfold Encoder_forward.
  cbn [set_enc_stack enc_stack basic_rnn enc_hidden_dim enc_n_features
       enc_dropout].
  destruct (is_LSTM br) eqn:Eb;
    cbn [set_hidden set_cell_state basic_rnn training hidden cell_state
         rnns out_normalization hidden_normalization cell_normalization
         dropouts];
    rewrite Eb; reflexivity.
Qed.

Lemma Decoder_init_hidden_forget (d : Decoder R) hs cs g :
  Decoder_init_hidden
    (dec_with d (modules (dec_stack d))
       (if is_some (attn d) then None else attn_keys d)
       (if is_some (attn d) then None else attn_values d)) hs cs g
  = Decoder_init_hidden d hs cs g.
Proof.
  destruct d as [hd nf dr [tr hid c0 br rs on hn cn ds] ak av a lk lv rg].
  unfold Decoder_init_hidden, Decoder_init_attn_key_values.
  cbn [dec_with attn is_some linear_keys linear_values attn_keys
       attn_values set_attn_key_values].
  unfold bind, lift, ret.
  destruct a as [a|]; cbn [is_some];
    [destruct (call_linear lk hs); [|reflexivity];
     destruct (call_linear lv hs); [|reflexivity] |];
    (destruct (getitem_axis1 r0 2 (Some (-1)%Z) None hs) as [hf|];
     [|reflexivity];
     destruct (permute r0 [1; 0; 2] hf); reflexivity).
Qed.

Lemma bind_map {A A' B} (f : A -> A') (m : M G A) (m' : M G A')
      (k : A -> M G B) (k' : A' -> M G B) g :
  m' g = match m g with
         | Ok (a, g1) => Ok (f a, g1)
         | Raise e => Raise e
         end ->
  (forall a g1, m g = Ok (a, g1) -> k' (f a) g1 = k a g1) ->
  bind m' k' g = bind m k g.
Proof.
  intros Hm Hk. unfold bind. rewrite Hm.
  destruct (m g) as [[a g1]|e]; [now apply Hk | reflexivity].
Qed.

Lemma bind_same {A B} (m m' : M G A) (k k' : A -> M G B) g :
  m' g = m g ->
  (forall a g1, m g = Ok (a, g1) -> k' a g1 = k a g1) ->
  bind m' k' g = bind m k g.
Proof.
  intros Hm Hk. unfold bind. rewrite Hm.
  destruct (m g) as [[a g1]|e]; [now apply Hk | reflexivity].
Qed.

Lemma EncoderDecoder_forward_forget (m : EncoderDecoder R) X g :
  EncoderDecoder_forward (forget m) X g = EncoderDecoder_forward m X g.
Proof.
  unfold EncoderDecoder_forward.
  change (input_len (forget m)) with (input_len m).
  do 3 (apply bind_ext; intros ? ? _).
  apply (bind_map (fun self => set_outputs (forget m) (outputs self))).
  { unfold init_outputs.
    change (target_len (forget m)) with (target_len m).
    change (enc_n_features (encoder (forget m)))
      with (enc_n_features (encoder m)).
    unfold bind, lift, ret.
    match goal with
    | |- context [torch_zeros ?z ?l] => destruct (torch_zeros z l)
    end; reflexivity. }
  intros m1 gm E1. unfold init_outputs in E1.
  apply bind_inv in E1. destruct E1 as (o & go & _ & E1).
  apply ret_inv in E1. destruct E1 as [-> _].
  apply bind_same; [apply Encoder_forward_forget|].
  intros [e1 [hs cs]] ge _.
  apply bind_same; [apply Decoder_init_hidden_forget|].
  intros d1 gd _.
  reflexivity.
Qed.

Lemma modules_as_forget (s s' : Recurrent R) :
  modules s' = modules s ->
  (is_LSTM (basic_rnn s) = false -> cell_state s' = cell_state s) ->
  set_hidden (if is_LSTM (basic_rnn s') then set_cell_state s' None else s')
    None =
  set_hidden (if is_LSTM (basic_rnn s) then set_cell_state s None else s)
    None.
Proof.
  intros Hm Hc.
  destruct (modules_fields _ _ Hm) as (Et & Eb & Er & Eo & Eh & Ec & Ed).
  rewrite Eb.
  destruct s as [tr hid cs br rs on hn cn ds],
           s' as [tr' hid' cs' br' rs' on' hn' cn' ds'].
  cbn in *. subst.
  destruct (is_LSTM br); [reflexivity|].
  rewrite (Hc eq_refl). reflexivity.
Qed.

Lemma forget_after_forward (m : EncoderDecoder R) X g m' out g' :
  EncoderDecoder_forward m X g = Ok ((m', out), g') ->
  is_LSTM (basic_rnn (enc_stack (encoder m))) = true \/
  (Forall (fun l => is_LSTM l = false)
     (basic_rnn (enc_stack (encoder m)) :: rnns (enc_stack (encoder m))) /\
   cell_state (enc_stack (encoder m)) = None) ->
  forget m' = forget m.
Proof.
  intros E Hcls. apply EncoderDecoder_forward_parts in E.
  destruct E as (se & sd & k & v & o & -> & Hme & Hmd & Hce & Hk).
  unfold forget.
  cbn [encoder decoder input_len target_len teacher_forcing_prob].
  f_equal.
  - destruct (encoder m) as [hd nf dr s0]. unfold set_enc_stack.
    cbn [enc_stack enc_hidden_dim enc_n_features enc_dropout] in *.
    f_equal. apply modules_as_forget; [exact Hme|].
    intros Hb. destruct Hcls as [Hl | [Hl Hn]]; [congruence|].
    rewrite Hn. now apply Hce.
  - destruct (decoder m) as [hd nf dr s0 ak av a lk lv rg]. unfold dec_with.
    cbn [dec_stack attn attn_keys attn_values dec_hidden_dim
         dec_n_features dec_dropout linear_keys linear_values regression]
      in *.
    rewrite Hmd.
    destruct a as [a|]; cbn [is_some]; [reflexivity|].
    destruct (Hk eq_refl) as [-> ->]. reflexivity.
Qed.

Lemma layer_ok_is_LSTM cls i h (l : RnnModule R) :
  layer_ok cls i h l -> is_LSTM l = RnnClass_eqb cls LSTM.
Proof. intros (E & _). unfold is_LSTM. now rewrite E. Qed.

(** No state is carried from one call of [forward] to the next.  On a
    model as it is built, in either mode, after any call of [forward]
    that returned, every later call does exactly what it does on the
    model before that call: the hidden and cell states, the keys and
    values of the attention and the buffer [outputs] the first call left
    are all assigned again before they are read.  (The buffers the
    PyTorch layers keep for themselves, the running statistics of
    [nn.BatchNorm1d], are not attributes of this code.) *)
Theorem forward_no_carry_over
        f h cls layers L tf d normalization heads g0
        (m : EncoderDecoder R) g1 mode X1 ga m1 out1 gb :
  create_encoder_decoder_model f h cls layers L tf d normalization heads g0
    = Ok (m, g1) ->
  EncoderDecoder_forward (train mode m) X1 ga = Ok ((m1, out1), gb) ->
  forall X g,
    EncoderDecoder_forward m1 X g = EncoderDecoder_forward (train mode m) X g.
Proof.
  intros Ec E X g.
  rewrite <- (EncoderDecoder_forward_forget m1),
          <- (EncoderDecoder_forward_forget (train mode m)).
  replace (forget m1) with (forget (train mode m)); [reflexivity|].
  symmetry. eapply forget_after_forward; [exact E|].
  apply create_inv in Ec. destruct Ec as (He & _).
  destruct He as [Hb Hr _ _ _ _ _ _ Hc _].
  destruct m as [[hd nf dr s0] dec il tl tfp os].
  cbn [train encoder set_encoder set_decoder enc_stack set_training
       basic_rnn rnns cell_state] in *.
  destruct cls; [left | right | right];
    try (rewrite (layer_ok_is_LSTM _ _ _ _ Hb); reflexivity);
    (split; [|exact Hc]; constructor;
     [ rewrite (layer_ok_is_LSTM _ _ _ _ Hb); reflexivity
     | eapply Forall_impl; [|exact Hr];
       intros l Hl; rewrite (layer_ok_is_LSTM _ _ _ _ Hl); reflexivity ]).
Qed.

(** ** Shapes *)

Lemma stack_ok_train cls f h (s : Recurrent R) mode :
  stack_ok cls f h s -> stack_ok cls f h (set_training s mode).
Proof. destruct s. exact (fun H => H). Qed.

Lemma init_post_batch_ok f h cls n d normalization (s : Recurrent R)
      mode N :
  init_post f h cls n d normalization s -> 0 < N ->
  (normalization_is normalization "BatchNormalization" = true ->
   mode = true -> 1 < N) ->
  batch_ok (set_training s mode) N.
Proof.
  intros Hp HN Hb.
  pose proof (init_post_batch _ _ _ _ _ _ _ Hp) as Pb.
  destruct s. unfold batch_ok. cbn in *. auto.
Qed.

(** The contract of the [Encoder]: built for [n_features = f] and
    [hidden_dim = h], in either mode, on an input of shape [(N, L, f)] it
    returns a hidden sequence of shape [(N, L, h)] and its cell state,
    which has shape [(1, N, h)] for LSTM layers and is [None] for the
    other classes, and it holds a hidden state of shape [(1, N, h)]. *)
Theorem Encoder_forward_shapes f h cls n d normalization g0
        (e : Encoder R) g1 mode X N L g :
  Encoder_init f h cls n d normalization g0 = Ok (e, g1) ->
  (0 < f)%Z -> (0 < h)%Z -> 0 < N -> 0 < L ->
  (normalization_is normalization "BatchNormalization" = true ->
   mode = true -> 1 < N) ->
  shape X = [N; L; Z.to_nat f] ->
  exists e' hs cs g',
    Encoder_forward (Encoder_train mode e) X g = Ok ((e', (hs, cs)), g') /\
    shape hs = [N; L; Z.to_nat h] /\
    (exists hd, hidden (enc_stack e') = Some hd /\
                shape hd = [1; N; Z.to_nat h]) /\
    cell_state (enc_stack e') = cs /\
    (cls = LSTM -> exists c, cs = Some c /\ shape c = [1; N; Z.to_nat h]) /\
    (cls <> LSTM -> cs = None).
Proof.
  intros Ei Hf Hh HN HL Hb SX.
  apply Encoder_init_inv in Ei. destruct Ei as (Hp & Hnf & _).
  assert (Hok : encoder_ok cls f h (Encoder_train mode e)).
  { split; [|split].
    - apply stack_ok_train. eapply init_post_stack_ok; eauto.
    - exact Hnf.
    - intros _. destruct e as [? ? ? s]. cbn.
      destruct Hp as [_ _ _ _ _ _ _ _ Hc _]. destruct s. exact Hc. }
  destruct (Encoder_forward_run cls f h (Encoder_train mode e) X N L g)
    as (s' & hs & g' & E & (Shs & (Hhd & Hcs) & _ & Hl & _) & Hg);
    try assumption.
  { destruct e as [? ? ? s]. cbn.
    eapply init_post_batch_ok; eauto. }
  exists (set_enc_stack (Encoder_train mode e) s'), hs, (cell_state s'), g'.
  split; [exact E|]. split; [exact Shs|].
  split; [exact Hhd|]. split; [reflexivity|]. split.
  - intros Hc. specialize (Hl Hc).
    destruct (cell_state s') as [c|] eqn:Ec; [|discriminate].
    exists c. split; [reflexivity|]. now apply Hcs.
  - exact Hg.
Qed.

(** The contract of the [Decoder]: after [init_hidden] on a hidden
    sequence of [S] steps, [forward] on an input of [L] steps returns one
    prediction of [n_features] values for each of the [L] steps, whatever
    [S] is: with attention the keys and values have [S] steps and the
    queries [L]. *)
Theorem Decoder_forward_shape f h cls n d normalization heads g0
        (dec : Decoder R) g1 mode hs cs X N S L g :
  Decoder_init f h cls n d normalization heads g0 = Ok (dec, g1) ->
  (0 < f)%Z -> (0 < h)%Z -> ((0 < heads)%Z -> (h mod heads = 0)%Z) ->
  0 < N -> 0 < S -> 0 < L ->
  (normalization_is normalization "BatchNormalization" = true ->
   mode = true -> 1 < N) ->
  shape hs = [N; S; Z.to_nat h] ->
  (forall c, cs = Some c -> shape c = [1; N; Z.to_nat h]) ->
  shape X = [N; L; Z.to_nat f] ->
  exists d1 d2 out g',
    Decoder_init_hidden (Decoder_train mode dec) hs cs g = Ok (d1, g) /\
    Decoder_forward d1 X g = Ok ((d2, out), g') /\
    shape out = [N; L; Z.to_nat f].
Proof.
  intros Ei Hf Hh Hheads HN HS HL Hb Shs Scs SX.
  apply Decoder_init_inv in Ei. destruct Ei as (Hp & Ha & _).
  specialize (Ha Hheads).
  set (d0 := Decoder_train mode dec).
  assert (Hs0 : stack_ok cls f h (dec_stack d0)).
  { subst d0. destruct dec as [? ? ? s ? ? ? ? ? ?]. cbn.
    apply stack_ok_train. eapply init_post_stack_ok; eauto. }
  assert (Ha0 : attn_ok f h d0).
  { subst d0. destruct dec. exact Ha. }
  assert (Hb0 : batch_ok (dec_stack d0) N).
  { subst d0. destruct dec as [? ? ? s ? ? ? ? ? ?]. cbn.
    eapply init_post_batch_ok; eauto. }
  destruct (Decoder_init_hidden_run f h d0 hs cs N S g)
    as (k & v & Ei & Hk); try assumption.
  set (d1 := dec_with d0
               (set_cell_state
                  (set_hidden (dec_stack d0)
                     (Some (last_hidden hs N S (Z.to_nat h))))
                  (Some (match cs with
                         | None => zeros r0 [1; N; Z.to_nat h]
                         | Some c => c
                         end))) k v) in *.
  assert (Hd1 : decoder_ok cls f h d1).
  { apply decoder_ok_with; [apply modules_set_state | exact (conj Hs0 Ha0)]. }
  assert (Hb1 : batch_ok (dec_stack d1) N).
  { eapply batch_ok_modules; [|exact Hb0]. apply modules_set_state. }
  assert (Hs1 : state_shapes N h (dec_stack d1)).
  { unfold state_shapes. subst d1. cbn [dec_with dec_stack].
    destruct (dec_stack d0) as [tr0 hd0 cs0 br0 rs0 on0 hn0 cn0 ds0]. simpl.
    split; [eexists; split; [reflexivity | apply shape_build]|].
    intros c [= <-]. destruct cs as [c|].
    - now apply Scs.
    - reflexivity. }
  assert (Hc1 : is_some (cell_state (dec_stack d1)) = true).
  { subst d1. cbn [dec_with dec_stack].
    destruct (dec_stack d0) as [tr0 hd0 cs0 br0 rs0 on0 hn0 cn0 ds0].
    reflexivity. }
  assert (Hk1 : keys_ok d1 N S h).
  { destruct d0; exact Hk. }
  destruct (Decoder_forward_run cls f h d1 X N L S g)
    as (sd & out & g2 & Ed & Sout & _); try assumption.
  exists d1, (set_dec_stack d1 sd), out, g2. auto.
Qed.

Lemma EncoderDecoder_forward_run_any cls f h L (m : EncoderDecoder R)
      (X : Tensor R) B T g :
  model_ok cls f h L m -> (0 < L)%Z -> 0 < B -> 0 < T ->
  batch_ok (enc_stack (encoder m)) B ->
  batch_ok (dec_stack (decoder m)) B ->
  shape X = [B; T; Z.to_nat f] ->
  exists m' out g',
    EncoderDecoder_forward m X g = Ok ((m', out), g') /\
    shape out = [B; Nat.min (Z.to_nat L) T; Z.to_nat f] /\
    outputs m' = Some (zeros r0 [B; Z.to_nat L; Z.to_nat f]).
Proof.
  intros (He & Hd & HiL & HtL) HL HB HT Hbe Hbd SX.
  assert (Hf : (0 < f)%Z) by apply He.
  assert (Hh : (0 < h)%Z) by apply He.
  assert (Hnf : enc_n_features (encoder m) = f) by apply He.
  destruct (getitem_prefix _ r0 X B T (Z.to_nat f) L SX ltac:(lia))
    as (src & Esrc & Ssrc).
  set (Ls := Nat.min (Z.to_nat L) T) in *.
  assert (HLs : 0 < Ls) by (subst Ls; lia).
  destruct (getitem_suffix _ r0 X B T (Z.to_nat f) L SX) as (tgt & Etgt).
  destruct (Encoder_forward_run cls f h (encoder m) src B Ls g)
    as (se & hs & g1 & Ee & (Shs & Hse & Hme & Hce & _) & Hce');
    try assumption.
  destruct Hd as (Hds & Hda).
  destruct (Decoder_init_hidden_run f h (decoder m) hs (cell_state se)
              B Ls g1)
    as (k & v & Ei & Hk); try assumption.
  set (d1 := dec_with (decoder m)
               (set_cell_state
                  (set_hidden (dec_stack (decoder m))
                     (Some (last_hidden hs B Ls (Z.to_nat h))))
                  (Some (match cell_state se with
                         | None => zeros r0 [1; B; Z.to_nat h]
                         | Some c => c
                         end))) k v) in *.
  assert (Hd1 : decoder_ok cls f h d1).
  { apply decoder_ok_with; [apply modules_set_state | exact (conj Hds Hda)]. }
  assert (Hb1 : batch_ok (dec_stack d1) B).
  { eapply batch_ok_modules; [|exact Hbd]. apply modules_set_state. }
  assert (Hs1 : state_shapes B h (dec_stack d1)).
  { unfold state_shapes. subst d1. cbn [dec_with dec_stack].
    destruct (dec_stack (decoder m))
      as [tr0 hd0 cs0 br0 rs0 on0 hn0 cn0 ds0]. simpl.
    split; [eexists; split; [reflexivity | apply shape_build]|].
    intros c [= <-]. destruct (cell_state se) as [c|] eqn:Ec.
    - apply Hse. exact Ec.
    - reflexivity. }
  assert (Hc1 : is_some (cell_state (dec_stack d1)) = true).
  { subst d1. cbn [dec_with dec_stack].
    destruct (dec_stack (decoder m))
      as [tr0 hd0 cs0 br0 rs0 on0 hn0 cn0 ds0]. reflexivity. }
  assert (Hk1 : keys_ok d1 B Ls h).
  { destruct (decoder m); exact Hk. }
  destruct (Decoder_forward_run cls f h d1 src B Ls Ls g1)
    as (sd & out & g2 & Ed & Sout & _); try assumption.
  eexists. exists out, g2. split; [|split; [exact Sout|]].
  - unfold EncoderDecoder_forward. rewrite HiL in *.
    rewrite (bind_lift_ok _ _ _ _ Esrc), (bind_lift_ok _ _ _ _ Etgt).
    unfold shape0. rewrite SX. cbn [bind lift].
    unfold init_outputs, torch_zeros. rewrite HtL, Hnf.
    cbn [forallb map].
    replace (0 <=? Z.of_nat B)%Z with true by (symmetry; apply Z.leb_le; lia).
    replace (0 <=? L)%Z with true by (symmetry; apply Z.leb_le; lia).
    replace (0 <=? f)%Z with true by (symmetry; apply Z.leb_le; lia).
    cbn [andb bind lift ret set_outputs encoder decoder].
    rewrite Nat2Z.id.
    rewrite (bind_ok _ _ _ _ _ Ee). cbn beta iota.
    cbn [set_encoder decoder encoder input_len target_len
         teacher_forcing_prob outputs].
    rewrite (bind_ok _ _ _ _ _ Ei). cbn beta iota.
    cbn [set_decoder decoder].
    rewrite (bind_ok _ _ _ _ _ Ed). cbn beta iota.
    unfold ret. reflexivity.
  - reflexivity.
Qed.

(** [forward] does not check the length of its input.  On an input of
    [T > 0] steps it encodes and decodes the first [min(seq_len, T)]
    steps and returns as many predictions: [seq_len] of them from
    [seq_len] steps on, fewer on a shorter input.  The buffer [outputs]
    has [seq_len] steps in either case.  As for an input of [2 * seq_len]
    steps, the layers are taken to meet their contracts, a batch
    normalization in training mode needs more than one series, and the
    sizes are integers of 64 bits. *)
Theorem forward_any_length f h cls layers L tf d normalization heads g0
        (m : EncoderDecoder R) g1 mode X B T g :
  create_encoder_decoder_model f h cls layers L tf d normalization heads g0
    = Ok (m, g1) ->
  int64 f -> int64 L ->
  (0 < f)%Z -> (0 < h)%Z -> (0 < L)%Z -> 0 < B -> 0 < T ->
  (normalization_is normalization "BatchNormalization" = true ->
   mode = true -> 1 < B) ->
  shape X = [B; T; Z.to_nat f] ->
  exists m' out g',
    EncoderDecoder_forward (train mode m) X g = Ok ((m', out), g') /\
    shape out = [B; Nat.min (Z.to_nat L) T; Z.to_nat f] /\
    outputs m' = Some (zeros r0 [B; Z.to_nat L; Z.to_nat f]).
Proof.
  intros Ec _ _ Hf Hh HL HB HT Hb SX.
  destruct (train_batch_ok _ _ _ _ _ _ _ _ _ _ _ _ mode B Ec HB Hb)
    as [Hbe Hbd].
  eapply EncoderDecoder_forward_run_any; eauto.
  apply model_ok_train. eapply create_model_ok; eauto.
Qed.

(** ** [init_hidden] on sequences it is not meant for *)

(** Without attention, [init_hidden] needs a hidden sequence of exactly
    three axes: [hidden_seq[:, -1:]] raises an [IndexError] on fewer than
    two, and [permute(1, 0, 2)] a [RuntimeError] on two and on more than
    three. *)
Theorem init_hidden_rejects_rank (d : Decoder R) hs cs g :
  attn d = None -> length (shape hs) <> 3 ->
  Decoder_init_hidden d hs cs g =
  Raise (if length (shape hs) <? 2 then IndexError else RuntimeError).
Proof.
  intros Ha Hr. unfold Decoder_init_hidden. rewrite Ha. cbn [is_some].
  rewrite bind_ret. unfold getitem_axis1.
  destruct (shape hs) as [|a [|b r]] eqn:Sh; try reflexivity.
  cbn [length Nat.leb Nat.ltb].
  destruct (slice_indices (Some (-1)%Z) None b) as [lo hi].
  cbn [bind lift]. unfold permute. rewrite shape_build.
  unfold is_permutation.
  replace (length [1; 0; 2] =? length (a :: hi - lo :: r)) with false.
  - reflexivity.
  - symmetry. apply Nat.eqb_neq. cbn [length] in *. lia.
Qed.

(** An empty hidden sequence is not rejected: [hidden_seq[:, -1:]] is
    then empty, and [init_hidden] stores a hidden state and a zero cell
    state of shape [(0, N, H)]. *)
Theorem init_hidden_empty_sequence (d : Decoder R) hs N H g :
  attn d = None -> shape hs = [N; 0; H] ->
  exists d' hd,
    Decoder_init_hidden d hs None g = Ok (d', g) /\
    hidden (dec_stack d') = Some hd /\ shape hd = [0; N; H] /\
    cell_state (dec_stack d') = Some (zeros r0 [0; N; H]).
Proof.
  intros Ha Sh. unfold Decoder_init_hidden. rewrite Ha. cbn [is_some].
  rewrite bind_ret. unfold getitem_axis1. rewrite Sh.
  cbn [length Nat.leb slice_indices]. rewrite clamp_bound_minus1.
  cbn [Nat.sub bind lift].
  rewrite (permute_102 _ _ _ N 0 H (shape_build _ _)).
  cbn [bind lift ret].
  eexists. eexists. split; [reflexivity|].
  destruct d as [? ? ? s ? ? ? ? ? ?], s.
  cbn [dec_stack set_dec_stack set_hidden set_cell_state hidden cell_state].
  repeat split.
Qed.

(** ** [store_output] *)

Lemma slice_step (T : nat) (i : Z) :
  i <> (-1)%Z ->
  (0 <= (if i <? 0 then i + Z.of_nat T else i) < Z.of_nat T)%Z ->
  slice_indices (Some i) (Some (i + 1)%Z) T =
  (Z.to_nat (if i <? 0 then i + Z.of_nat T else i)%Z,
   S (Z.to_nat (if i <? 0 then i + Z.of_nat T else i)%Z)).
Proof.
  intros Hi Hp. unfold slice_indices, clamp_bound. cbv zeta.
  destruct (Z.ltb_spec i 0), (Z.ltb_spec (i + 1) 0); f_equal; lia.
Qed.

Lemma slice_empty (T : nat) (i : Z) :
  (Z.of_nat T <= i \/ i = -1 \/ i < - Z.of_nat T)%Z ->
  snd (slice_indices (Some i) (Some (i + 1)%Z) T)
  <= fst (slice_indices (Some i) (Some (i + 1)%Z) T).
Proof.
  intros Hi. unfold slice_indices, clamp_bound. cbv zeta. cbn [fst snd].
  destruct (Z.ltb_spec i 0), (Z.ltb_spec (i + 1) 0); lia.
Qed.

Lemma expandable_step B F k :
  k <= 1 ->
  expandable (rev (strip_ones [B; 1; F])) (rev [B; k; F]) = true.
Proof.
  intros Hk.
  destruct B as [|[|B']], F as [|[|F']], k as [|[|k']]; try lia;
    cbn; rewrite ?Nat.eqb_refl; reflexivity.
Qed.

Lemma expand_step_get B F (dat : list R) n k :
  n < B -> k < F ->
  get r0 (mkTensor (strip_ones [B; 1; F]) dat)
    (rev (expand_index (rev (strip_ones [B; 1; F])) (rev [n; 0; k]))) =
  get r0 (mkTensor [B; 1; F] dat) [n; 0; k].
Proof.
  intros Hn Hk. unfold get.
  destruct B as [|[|B']], F as [|[|F']]; try lia; cbn; f_equal; lia.
Qed.

(** What [store_output(i, out)] writes.  With a buffer of shape
    [(B, T, F)] and the prediction of one step, of shape [(B, 1, F)], the
    call writes step [i] of the buffer when [0 <= i < T], and step
    [T + i] when [-T <= i < -1]; the other steps keep their values, and
    reading the slice [outputs[:, i:i+1, :]] back returns the
    prediction. *)
Theorem store_output_writes_step (m : EncoderDecoder R) o out B T F i g :
  outputs m = Some o -> shape o = [B; T; F] -> shape out = [B; 1; F] ->
  i <> (-1)%Z ->
  (0 <= (if i <? 0 then i + Z.of_nat T else i) < Z.of_nat T)%Z ->
  exists o',
    store_output m i out g = Ok (set_outputs m (Some o'), g) /\
    shape o' = [B; T; F] /\
    (forall n j k, n < B -> j < T -> k < F ->
       get r0 o' [n; j; k] =
       if j =? Z.to_nat (if i <? 0 then i + Z.of_nat T else i)%Z
       then get r0 out [n; 0; k]
       else get r0 o [n; j; k]) /\
    (wf out ->
     getitem_axis1 r0 3 (Some i) (Some (i + 1)%Z) o' = Ok out).
Proof.
  intros Ho So Sout Hi Hp. unfold store_output. rewrite Ho.
  unfold setitem_axis1. rewrite So. cbn [length Nat.leb].
  rewrite (slice_step T i Hi Hp).
  set (p := Z.to_nat (if (i <? 0)%Z then (i + Z.of_nat T)%Z else i)).
  assert (HpT : p < T) by (subst p; lia).
  destruct out as [sho dat]. cbn [shape data] in *. subst sho.
  replace (S p - p) with 1 by lia.
  rewrite expandable_step by lia.
  cbn [bind lift ret].
  eexists. split; [reflexivity|]. split; [apply shape_build|].
  assert (Hget : forall n j k, n < B -> j < T -> k < F ->
            get r0
              (build [B; T; F]
                 (fun idx =>
                    match idx with
                    | i0 :: j0 :: r =>
                        if (p <=? j0) && (j0 <? S p)
                        then get r0 (mkTensor (strip_ones [B; 1; F]) dat)
                               (rev (expand_index
                                       (rev (strip_ones [B; 1; F]))
                                       (rev (i0 :: j0 - p :: r))))
                        else get r0 o idx
                    | _ => r0
                    end)) [n; j; k] =
            if j =? p then get r0 (mkTensor [B; 1; F] dat) [n; 0; k]
            else get r0 o [n; j; k]).
  { intros n j k Hn Hj Hk.
    rewrite get_build by (apply valid_index3_intro; assumption).
    destruct (Nat.eqb_spec j p) as [-> | Hne].
    - rewrite Nat.leb_refl.
      replace (p <? S p) with true by (symmetry; apply Nat.ltb_lt; lia).
      cbn [andb]. rewrite Nat.sub_diag. now apply expand_step_get.
    - replace ((p <=? j) && (j <? S p)) with false; [reflexivity|].
      symmetry. apply andb_false_iff.
      destruct (Nat.leb_spec p j); [right | now left].
      apply Nat.ltb_ge. lia. }
  split; [exact Hget|].
  intros Hwf. unfold getitem_axis1. rewrite shape_build.
  cbn [length Nat.leb]. rewrite (slice_step T i Hi Hp). fold p.
  replace (S p - p) with 1 by lia.
  f_equal. rewrite <- (build_get _ r0 _ Hwf). cbn [shape].
  apply build_ext. intros idx Hv.
  apply valid_index3 in Hv. destruct Hv as (n & j & k & -> & Hn & Hj & Hk).
  assert (j = 0) as -> by lia. rewrite Nat.add_0_r.
  rewrite (Hget n p k Hn HpT Hk). now rewrite Nat.eqb_refl.
Qed.

(** What [store_output(i, out)] silently ignores.  For [i >= T], for
    [i < -T] and for [i = -1] the slice [i:i+1] of the buffer is empty:
    the call returns without an error and the buffer is unchanged.  In
    particular [store_output(-1, out)] does not write the last step. *)
Theorem store_output_ignores_step (m : EncoderDecoder R) o out B T F i g :
  outputs m = Some o -> wf o -> shape o = [B; T; F] ->
  shape out = [B; 1; F] ->
  (Z.of_nat T <= i \/ i = -1 \/ i < - Z.of_nat T)%Z ->
  store_output m i out g = Ok (m, g).
Proof.
  intros Ho Hwf So Sout Hi. unfold store_output. rewrite Ho.
  unfold setitem_axis1. rewrite So. cbn [length Nat.leb].
  pose proof (slice_empty T i Hi) as Hs.
  destruct (slice_indices (Some i) (Some (i + 1)%Z) T) as [lo hi].
  cbn [fst snd] in Hs.
  destruct out as [sho dat]. cbn [shape data] in *. subst sho.
  replace (hi - lo) with 0 by lia.
  rewrite expandable_step by lia.
  cbn [bind lift ret]. f_equal. f_equal.
  replace (build [B; T; F] _) with o.
  - destruct m. cbn in *. now subst.
  - rewrite <- (build_get _ r0 o Hwf) at 1. rewrite So.
    apply build_ext. intros idx Hv.
    apply valid_index3 in Hv. destruct Hv as (n & j & k & -> & _).
    replace ((lo <=? j) && (j <? hi)) with false; [reflexivity|].
    symmetry. apply andb_false_iff.
    destruct (Nat.leb_spec lo j); [right | now left].
    apply Nat.ltb_ge. lia.
Qed.

(** What [store_output] rejects: a call before [init_outputs], when
    [outputs] is still [None], raises a [TypeError]; and a prediction
    with another number of features than the buffer, and more than one,
    cannot be expanded to the slice and raises a [RuntimeError]. *)
Theorem store_output_rejects (m : EncoderDecoder R) out i g :
  (outputs m = None -> store_output m i out g = Raise TypeError) /\
  (forall o B T F F',
     outputs m = Some o -> shape o = [B; T; F] ->
     shape out = [B; 1; F'] -> F' <> F -> F' <> 1 ->
     store_output m i out g = Raise RuntimeError).
Proof.
  split.
  - intros Ho. unfold store_output. now rewrite Ho.
  - intros o B T F F' Ho So Sout HF H1. unfold store_output. rewrite Ho.
    unfold setitem_axis1. rewrite So, Sout. cbn [length Nat.leb].
    destruct (slice_indices (Some i) (Some (i + 1)%Z) T) as [lo hi].
    replace (expandable _ _) with false; [reflexivity|].
    symmetry.
    apply Nat.eqb_neq in HF. apply Nat.eqb_neq in H1.
    destruct B as [|[|B']], F' as [|[|F'']]; cbn in *;
      rewrite ?HF; try reflexivity; try discriminate.
Qed.

(** ** The sizes of the layers *)

Lemma init_post_norm_features f h cls n d normalization (s : Recurrent R) nm :
  init_post f h cls n d normalization s ->
  out_normalization s = Some nm \/ hidden_normalization s = Some nm ->
  num_features nm = h.
Proof.
  intros Hp Hn. pose proof (init_norms _ _ _ _ _ _ _ Hp) as Hi.
  destruct (normalization_is normalization "LayerNormalization");
    [|destruct (normalization_is normalization "BatchNormalization")].
  - destruct Hi as [(o & Eo & _ & Ho) (hn & Eh & _ & Hh)].
    destruct Hn; congruence.
  - destruct Hi as [(o & Eo & _ & Ho) (hn & Eh & _ & Hh)].
    destruct Hn; congruence.
  - destruct Hi as [Eo Eh]. destruct Hn; congruence.
Qed.

Lemma Recurrent_init_cell_norm f h cls n d normalization g s g' nm :
  Recurrent_init f h cls n d normalization g = Ok (s, g') ->
  cell_normalization s = Some nm -> num_features nm = h.
Proof.
  unfold Recurrent_init. intros E.
  apply bind_inv in E. destruct E as (b & g1 & Eb & E).
  apply bind_inv in E. destruct E as (rs & g2 & Er & E).
  apply bind_inv in E. destruct E as (ds & g3 & Ed & E).
  unfold nn_BatchNorm1d, nn_LayerNorm in E.
  destruct (normalization_is normalization "BatchNormalization");
    destruct (normalization_is normalization "LayerNormalization");
    destruct (is_LSTM b);
    inv_run; cbn [cell_normalization]; intros [= <-]; reflexivity.
Qed.

Lemma create_cell_norm f h cls layers L tf d normalization heads g
      (m : EncoderDecoder R) g' nm :
  create_encoder_decoder_model f h cls layers L tf d normalization heads g
    = Ok (m, g') ->
  cell_normalization (enc_stack (encoder m)) = Some nm \/
  cell_normalization (dec_stack (decoder m)) = Some nm ->
  num_features nm = h.
Proof.
  unfold create_encoder_decoder_model, Encoder_init, Decoder_init.
  intros E.
  apply bind_inv in E. destruct E as (u & g1 & _ & E).
  apply bind_inv in E. destruct E as (e & g2 & Ee & E).
  apply bind_inv in Ee. destruct Ee as (se & g3 & Ese & Ee).
  apply ret_inv in Ee. destruct Ee as [-> _].
  apply bind_inv in E. destruct E as (dec & g4 & Edec & E).
  apply bind_inv in Edec. destruct Edec as (sd & g5 & Esd & Edec).
  apply bind_inv in Edec. destruct Edec as ([[a lk] lv] & g6 & _ & Edec).
  apply bind_inv in Edec. destruct Edec as (rg & g7 & _ & Edec).
  apply ret_inv in Edec. destruct Edec as [-> _].
  apply ret_inv in E. destruct E as [-> _].
  cbn [EncoderDecoder_init encoder decoder enc_stack dec_stack].
  intros [Hn | Hn].
  - exact (Recurrent_init_cell_norm _ _ _ _ _ _ _ _ _ _ Ese Hn).
  - exact (Recurrent_init_cell_norm _ _ _ _ _ _ _ _ _ _ Esd Hn).
Qed.

(** [hidden_dim] is shared by all the layers of the model that is built:
    in both stacks the first layer maps [n_features] to [hidden_dim] and
    the stacked layers [hidden_dim] to [hidden_dim], the three
    normalization layers have [hidden_dim] features, the attention has
    embedding dimension [hidden_dim] and its keys and values are
    projected from [hidden_dim] to [hidden_dim]; the regression layer
    maps [2 * hidden_dim] features with attention, [hidden_dim] without,
    to [n_features]. *)
Theorem create_layer_sizes f h cls layers L tf d normalization heads g
        (m : EncoderDecoder R) g' :
  create_encoder_decoder_model f h cls layers L tf d normalization heads g
    = Ok (m, g') ->
  (forall s,
     s = enc_stack (encoder m) \/ s = dec_stack (decoder m) ->
     layer_ok cls f h (basic_rnn s) /\
     Forall (layer_ok cls h h) (rnns s) /\
     (forall nm,
        out_normalization s = Some nm \/ hidden_normalization s = Some nm \/
        cell_normalization s = Some nm ->
        num_features nm = h)) /\
  out_features (regression (decoder m)) = f /\
  in_features (regression (decoder m))
    = (if 0 <? heads then h * 2 else h)%Z /\
  (forall a, attn (decoder m) = Some a ->
     embed_dim a = h /\ linear_ok h h (linear_keys (decoder m)) /\
     linear_ok h h (linear_values (decoder m))).
Proof.
  intros E.
  pose proof (fun nm => create_cell_norm _ _ _ _ _ _ _ _ _ _ _ _ nm E)
    as Hcn.
  apply create_inv in E.
  destruct E as (He & Hd & _ & Ha & Hs & _).
  split; [|split; [apply Ha|split]].
  - intros s [-> | ->].
    + split; [apply He|]. split; [apply He|].
      intros nm [Hn | [Hn | Hn]];
        [ exact (init_post_norm_features _ _ _ _ _ _ _ nm He (or_introl Hn))
        | exact (init_post_norm_features _ _ _ _ _ _ _ nm He (or_intror Hn))
        | apply (Hcn nm); now left ].
    + split; [apply Hd|]. split; [apply Hd|].
      intros nm [Hn | [Hn | Hn]];
        [ exact (init_post_norm_features _ _ _ _ _ _ _ nm Hd (or_introl Hn))
        | exact (init_post_norm_features _ _ _ _ _ _ _ nm Hd (or_intror Hn))
        | apply (Hcn nm); now right ].
  - destruct Ha as [_ Ha]. rewrite <- Hs.
    destruct (attn (decoder m)); cbn [is_some]; [apply Ha | exact Ha].
  - intros a Ea. destruct Ha as [_ Ha]. rewrite Ea in Ha.
    destruct Ha as (E1 & _ & _ & Hk & Hv & _). auto.
Qed.

(** ** [Decoder.forward] before [init_hidden] *)

(** A decoder of LSTM layers cannot be run before [init_hidden]: its
    hidden and cell states are still [None], and the first layer, which
    is given the pair of them, raises an [AttributeError] on an input of
    two or three axes.  On an input of another rank the check of the
    input by [nn.LSTM] comes first, with a [ValueError]. *)
Theorem Decoder_forward_needs_init_hidden
        f h n d normalization heads g0 (dec : Decoder R) g1 mode X g :
  Decoder_init f h LSTM n d normalization heads g0 = Ok (dec, g1) ->
  Decoder_forward (Decoder_train mode dec) X g =
  Raise (if (length (shape X) =? 2) || (length (shape X) =? 3)
         then AttributeError else ValueError).
Proof.
  intros E. apply Decoder_init_inv in E. destruct E as (Hp & _).
  destruct Hp as [(Hc & _) _ _ _ _ _ _ Hh Hcs _].
  destruct dec as [? ? ? s ? ? ? ? ? ?], s.
  cbn [dec_stack basic_rnn hidden cell_state] in *. subst.
  unfold Decoder_forward, call_rnn, is_LSTM.
  cbn [Decoder_train set_dec_stack dec_stack set_training basic_rnn hidden
       cell_state].
  rewrite Hc. cbn [RnnClass_eqb]. unfold call_lstm, bind, lift.
  destruct ((length (shape X) =? 2) || (length (shape X) =? 3));
    reflexivity.
Qed.

End Runs.


(** * The theorems on concrete inputs *)

Lemma Toy_shape_eqb_refl sh : Toy.shape_eqb sh sh = true.
Proof.
  induction sh as [|x sh IH]; [reflexivity|].
  simpl. now rewrite Nat.eqb_refl, IH.
Qed.

Lemma Toy_rnn_check (m : RnnModule Z) x st N L :
  rnn_accepts m N L x st -> Toy.rnn_check m x st = Some (N, L).
Proof.
  intros (Hi & Hh & HN & HL & Sx & Hst). unfold Toy.rnn_check.
  rewrite Sx. unfold Toy.positive_sizes.
  replace (0 <? input_size m)%Z with true by (symmetry; now apply Z.ltb_lt).
  replace (0 <? hidden_size m)%Z with true by (symmetry; now apply Z.ltb_lt).
  replace (0 <? N) with true by (symmetry; now apply Nat.ltb_lt).
  replace (0 <? L) with true by (symmetry; now apply Nat.ltb_lt).
  rewrite Nat.eqb_refl. cbn [andb].
  replace (Toy.state_ok N (hidden_size m) st) with true; [reflexivity|].
  symmetry. unfold Toy.state_ok. apply forallb_forall. intros t Ht.
  rewrite Forall_forall in Hst. rewrite (Hst t Ht).
  apply Toy_shape_eqb_refl.
Qed.

Lemma Toy_shapes : TorchShapes Toy.torch.
Proof.
  constructor.
  - intros m x st N L _ Ha. cbn [lstm_forward Toy.torch]. unfold Toy.lstm.
    rewrite (Toy_rnn_check _ _ _ _ _ Ha).
    eexists; eexists; eexists. repeat split.
  - intros m x st N L _ Ha. cbn [gru_forward Toy.torch]. unfold Toy.gru.
    rewrite (Toy_rnn_check _ _ _ _ _ Ha).
    eexists; eexists. repeat split.
  - intros m tr t (N & L & HN & HL & Hf & Ha).
    cbn [norm_forward Toy.torch]. unfold Toy.norm.
    destruct (norm_class m).
    + destruct Ha as [Sh Htr]. rewrite Sh. rewrite Nat.eqb_refl. cbn [negb].
      destruct tr; cbn [andb].
      * specialize (Htr eq_refl).
        destruct (Nat.leb_spec (N * L) 1); [lia|]. now exists t.
      * now exists t.
    + rewrite Ha. rewrite Nat.eqb_refl. now exists t.
  - intros d t g. exists t, (S g). now split.
  - intros m t N L _ _ _ _ Sh. cbn [linear_forward Toy.torch].
    unfold Toy.linear. rewrite Sh, Nat.eqb_refl.
    eexists. split; reflexivity.
  - intros m q k v N L Ls _ _ _ _ _ _ Sq Sk Sv.
    cbn [attn_forward Toy.torch]. unfold Toy.attention.
    rewrite Sq, Sk, Sv, !Nat.eqb_refl, Toy_shape_eqb_refl.
    eexists; eexists. split; reflexivity.
Qed.



Lemma Toy_constructs : TorchConstructs Toy.torch.
Proof.
  constructor.
  - intros cls i h g Hi Hh. cbn [rnn_init Toy.torch].
    unfold Toy.init, Toy.positive_sizes.
    apply Z.ltb_lt in Hi, Hh. rewrite Hi, Hh. now eexists _, _.
  - intros c n g Hn. cbn [norm_init Toy.torch]. unfold Toy.init.
    apply Z.ltb_lt in Hn. rewrite Hn. now eexists _, _.
  - intros i o g Hi Ho. cbn [linear_init Toy.torch].
    unfold Toy.init, Toy.positive_sizes.
    apply Z.ltb_lt in Hi, Ho. rewrite Hi, Ho. now eexists _, _.
  - intros e h g He Hh Hm. cbn [attn_init Toy.torch].
    unfold Toy.init, Toy.positive_sizes.
    apply Z.ltb_lt in He, Hh. apply Z.eqb_eq in Hm. rewrite He, Hh, Hm.
    now eexists _, _.
Qed.

(** [hidden_dim = 8] with 2 heads builds a model, and [hidden_dim = 10]
    with 3 heads raises the assertion. *)
Lemma create_checks_heads_witness :
  (exists m g',
     create_encoder_decoder_model (torch := Toy.torch)
       1 8 GRU 1 3 0%Q 0%Q None 2 0 = Ok (m, g')) /\
  create_encoder_decoder_model (torch := Toy.torch)
    1 10 GRU 1 3 0%Q 0%Q None 3 0 = Raise (AssertionError heads_message).
Proof.
  split.
  - destruct (create_checks_heads (torch := Toy.torch) Toy_constructs
                1 8 GRU 1 3 0%Q 0%Q None 2 0) as (H & _);
      [lia | lia | discriminate |].
    destruct (H ltac:(lia)) as (_ & Hok). apply Hok. reflexivity.
  - destruct (create_checks_heads (torch := Toy.torch) Toy_constructs
                1 8 GRU 1 3 0%Q 0%Q None 3 0) as (_ & _ & H);
      [lia | lia | discriminate |].
    exact H.
Defined.

(** [num_rnn_layers = 3]: two layers in [self.rnns]. *)
Lemma rnns_length_witness :
  (exists e g',
     Encoder_init (torch := Toy.torch) 1 2 LSTM 3 (1 # 2)%Q None 0
       = Ok (e, g') /\
     length (rnns (enc_stack e)) = 2) /\
  (exists dec g',
     Decoder_init (torch := Toy.torch) 1 2 LSTM 3 (1 # 2)%Q None 1 0
       = Ok (dec, g') /\
     length (rnns (dec_stack dec)) = 2).
Proof.
  apply (rnns_length (torch := Toy.torch) Toy_constructs
           1 2 LSTM 3 (1 # 2)%Q None 1 0);
    [lia | lia | lia | reflexivity | reflexivity].
Defined.

(** The last step of [Toy.hidden_seq] is [[5, 6]] for the first series
    and [[11, 12]] for the second. *)
Lemma init_hidden_seeds_witness :
  exists d',
    Decoder_init_hidden (torch := Toy.torch) Toy.gru_decoder Toy.hidden_seq
      None 0 = Ok (d', 0) /\
    exists hd,
      hidden (dec_stack d') = Some hd /\
      shape hd = [1; 2; 2] /\
      get 0%Z hd [0; 1; 0] = get 0%Z Toy.hidden_seq [1; 2; 0] /\
      cell_state (dec_stack d') = Some (zeros 0%Z [1; 2; 2]).
Proof.
  destruct (init_hidden_seeds (torch := Toy.torch) Toy.gru_decoder
              Toy.hidden_seq None 2 3 2 0 eq_refl ltac:(lia))
    as [Hinv Hret].
  destruct (Hret eq_refl) as (d' & E).
  exists d'. split; [exact E|].
  destruct (Hinv d' 0 E) as (hd & Hh & Hs & Hg & Hc).
  exists hd. repeat split; try assumption.
  apply Hg; lia.
Defined.




(** The model as built and the same model in evaluation mode, from two
    different states of the generator. *)
Lemma forward_deterministic_witness :
  exists m g1,
    create_encoder_decoder_model (torch := Toy.torch)
      1 2 GRU 2 3 0%Q 0%Q None 0 0 = Ok (m, g1) /\
    value (EncoderDecoder_forward (torch := Toy.torch) m Toy.X 0) =
    value (EncoderDecoder_forward (torch := Toy.torch) (train false m)
             Toy.X 7).
Proof.
  eexists; eexists. split; [vm_compute; reflexivity|].
  eapply (forward_deterministic (torch := Toy.torch)
            1 2 GRU 2 3 0%Q 0 _ _ _ _ Toy.X 0 7);
    [vm_compute; reflexivity | |];
    (unfold same_weights, same_stack_weights; cbn; repeat split).
Defined.

(** The stack [Toy.bn_stack]: the output has the shape of the input and
    the cell state, which is permuted and not normalized, is unchanged. *)
Lemma batch_norm_restores_axes_witness :
  exists s' out,
    apply_normalization (torch := Toy.torch) Toy.bn_stack Toy.hidden_seq 0
      = Ok ((s', out), 0) /\
    shape out = [2; 3; 2] /\
    cell_state s' = Some Toy.cell.
Proof.
  destruct (batch_norm_restores_axes (torch := Toy.torch) Toy_shapes
              Toy.bn_stack Toy.hidden_seq 2 3 2 0)
    as [(s' & out & E & So & _ & Hc) _].
  - lia.
  - lia.
  - cbn. split; [reflexivity|]. eexists. repeat split.
  - reflexivity.
  - split; [eexists; split; reflexivity|].
    intros c [= <-]. reflexivity.
  - split; [lia|]. intros _ _. lia.
  - reflexivity.
  - exists s', out. split; [exact E|]. split; [exact So|].
    destruct (Hc Toy.cell eq_refl) as (c' & Ec & _ & Heq).
    rewrite Ec. f_equal. apply Heq; reflexivity.
Defined.

(** ** The further properties on the small instance *)

Lemma create_unknown_normalization_witness :
  create_encoder_decoder_model (torch := Toy.torch)
    1 2 LSTM 2 3 0%Q 0%Q (Some "batch"%string) 0 0 =
  create_encoder_decoder_model (torch := Toy.torch)
    1 2 LSTM 2 3 0%Q 0%Q None 0 0.
Proof.
  apply (create_unknown_normalization (torch := Toy.torch) "batch");
    discriminate.
Defined.

Lemma create_layers_below_one_witness :
  create_encoder_decoder_model (torch := Toy.torch)
    1 2 GRU 0 3 0%Q (1 # 2)%Q None 0 0 =
  create_encoder_decoder_model (torch := Toy.torch)
    1 2 GRU 1 3 0%Q (1 # 2)%Q None 0 0.
Proof.
  apply (create_layers_below_one (torch := Toy.torch)). lia.
Defined.

Lemma create_heads_below_one_witness :
  create_encoder_decoder_model (torch := Toy.torch)
    1 2 GRU 1 3 0%Q 0%Q None (-2) 0 =
  create_encoder_decoder_model (torch := Toy.torch)
    1 2 GRU 1 3 0%Q 0%Q None 0 0.
Proof.
  apply (create_heads_below_one (torch := Toy.torch)). lia.
Defined.

Lemma create_rejects_dropout_above_one_witness :
  create_encoder_decoder_model (torch := Toy.torch)
    1 2 GRU 2 3 0%Q (3 # 2)%Q None 0 0 = Raise ValueError /\
  exists m g1,
    create_encoder_decoder_model (torch := Toy.torch)
      1 2 GRU 1 3 0%Q (3 # 2)%Q None 0 0 = Ok (m, g1).
Proof.
  split.
  - apply (create_rejects_dropout_above_one (torch := Toy.torch)
             Toy_constructs 1 2 GRU 2 3 0%Q (3 # 2)%Q None 0 0);
      [lia | lia | reflexivity | lia | lia].
  - apply (create_rejects_dropout_above_one (torch := Toy.torch)
             Toy_constructs 1 2 GRU 1 3 0%Q (3 # 2)%Q None 0 0);
      [lia | lia | reflexivity | lia | lia].
Defined.

Lemma forward_rejects_low_rank_witness :
  EncoderDecoder_forward (torch := Toy.torch) Toy.gru_model Toy.flat_X 0
  = Raise IndexError.
Proof.
  apply (forward_rejects_low_rank (torch := Toy.torch)). simpl. lia.
Defined.

Lemma forward_rejects_negative_length_witness :
  exists m g1,
    create_encoder_decoder_model (torch := Toy.torch)
      1 2 GRU 1 (-1) 0%Q 0%Q None 0 0 = Ok (m, g1) /\
    EncoderDecoder_forward (torch := Toy.torch) m Toy.X 0
    = Raise RuntimeError.
Proof.
  eexists; eexists. split; [vm_compute; reflexivity|].
  apply (forward_rejects_negative_length (torch := Toy.torch));
    [ unfold int64; simpl; lia | unfold int64; simpl; lia
    | reflexivity | simpl; lia ].
Defined.

Lemma forward_assigns_state_only_witness :
  exists m' out g',
    EncoderDecoder_forward (torch := Toy.torch) Toy.gru_model Toy.X 0
      = Ok ((m', out), g') /\
    erase_state m' = erase_state Toy.gru_model.
Proof.
  eexists; eexists; eexists.
  assert (E : EncoderDecoder_forward (torch := Toy.torch) Toy.gru_model
                Toy.X 0 = Ok ((_, _), _)) by (vm_compute; reflexivity).
  split; [exact E|].
  exact (forward_assigns_state_only (torch := Toy.torch) _ _ _ _ _ _ E).
Defined.

(** Two LSTM layers with dropout, in evaluation mode. *)
Lemma forward_ignores_generator_witness :
  exists m g1,
    create_encoder_decoder_model (torch := Toy.torch)
      1 2 LSTM 2 3 0%Q (1 # 2)%Q None 0 0 = Ok (m, g1) /\
    EncoderDecoder_forward (torch := Toy.torch) (train false m) Toy.X 5 =
    regen 5
      (EncoderDecoder_forward (torch := Toy.torch) (train false m) Toy.X 0).
Proof.
  eexists; eexists. split; [vm_compute; reflexivity|].
  apply (forward_ignores_generator (torch := Toy.torch));
    left; reflexivity.
Defined.

(** Two LSTM layers with batch normalization, dropout and attention, in
    training mode: a second batch after a first one. *)
Lemma forward_no_carry_over_witness :
  exists m g1 m1 out1 gb,
    create_encoder_decoder_model (torch := Toy.torch)
      1 2 LSTM 2 3 0%Q (1 # 2)%Q (Some "BatchNormalization"%string) 1 0
      = Ok (m, g1) /\
    EncoderDecoder_forward (torch := Toy.torch) (train true m) Toy.X 0
      = Ok ((m1, out1), gb) /\
    EncoderDecoder_forward (torch := Toy.torch) m1 Toy.long_X 7 =
    EncoderDecoder_forward (torch := Toy.torch) (train true m) Toy.long_X 7.
Proof.
  do 5 eexists.
  split; [vm_compute; reflexivity|].
  split; [vm_compute; reflexivity|].
  eapply (forward_no_carry_over (torch := Toy.torch)
            1 2 LSTM 2 3 0%Q (1 # 2)%Q (Some "BatchNormalization"%string)
            1 0 _ _ true Toy.X 0);
    vm_compute; reflexivity.
Defined.

Lemma Encoder_forward_shapes_witness :
  exists e g1,
    Encoder_init (torch := Toy.torch) 1 2 LSTM 2 (1 # 2)%Q
      (Some "LayerNormalization"%string) 0 = Ok (e, g1) /\
    exists e' hs cs g',
      Encoder_forward (torch := Toy.torch) (Encoder_train true e)
        Toy.X 0 = Ok ((e', (hs, cs)), g') /\
      shape hs = [2; 6; 2] /\
      exists c, cs = Some c /\ shape c = [1; 2; 2].
Proof.
  assert (E0 : exists e g1,
             Encoder_init (torch := Toy.torch) 1 2 LSTM 2 (1 # 2)%Q
               (Some "LayerNormalization"%string) 0 = Ok (e, g1))
    by (eexists; eexists; vm_compute; reflexivity).
  destruct E0 as (e & g1 & E0). exists e, g1. split; [exact E0|].
  destruct (Encoder_forward_shapes (torch := Toy.torch) Toy_shapes
              1 2 LSTM 2 (1 # 2)%Q (Some "LayerNormalization"%string)
              0 e g1 true Toy.X 2 6 0)
    as (e' & hs & cs & g' & E & Shs & _ & _ & Hl & _);
    [exact E0 | lia | lia | lia | lia | discriminate | reflexivity |].
  exists e', hs, cs, g'. split; [exact E|]. split; [exact Shs|].
  exact (Hl eq_refl).
Defined.

(** A decoder with attention: keys and values of three steps, queries of
    four. *)
Lemma Decoder_forward_shape_witness :
  exists dec g1,
    Decoder_init (torch := Toy.torch) 1 2 GRU 2 (1 # 2)%Q None 2 0
      = Ok (dec, g1) /\
    exists d1 d2 out g',
      Decoder_init_hidden (torch := Toy.torch) (Decoder_train true dec)
        Toy.hidden_seq None 0 = Ok (d1, 0) /\
      Decoder_forward (torch := Toy.torch) d1 Toy.long_X 0
        = Ok ((d2, out), g') /\
      shape out = [2; 4; 1].
Proof.
  assert (E0 : exists dec g1,
             Decoder_init (torch := Toy.torch) 1 2 GRU 2 (1 # 2)%Q None 2 0
               = Ok (dec, g1))
    by (eexists; eexists; vm_compute; reflexivity).
  destruct E0 as (dec & g1 & E0). exists dec, g1. split; [exact E0|].
  apply (Decoder_forward_shape (torch := Toy.torch) Toy_shapes
           1 2 GRU 2 (1 # 2)%Q None 2 0 dec g1 true Toy.hidden_seq None
           Toy.long_X 2 3 4 0);
    [exact E0 | lia | lia | reflexivity | lia | lia | lia | discriminate
     | reflexivity | discriminate | reflexivity].
Defined.

(** An input of two steps for a model of [seq_len = 3]. *)
Lemma forward_any_length_witness :
  exists m g1,
    create_encoder_decoder_model (torch := Toy.torch)
      1 2 GRU 1 3 0%Q 0%Q None 0 0 = Ok (m, g1) /\
    exists m' out g',
      EncoderDecoder_forward (torch := Toy.torch) (train false m)
        Toy.short_X 0 = Ok ((m', out), g') /\
      shape out = [2; 2; 1] /\
      outputs m' = Some (zeros 0%Z [2; 3; 1]).
Proof.
  assert (E0 : exists m g1,
             create_encoder_decoder_model (torch := Toy.torch)
               1 2 GRU 1 3 0%Q 0%Q None 0 0 = Ok (m, g1))
    by (eexists; eexists; vm_compute; reflexivity).
  destruct E0 as (m & g1 & E0). exists m, g1. split; [exact E0|].
  apply (forward_any_length (torch := Toy.torch) Toy_shapes
           1 2 GRU 1 3 0%Q 0%Q None 0 0 m g1 false Toy.short_X 2 2 0);
    [ exact E0 | unfold int64; lia | unfold int64; lia
    | lia | lia | lia | lia | lia | discriminate | reflexivity ].
Defined.

Lemma init_hidden_rejects_rank_witness :
  Decoder_init_hidden (torch := Toy.torch) Toy.gru_decoder Toy.flat_X None 0
  = Raise RuntimeError.
Proof.
  apply (init_hidden_rejects_rank (torch := Toy.torch) Toy.gru_decoder
           Toy.flat_X None 0); [reflexivity | discriminate].
Defined.

Lemma init_hidden_empty_sequence_witness :
  exists d' hd,
    Decoder_init_hidden (torch := Toy.torch) Toy.gru_decoder Toy.empty_seq
      None 0 = Ok (d', 0) /\
    hidden (dec_stack d') = Some hd /\ shape hd = [0; 2; 2] /\
    cell_state (dec_stack d') = Some (zeros 0%Z [0; 2; 2]).
Proof.
  apply (init_hidden_empty_sequence (torch := Toy.torch) Toy.gru_decoder
           Toy.empty_seq 2 2 0); reflexivity.
Defined.

(** [store_output(-2, step)] on a buffer of three steps writes step 1. *)
Lemma store_output_writes_step_witness :
  exists o',
    store_output (torch := Toy.torch) Toy.buffer_model (-2) Toy.step 0
      = Ok (set_outputs Toy.buffer_model (Some o'), 0) /\
    shape o' = [2; 3; 1] /\
    (forall n j k, n < 2 -> j < 3 -> k < 1 ->
       get 0%Z o' [n; j; k] =
       if j =? 1 then get 0%Z Toy.step [n; 0; k]
       else get 0%Z Toy.buffer [n; j; k]) /\
    getitem_axis1 0%Z 3 (Some (-2)%Z) (Some (-1)%Z) o' = Ok Toy.step.
Proof.
  destruct (store_output_writes_step (torch := Toy.torch) Toy.buffer_model
              Toy.buffer Toy.step 2 3 1 (-2) 0)
    as (o' & E & So & Hg & Hr);
    [reflexivity | reflexivity | reflexivity | discriminate
     | simpl; lia |].
  exists o'. split; [exact E|]. split; [exact So|]. split; [exact Hg|].
  apply Hr. reflexivity.
Defined.

Lemma store_output_ignores_step_witness :
  store_output (torch := Toy.torch) Toy.buffer_model (-1) Toy.step 0
  = Ok (Toy.buffer_model, 0).
Proof.
  apply (store_output_ignores_step (torch := Toy.torch) Toy.buffer_model
           Toy.buffer Toy.step 2 3 1 (-1) 0);
    [reflexivity | reflexivity | reflexivity | reflexivity
     | right; left; reflexivity].
Defined.

Lemma create_layer_sizes_witness :
  exists m g1,
    create_encoder_decoder_model (torch := Toy.torch)
      1 2 LSTM 3 3 0%Q 0%Q (Some "BatchNormalization"%string) 2 0
      = Ok (m, g1) /\
    out_features (regression (decoder m)) = 1%Z /\
    in_features (regression (decoder m)) = 4%Z /\
    Forall (layer_ok LSTM 2 2) (rnns (enc_stack (encoder m))) /\
    (forall nm, cell_normalization (dec_stack (decoder m)) = Some nm ->
                num_features nm = 2%Z).
Proof.
  assert (E0 : exists m g1,
             create_encoder_decoder_model (torch := Toy.torch)
               1 2 LSTM 3 3 0%Q 0%Q (Some "BatchNormalization"%string) 2 0
               = Ok (m, g1))
    by (eexists; eexists; vm_compute; reflexivity).
  destruct E0 as (m & g1 & E0). exists m, g1. split; [exact E0|].
  destruct (create_layer_sizes (torch := Toy.torch)
              1 2 LSTM 3 3 0%Q 0%Q (Some "BatchNormalization"%string) 2 0
              m g1 E0) as (Hs & Ho & Hi & _).
  split; [exact Ho|]. split; [exact Hi|].
  destruct (Hs (enc_stack (encoder m)) (or_introl eq_refl)) as (_ & Hr & _).
  split; [exact Hr|].
  destruct (Hs (dec_stack (decoder m)) (or_intror eq_refl)) as (_ & _ & Hn).
  intros nm Hc. apply Hn. right. right. exact Hc.
Defined.

Lemma Decoder_forward_needs_init_hidden_witness :
  exists dec g1,
    Decoder_init (torch := Toy.torch) 1 2 LSTM 1 0%Q None 0 0
      = Ok (dec, g1) /\
    Decoder_forward (torch := Toy.torch) (Decoder_train true dec) Toy.X 0
    = Raise AttributeError /\
    Decoder_forward (torch := Toy.torch) (Decoder_train true dec)
      (mkTensor [1; 1; 1; 1] [0%Z]) 0
    = Raise ValueError.
Proof.
  assert (E0 : exists dec g1,
             Decoder_init (torch := Toy.torch) 1 2 LSTM 1 0%Q None 0 0
               = Ok (dec, g1))
    by (eexists; eexists; vm_compute; reflexivity).
  destruct E0 as (dec & g1 & E0). exists dec, g1. split; [exact E0|].
  split.
  - exact (Decoder_forward_needs_init_hidden (torch := Toy.torch)
             1 2 1 0%Q None 0 0 dec g1 true Toy.X 0 E0).
  - exact (Decoder_forward_needs_init_hidden (torch := Toy.torch)
             1 2 1 0%Q None 0 0 dec g1 true
             (mkTensor [1; 1; 1; 1] [0%Z]) 0 E0).
Defined.
